(** * cdx_toolkit: the CDX index client, embedded and verified

    A shallow embedding of [cdx_toolkit/__init__.py]: the fault-tolerant
    HTTP fetch [myrequests_get], the response normalizer [cdx_to_json],
    the bounded query [CDXFetcher.get], the paginated iterator
    [CDXFetcherIter] and the size estimate [get_size_estimate].

    Python integers are [Z]; a parameter dictionary is a [gmap] from
    names to values; the dictionaries that the code mutates in place live
    in a heap so that aliasing is visible; exceptions are a sum type; the
    network is an oracle indexed by the number of requests sent so far;
    unbounded loops take fuel and return [None] when it runs out.

    A fetcher is its [index_list]; [get_cc_endpoints] and
    [CDXFetcher.__init__], which compute it, come last, with the clock
    and the calendar as a second oracle. *)

From Stdlib Require Import ZArith Lia List String Ascii Bool.
From Stdlib Require Import Floats.SpecFloat.
From stdpp Require Import base option list sorting gmap strings.

Local Open Scope Z_scope.

(** ** Exceptions and results *)

(** The classes of [requests.exceptions] that the code can meet.  All of
    them derive from [RequestException]; none derives from the builtin
    [ConnectionError]. *)
Inductive requests_exception :=
| HTTPError (status : Z)        (* raised by [Response.raise_for_status] *)
| ReqConnectionError            (* requests.exceptions.ConnectionError *)
| Timeout
| OtherRequestException.

Inductive exn :=
| RuntimeError (msg : string)    (* [msg]: the literal part of the message *)
| ValueError (msg : string)
| JSONDecodeError               (* json.decoder.JSONDecodeError, a ValueError *)
| IndexError
| KeyError
| TypeError
| AttributeError
| OverflowError
| StopIteration
| ConnectionError               (* the builtin class, with its subclasses *)
| RequestException (e : requests_exception).

Inductive result (A : Type) :=
| Ok (a : A)
| Raise (e : exn).
Arguments Ok {A} a.
Arguments Raise {A} e.

#[global] Instance result_ret : MRet result := fun A a => Ok a.
#[global] Instance result_bind : MBind result := fun A B f r =>
  match r with
  | Ok a => f a
  | Raise e => Raise e
  end.

(** [ValueError] and its subclass [JSONDecodeError] are what the
    normalizer reports for a body it cannot decode. *)
Definition is_ValueError (e : exn) : bool :=
  match e with
  | ValueError _ | JSONDecodeError => true
  | _ => false
  end.

(** ** Binary64 arithmetic on half-integers

    [pages_to_samples] leaves the integers through [pages - 1.0] and
    [pages - 0.5].  Every value it computes is a multiple of one half, so
    a float is represented by its number of halves.  A half-integer is a
    binary64 number exactly when its magnitude needs at most 53
    significant bits and stays below [2^1024]; [round] is rounding to
    nearest, ties to even. *)
Module B64.

Definition prec : Z := 53.
Definition emax : Z := 1024.

Definition round_mag (n : Z) : Z :=
  let k := Z.log2 n + 1 - prec in
  if k <=? 0 then n
  else
    let q := Z.shiftr n k in
    let r := Z.land n (Z.ones k) in
    let half_ulp := Z.shiftl 1 (k - 1) in
    let up := (half_ulp <? r) || ((half_ulp =? r) && Z.odd q) in
    Z.shiftl (if up then q + 1 else q) k.

Definition round (h : Z) : Z := Z.sgn h * round_mag (Z.abs h).

Inductive t :=
| Finite (halves : Z)
| Inf (negative : bool)
| NaN.

Definition make (h : Z) : t :=
  let r := round h in
  if Z.shiftl 1 (emax + 1) <=? Z.abs r then Inf (r <? 0) else Finite r.

Definition one : t := Finite 2.
Definition half : t := Finite 1.

(** [float(z)]: [None] stands for Python's OverflowError. *)
Definition of_int (z : Z) : option t :=
  match make (2 * z) with
  | Finite h => Some (Finite h)
  | _ => None
  end.

Definition sub (x y : t) : t :=
  match x, y with
  | Finite a, Finite b => make (a - b)
  | Inf s, Finite _ => Inf s
  | Finite _, Inf s => Inf (negb s)
  | Inf s1, Inf s2 => if eqb s1 s2 then NaN else Inf s1
  | _, _ => NaN
  end.

(** Product with the float of an integer [k], [0 < |k| < 2^53]. *)
Definition mul_int (x : t) (k : Z) : t :=
  match x with
  | Finite a => make (a * k)
  | Inf s => Inf (xorb s (k <? 0))
  | NaN => NaN
  end.

(** [int(x)] truncates toward zero. *)
Definition to_int (x : t) : result Z :=
  match x with
  | Finite h => Ok (Z.quot h 2)
  | Inf _ => Raise OverflowError
  | NaN => Raise (ValueError "cannot convert float NaN to integer")
  end.

End B64.

Definition float_of_int (z : Z) : result B64.t :=
  match B64.of_int z with
  | Some x => Ok x
  | None => Raise OverflowError
  end.

(** ** Page counts and sample counts *)

Definition lines_per_page : Z := 3000.

Definition pages_to_samples (pages : Z) : result Z :=
  if 1 <? pages then
    x ← float_of_int pages;
    B64.to_int (B64.mul_int (B64.sub x B64.one) lines_per_page)
  else if 1 <=? pages then
    x ← float_of_int pages;
    B64.to_int (B64.mul_int (B64.sub x B64.half) lines_per_page)
  else Ok (pages * lines_per_page).

(** ** Python values

    [pyval] is what a query parameter can hold; [json] is what
    [json.loads] can return, with dictionaries kept as association lists
    in insertion order (a record built by [cdx_to_json] may have keys that
    are not strings). *)

Inductive pyval :=
| VInt (z : Z)
| VStr (s : string).

#[warnings="-register-all"]
Inductive json :=
| JNull
| JBool (b : bool)
| JInt (z : Z)
| JFloat (f : spec_float)
| JStr (s : string)
| JList (l : list json)
| JDict (d : list (json * json)).

Record response := Response {
  status_code : Z;
  text : string
}.

(** ** The libraries and the network

    What the module imports and does not define: [json.loads], [int] on
    a string, and [requests.get].  The answer of [requests.get] may
    depend on how many requests were sent before it. *)
Class Library := {
  json_loads : string -> option json;
  int_of_str : string -> option Z;
  requests_get : nat -> string -> option (gmap string pyval) -> result response
}.

(** ** The world and the monad of effects *)

Record world := World {
  clock : nat;                              (* requests sent so far *)
  slept : Z;                                (* seconds spent in time.sleep *)
  heap : gmap nat (gmap string pyval)       (* the mutable dictionaries *)
}.

(** A computation either runs out of fuel ([None]) or ends, normally or
    with an exception, in a new state. *)
Definition M (S A : Type) : Type := S -> option (result A * S).

#[global] Instance M_ret {S} : MRet (M S) := fun A a s => Some (Ok a, s).
#[global] Instance M_bind {S} : MBind (M S) := fun A B f m s =>
  match m s with
  | Some (Ok a, s') => f a s'
  | Some (Raise e, s') => Some (Raise e, s')
  | None => None
  end.

Definition raise {S A} (e : exn) : M S A := fun s => Some (Raise e, s).
Definition diverge {S A} : M S A := fun _ => None.
Definition lift_result {S A} (r : result A) : M S A := fun s => Some (r, s).

(** [try: body except e: handler e] *)
Definition try_except {S A} (body : M S A) (handler : exn -> M S A) : M S A :=
  fun s =>
    match body s with
    | Some (Raise e, s') => handler e s'
    | r => r
    end.

Definition time_sleep (seconds : Z) : M world unit :=
  fun w => Some (Ok tt, World (clock w) (slept w + seconds) (heap w)).

Definition http_get `{Library} (url : string) (params : option (gmap string pyval))
  : M world response :=
  fun w => Some (requests_get (clock w) url params,
                 World (S (clock w)) (slept w) (heap w)).

(** ** The transient-fault HTTP layer *)

(** ['page' not in params]: testing membership in [None] is a TypeError. *)
Definition page_not_in (params : option (gmap string pyval)) : result bool :=
  match params with
  | Some d => Ok (bool_decide (d !! "page" = None))
  | None => Raise TypeError
  end.

(** [Response.raise_for_status] *)
Definition raise_for_status (resp : response) : result unit :=
  if (400 <=? status_code resp) && (status_code resp <? 600)
  then Raise (RequestException (HTTPError (status_code resp)))
  else Ok tt.

(** The body of the [try]: [Some resp] leaves the loop with [resp],
    [None] goes round again. *)
Definition myrequests_get_try `{Library} (url : string)
    (params : option (gmap string pyval)) : M world (option response) :=
  resp ← http_get url params;
  invalid ← (if status_code resp =? 400
             then lift_result (page_not_in params) else mret false);
  if (invalid : bool) then raise (RuntimeError "invalid url of some sort: ")
  else if (status_code resp =? 400) || (status_code resp =? 404) then
    mret (Some resp)
  else if (status_code resp =? 503) || (status_code resp =? 502)
          || (status_code resp =? 504) then
    time_sleep 1;; mret None
  else
    lift_result (raise_for_status resp);; mret (Some resp).

(** The two [except] clauses, in order. *)
Definition myrequests_get_except (e : exn) : M world (option response) :=
  match e with
  | ConnectionError => time_sleep 1;; mret None
  | RequestException _ => raise e
  | _ => raise e
  end.

Fixpoint myrequests_get `{Library} (fuel : nat) (url : string)
    (params : option (gmap string pyval)) : M world response :=
  match fuel with
  | O => diverge
  | S fuel' =>
      r ← try_except (myrequests_get_try url params) myrequests_get_except;
      match r with
      | Some resp => mret resp
      | None => myrequests_get fuel' url params
      end
  end.

(** ** Python dictionaries with arbitrary hashable keys *)

(** The integer a float equals, when it equals one. *)
Definition float_integral (f : spec_float) : option Z :=
  match f with
  | S754_zero _ => Some 0
  | S754_finite s m e =>
      let magnitude :=
        if 0 <=? e then Some (Z.pos m * 2 ^ e)
        else if Z.pos m mod 2 ^ (- e) =? 0 then Some (Z.pos m / 2 ^ (- e))
        else None in
      (fun z : Z => if s then - z else z) <$> magnitude
  | _ => None
  end.

(** [int(f)] on a float *)
Definition float_trunc (f : spec_float) : result Z :=
  match f with
  | S754_zero _ => Ok 0
  | S754_finite s m e =>
      let magnitude := if 0 <=? e then Z.pos m * 2 ^ e else Z.pos m / 2 ^ (- e) in
      Ok (if s then - magnitude else magnitude)
  | S754_infinity _ => Raise OverflowError
  | S754_nan => Raise (ValueError "cannot convert float NaN to integer")
  end.

Definition hashable (k : json) : bool :=
  match k with
  | JList _ | JDict _ => false
  | _ => true
  end.

Definition key_number (k : json) : option Z :=
  match k with
  | JBool b => Some (Z.b2z b)
  | JInt z => Some z
  | JFloat f => float_integral f
  | _ => None
  end.

(** Equality of two hashable keys: numbers of any type compare by value
    ([True == 1 == 1.0]), a NaN equals nothing. *)
Definition key_eqb (a b : json) : bool :=
  match key_number a, key_number b with
  | Some x, Some y => x =? y
  | None, None =>
      match a, b with
      | JNull, JNull => true
      | JStr s, JStr t => String.eqb s t
      | JFloat f, JFloat g => SFeqb f g
      | _, _ => false
      end
  | _, _ => false
  end.

Fixpoint dict_lookup (d : list (json * json)) (k : json) : option json :=
  match d with
  | [] => None
  | (k', v) :: d' => if key_eqb k' k then Some v else dict_lookup d' k
  end.

Fixpoint dict_remove (d : list (json * json)) (k : json) : list (json * json) :=
  match d with
  | [] => []
  | (k', v) :: d' => if key_eqb k' k then d' else (k', v) :: dict_remove d' k
  end.

(** [d[k] = v] for a hashable [k]: an existing key keeps its place. *)
Fixpoint dict_store (d : list (json * json)) (k v : json) : list (json * json) :=
  match d with
  | [] => [(k, v)]
  | (k', v') :: d' =>
      if key_eqb k' k then (k', v) :: d' else (k', v') :: dict_store d' k v
  end.

Definition dict_setitem (d : list (json * json)) (k v : json)
  : result (list (json * json)) :=
  if hashable k then Ok (dict_store d k v) else Raise TypeError.

(** [x.pop(0)]: the value popped and what is left of [x]. *)
Definition pop0 (x : json) : result (json * json) :=
  match x with
  | JList [] => Raise IndexError
  | JList (v :: l) => Ok (v, JList l)
  | JDict d =>
      match dict_lookup d (JInt 0) with
      | Some v => Ok (v, JDict (dict_remove d (JInt 0)))
      | None => Raise KeyError
      end
  | _ => Raise AttributeError
  end.

Fixpoint chars (s : string) : list json :=
  match s with
  | EmptyString => []
  | String c s' => JStr (String c EmptyString) :: chars s'
  end.

(** What [for x in v] runs through. *)
Definition py_iter (v : json) : result (list json) :=
  match v with
  | JList l => Ok l
  | JStr s => Ok (chars s)
  | JDict d => Ok (d.*1)
  | _ => Raise TypeError
  end.

(** [int(v)] *)
Definition py_int `{Library} (v : json) : result Z :=
  match v with
  | JInt z => Ok z
  | JBool b => Ok (Z.b2z b)
  | JFloat f => float_trunc f
  | JStr s =>
      match int_of_str s with
      | Some z => Ok z
      | None => Raise (ValueError "invalid literal for int() with base 10: ")
      end
  | _ => Raise TypeError
  end.

(** ** Strings *)

(** The line boundaries of [str.splitlines] among the code points below
    256 (a [string] holds one code point per character). *)
Definition is_linebreak (c : ascii) : bool :=
  bool_decide (nat_of_ascii c ∈ [10; 11; 12; 13; 28; 29; 30; 133]%nat).

Fixpoint splitlines_from (cur : string) (s : string) : list string :=
  match s with
  | EmptyString => if String.eqb cur "" then [] else [cur]
  | String c rest =>
      if is_linebreak c then
        cur :: splitlines_from ""
                 (match rest with
                  | String c' rest' =>
                      if (nat_of_ascii c =? 13)%nat && (nat_of_ascii c' =? 10)%nat
                      then rest' else rest
                  | EmptyString => rest
                  end)
      else splitlines_from (cur +:+ String c EmptyString) rest
  end.

Definition splitlines (s : string) : list string := splitlines_from "" s.

(** ** The response normalizer *)

Definition loads `{Library} (s : string) : result json :=
  match json_loads s with
  | Some v => Ok v
  | None => Raise JSONDecodeError
  end.

Definition cannot_decode : exn :=
  ValueError "cannot decode response, first bytes are".

(** [obj = {}; for f in fields: obj[f] = l.pop(0)] *)
Fixpoint zip_row (fields : list json) (obj : list (json * json)) (l : json)
  : result json :=
  match fields with
  | [] => Ok (JDict obj)
  | f :: fields' =>
      '(v, l') ← pop0 l;
      obj' ← dict_setitem obj f v;
      zip_row fields' obj' l'
  end.

Definition row_to_obj (fields : json) (l : json) : result json :=
  fs ← py_iter fields;
  zip_row fs [] l.

Definition cdx_to_json `{Library} (resp : response) : result (list json) :=
  if status_code resp =? 404 then Ok []
  else
    let text := text resp in
    if String.prefix "{" text then mapM loads (splitlines text)
    else if negb (String.prefix "[" text) then Raise cannot_decode
    else
      '(fields, lines) ←
        match (lines ← loads text; pop0 lines) with
        | Raise JSONDecodeError | Raise KeyError => Raise cannot_decode
        | r => r
        end;
      rows ← py_iter lines;
      mapM (row_to_obj fields) rows.

(** ** Page counts *)

Definition showNumPages `{Library} (r : response) : result Z :=
  j ← loads (text r);
  match j with
  | JDict d => py_int (default (JInt 0) (dict_lookup d (JStr "blocks")))
  | JInt z => Ok z
  | JBool b => Ok (Z.b2z b)
  | _ => Raise (ValueError "surprised by showNumPages value of ")
  end.

(** ** Parameter dictionaries *)

(** [v -= n] and [v <= 0] on a parameter value; a string supports
    neither. *)
Definition isub (v : pyval) (n : nat) : result pyval :=
  match v with
  | VInt z => Ok (VInt (z - Z.of_nat n))
  | VStr _ => Raise TypeError
  end.

Definition le_zero (v : pyval) : result bool :=
  match v with
  | VInt z => Ok (z <=? 0)
  | VStr _ => Raise TypeError
  end.

(** [params.get('limit', -1) == 0] *)
Definition limit_is_zero (d : gmap string pyval) : bool :=
  match d !! "limit" with
  | Some (VInt 0) => true
  | _ => false
  end.

Definition deref (l : nat) : M world (gmap string pyval) :=
  fun w => Some (Ok (default ∅ (heap w !! l)), w).

Definition store (l : nat) (d : gmap string pyval) : M world unit :=
  fun w => Some (Ok tt, World (clock w) (slept w) (<[l := d]> (heap w))).

Definition alloc (d : gmap string pyval) : M world nat :=
  fun w => let l := fresh (dom (heap w)) in
           Some (Ok l, World (clock w) (slept w) (<[l := d]> (heap w))).

(** ** CDXFetcher *)

Record CDXFetcher := { index_list : list string }.

(** The loop of [CDXFetcher.get] over the endpoints still to query. *)
Fixpoint get_loop `{Library} (fuel : nat) (endpoints : list string)
    (params : gmap string pyval) (ret : list json) : M world (list json) :=
  match endpoints with
  | [] => mret ret
  | endpoint :: endpoints' =>
      resp ← myrequests_get fuel endpoint (Some params);
      objs ← lift_result (cdx_to_json resp);
      let ret := ret ++ objs in
      match params !! "limit" with
      | Some v =>
          v' ← lift_result (isub v (length objs));
          stop ← lift_result (le_zero v');
          if (stop : bool) then mret ret
          else get_loop fuel endpoints' (<["limit" := v']> params) ret
      | None => get_loop fuel endpoints' params ret
      end
  end.

Definition get `{Library} (fuel : nat) (self : CDXFetcher) (url : string)
    (kwargs : gmap string pyval) : M world (list json) :=
  let params := <["output" := VStr "json"]> (<["url" := VStr url]> kwargs) in
  let params :=
    if bool_decide (params !! "limit" = None)
    then <["limit" := VInt 10000]> params else params in
  get_loop fuel (index_list self) params [].

Inductive iter_status :=
| last_endpoint
| last_page
| ok.

Definition get_for_iter `{Library} (fuel : nat) (self : CDXFetcher)
    (endpoint : nat) (page : Z) (params : nat)
  : M world (iter_status * list json) :=
  if (length (index_list self) <=? endpoint)%nat then mret (last_endpoint, [])
  else
    d ← deref params;
    if limit_is_zero d then mret (last_endpoint, [])
    else
      match index_list self !! endpoint with
      | None => raise IndexError
      | Some url =>
          let d := <["page" := VInt page]> d in
          store params d;;
          resp ← myrequests_get fuel url (Some d);
          if status_code resp =? 400 then mret (last_page, [])
          else
            ret ← lift_result (cdx_to_json resp);
            match d !! "limit" with
            | Some v =>
                v' ← lift_result (isub v (length ret));
                store params (<["limit" := v']> d)
            | None => mret tt
            end;;
            mret (ok, ret)
      end.

Fixpoint get_size_estimate_loop `{Library} (fuel : nat) (endpoints : list string)
    (params : gmap string pyval) (pages : Z) : M world Z :=
  match endpoints with
  | [] => mret pages
  | endpoint :: endpoints' =>
      resp ← myrequests_get fuel endpoint (Some params);
      if status_code resp =? 200 then
        n ← lift_result (showNumPages resp);
        get_size_estimate_loop fuel endpoints' params (pages + n)
      else get_size_estimate_loop fuel endpoints' params pages
  end.

Definition get_size_estimate `{Library} (fuel : nat) (self : CDXFetcher)
    (url : string) (as_pages : bool) (kwargs : gmap string pyval) : M world Z :=
  let params :=
    kwargs ∪ <["showNumPages" := VStr "true"]> {["url" := VStr url]} in
  pages ← get_size_estimate_loop fuel (index_list self) params 0;
  if as_pages then mret pages else lift_result (pages_to_samples pages).

(** ** CDXFetcherIter *)

(** [visited] is a history field: it lists, in order, every page whose
    records were appended to [cdx_objs], as (endpoint index, page number,
    records).  No operation reads it. *)
Record CDXFetcherIter := Iter {
  cdxfetcher : CDXFetcher;
  params : nat;
  endpoint : nat;
  page : Z;
  cdx_objs : list json;
  visited : list (nat * Z * list json)
}.

Definition on_world {A} (m : M world A) : M (CDXFetcherIter * world) A :=
  fun s =>
    match m s.2 with
    | Some (r, w') => Some (r, (s.1, w'))
    | None => None
    end.

Definition self_get : M (CDXFetcherIter * world) CDXFetcherIter :=
  fun s => Some (Ok s.1, s).

Definition self_set (it : CDXFetcherIter) : M (CDXFetcherIter * world) unit :=
  fun s => Some (Ok tt, (it, s.2)).

(** Run a method on a new object and hand the object back. *)
Definition with_self (self : CDXFetcherIter) (m : M (CDXFetcherIter * world) unit)
  : M world CDXFetcherIter :=
  fun w =>
    match m (self, w) with
    | Some (Ok _, (self', w')) => Some (Ok self', w')
    | Some (Raise e, (_, w')) => Some (Raise e, w')
    | None => None
    end.

Fixpoint get_more `{Library} (fuel : nat) : M (CDXFetcherIter * world) unit :=
  match fuel with
  | O => diverge
  | S fuel' =>
      self ← self_get;
      let self := Iter (cdxfetcher self) (params self) (endpoint self)
                       (page self + 1) (cdx_objs self) (visited self) in
      self_set self;;
      '(status, objs) ← on_world (get_for_iter fuel' (cdxfetcher self)
                                    (endpoint self) (page self) (params self));
      match status with
      | last_endpoint => mret tt
      | last_page =>
          self_set (Iter (cdxfetcher self) (params self) (S (endpoint self))
                         (-1) (cdx_objs self) (visited self));;
          get_more fuel'
      | ok =>
          self_set (Iter (cdxfetcher self) (params self) (endpoint self)
                         (page self) (cdx_objs self ++ objs)
                         (visited self ++ [(endpoint self, page self, objs)]));;
          get_more fuel'
      end
  end.

(** The dictionary that [def __init__(self, cdxfetcher, params={})]
    creates once, when the class body is evaluated, and hands to every
    call that omits [params]. *)
Definition default_params : nat := 0%nat.

Definition initial_heap : gmap nat (gmap string pyval) := {[default_params := ∅]}.

Definition CDXFetcherIter_init `{Library} (fuel : nat) (cdxfetcher : CDXFetcher)
    (params : option nat) : M world CDXFetcherIter :=
  let params := default default_params params in
  d ← deref params;
  if bool_decide (is_Some (d !! "page"))
  then raise (ValueError "must not set page= in a CDX iterator")
  else
    store params (<["page" := VInt (-1)]> d);;
    with_self (Iter cdxfetcher params 0 (-1) [] []) (get_more fuel).

Fixpoint next `{Library} (fuel : nat) : M (CDXFetcherIter * world) json :=
  match fuel with
  | O => diverge
  | S fuel' =>
      self ← self_get;
      match cdx_objs self with
      | x :: objs =>
          self_set (Iter (cdxfetcher self) (params self) (endpoint self)
                         (page self) objs (visited self));;
          mret x
      | [] =>
          get_more fuel';;
          self ← self_get;
          if (length (cdx_objs self) <=? 0)%nat then raise StopIteration
          else next fuel'
      end
  end.

Definition items `{Library} (fuel : nat) (self : CDXFetcher) (url : string)
    (kwargs : gmap string pyval) : M world CDXFetcherIter :=
  params ← alloc (<["output" := VStr "json"]> (<["url" := VStr url]> kwargs));
  CDXFetcherIter_init fuel self (Some params).

(** A consumer that asks for up to [n] records, as
    [itertools.islice(it, n)] does, and stops at StopIteration. *)
Fixpoint take_records `{Library} (fuel : nat) (n : nat)
  : M (CDXFetcherIter * world) (list json) :=
  match n with
  | O => mret []
  | S n' =>
      r ← try_except (x ← next fuel; mret (Some x))
            (fun e => match e with StopIteration => mret None | _ => raise e end);
      match r with
      | Some x => xs ← take_records fuel n'; mret (x :: xs)
      | None => mret []
      end
  end.

(** ** A decoder for the examples

    The theorems below hold for every [Library].  The examples run the
    code on actual bodies; for them, [json_decode] reads the JSON texts
    made of objects, arrays, strings without escapes, integers, [true],
    [false] and [null], on which it returns what [json.loads] returns. *)

Definition is_ws (c : ascii) : bool :=
  bool_decide (nat_of_ascii c ∈ [32; 9; 10; 13]%nat).

Definition is_digit (c : ascii) : bool :=
  (48 <=? nat_of_ascii c)%nat && (nat_of_ascii c <=? 57)%nat.

Definition is_quote (c : ascii) : bool := (nat_of_ascii c =? 34)%nat.

Fixpoint skip_ws (s : string) : string :=
  match s with
  | String c r => if is_ws c then skip_ws r else s
  | EmptyString => s
  end.

(** The characters up to the closing quote, and what follows it. *)
Fixpoint scan_string (acc : string) (s : string) : option (string * string) :=
  match s with
  | EmptyString => None
  | String c r =>
      if is_quote c then Some (acc, r)
      else if (nat_of_ascii c =? 92)%nat || (nat_of_ascii c <? 32)%nat then None
      else scan_string (acc +:+ String c EmptyString) r
  end.

Fixpoint scan_digits (acc : Z) (s : string) : Z * string :=
  match s with
  | String c r =>
      if is_digit c
      then scan_digits (10 * acc + Z.of_nat (nat_of_ascii c - 48)) r
      else (acc, s)
  | EmptyString => (acc, s)
  end.

(** An integer without leading zeros, not followed by a fraction or an
    exponent. *)
Definition scan_int (s : string) : option (Z * string) :=
  let '(negative, s) :=
    match s with
    | String "-" r => (true, r)
    | _ => (false, s)
    end in
  match s with
  | String c r =>
      if is_digit c then
        let '(n, rest) :=
          if (nat_of_ascii c =? 48)%nat then (0, r) else scan_digits 0 s in
        match rest with
        | String c' _ =>
            if is_digit c' || bool_decide (c' ∈ ["."; "e"; "E"]%char) then None
            else Some (if negative then - n else n, rest)
        | EmptyString => Some (if negative then - n else n, rest)
        end
      else None
  | EmptyString => None
  end.

Definition expect (word : string) (v : json) (s : string) : option (json * string) :=
  if String.prefix word s
  then Some (v, substring (String.length word) (String.length s) s)
  else None.

Fixpoint decode_value (fuel : nat) (s : string) : option (json * string) :=
  match fuel with
  | O => None
  | S fuel' =>
      match skip_ws s with
      | String "{" r =>
          match skip_ws r with
          | String "}" r' => Some (JDict [], r')
          | _ => decode_members fuel' [] r
          end
      | String "[" r =>
          match skip_ws r with
          | String "]" r' => Some (JList [], r')
          | _ => decode_elements fuel' [] r
          end
      | String "t" _ as s' => expect "true" (JBool true) s'
      | String "f" _ as s' => expect "false" (JBool false) s'
      | String "n" _ as s' => expect "null" JNull s'
      | String c r as s' =>
          if is_quote c then
            '(str, rest) ← scan_string "" r; Some (JStr str, rest)
          else
            '(n, rest) ← scan_int s'; Some (JInt n, rest)
      | EmptyString => None
      end
  end
with decode_elements (fuel : nat) (acc : list json) (s : string)
  : option (json * string) :=
  match fuel with
  | O => None
  | S fuel' =>
      '(v, rest) ← decode_value fuel' s;
      match skip_ws rest with
      | String "," r => decode_elements fuel' (acc ++ [v]) r
      | String "]" r => Some (JList (acc ++ [v]), r)
      | _ => None
      end
  end
with decode_members (fuel : nat) (acc : list (json * json)) (s : string)
  : option (json * string) :=
  match fuel with
  | O => None
  | S fuel' =>
      match skip_ws s with
      | String c r =>
          if is_quote c then
            '(key, rest) ← scan_string "" r;
            match skip_ws rest with
            | String ":" r' =>
                '(v, rest') ← decode_value fuel' r';
                match skip_ws rest' with
                | String "," r'' =>
                    decode_members fuel' (dict_store acc (JStr key) v) r''
                | String "}" r'' => Some (JDict (dict_store acc (JStr key) v), r'')
                | _ => None
                end
            | _ => None
            end
          else None
      | EmptyString => None
      end
  end.

Definition json_decode (s : string) : option json :=
  '(v, rest) ← decode_value (S (String.length s)) s;
  if String.eqb (skip_ws rest) "" then Some v else None.

(** Decimal literals with an optional sign. *)
Definition int_decode (s : string) : option Z :=
  '(n, rest) ← scan_int s;
  if String.eqb rest "" then Some n else None.

(** Example texts are written with single quotes in place of the
    double quotes of JSON. *)
Fixpoint jq (s : string) : string :=
  match s with
  | EmptyString => EmptyString
  | String c r =>
      String (if (nat_of_ascii c =? 39)%nat then ascii_of_nat 34 else c) (jq r)
  end.

Definition example_library
    (net : nat -> string -> option (gmap string pyval) -> result response)
  : Library :=
  {| json_loads := json_decode; int_of_str := int_decode; requests_get := net |}.


(** ** One trip round the retry loop

    [classify] says what one iteration of the loop of [myrequests_get]
    does with an answer of [requests.get]; [myrequests_get_step] proves
    that the loop follows it. *)

Definition tick (w : world) : world := World (S (clock w)) (slept w) (heap w).
Definition tick_sleep (w : world) : world :=
  World (S (clock w)) (slept w + 1) (heap w).

(** One trip round the loop, by the answer of [requests.get]. *)
Inductive trip := Returns (resp : response) | Fails (e : exn) | Retries.

Definition classify (params : option (gmap string pyval)) (out : result response)
  : trip :=
  match out with
  | Raise ConnectionError => Retries
  | Raise e => Fails e
  | Ok resp =>
      if status_code resp =? 400 then
        match params with
        | None => Fails TypeError
        | Some d =>
            if bool_decide (d !! "page" = None)
            then Fails (RuntimeError "invalid url of some sort: ")
            else Returns resp
        end
      else if status_code resp =? 404 then Returns resp
      else if bool_decide (status_code resp ∈ [503; 502; 504]) then Retries
      else if (400 <=? status_code resp) && (status_code resp <? 600)
      then Fails (RequestException (HTTPError (status_code resp)))
      else Returns resp
  end.

(** ** Example worlds and networks *)

(** A new interpreter: no request sent yet, and the default dictionary
    of [CDXFetcherIter.__init__] still empty. *)
Definition world0 : world := World 0 0 initial_heap.

(** A network that gives every request the same answer. *)
Definition constant_net (out : result response)
  : nat -> string -> option (gmap string pyval) -> result response :=
  fun _ _ _ => out.

Definition cc_endpoint : string :=
  "http://index.commoncrawl.org/CC-MAIN-2018-05-index".

(** A library without a network, for running the pure functions. *)
Definition offline : Library :=
  example_library (constant_net (Raise (RequestException ReqConnectionError))).

Definition nl : string := String (ascii_of_nat 10) EmptyString.

(** [dict(zip(fields, row))]: what the inner loop of [cdx_to_json] builds
    from a header and a row that is long enough. *)
Definition dict_of_pairs (kvs : list (json * json)) : list (json * json) :=
  fold_left (fun d kv => dict_store d kv.1 kv.2) kvs [].

Definition ndjson_example : string :=
  jq "{'url': 'a', 'timestamp': 1}" +:+ nl +:+
  jq "{'url': 'b', 'timestamp': 2}" +:+ nl +:+
  jq "{'url': 'c', 'timestamp': 3}" +:+ nl.

Definition array_example : string :=
  jq "[['url','timestamp'],['a',1],['b',2]]".

(** ** Runs of the size estimate

    [fetches fuel params endpoints w rs w'] says that the fetches of a
    loop over [endpoints], started in [w], all return a response: [rs]
    lists the responses and [w'] is the world after the last one. *)
Inductive fetches `{Library} (fuel : nat) (params : gmap string pyval)
  : list string -> world -> list response -> world -> Prop :=
| fetches_nil w : fetches fuel params [] w [] w
| fetches_cons endpoint endpoints w resp w1 rs w' :
    myrequests_get fuel endpoint (Some params) w = Some (Ok resp, w1) ->
    fetches fuel params endpoints w1 rs w' ->
    fetches fuel params (endpoint :: endpoints) w (resp :: rs) w'.

Definition sum_Z (l : list Z) : Z := foldr Z.add 0 l.

(** Three endpoints: a pywb index with three blocks, an index without
    captures, and a Wayback index with five pages. *)
Definition estimate_net
  : nat -> string -> option (gmap string pyval) -> result response :=
  fun _ url _ =>
    if String.eqb url "http://pywb" then
      Ok (Response 200 (jq "{'pages': 2, 'blocks': 3}"))
    else if String.eqb url "http://empty" then
      Ok (Response 404 (jq "{'error': 'No Captures found'}"))
    else Ok (Response 200 "5").

Definition estimate_fetcher : CDXFetcher :=
  {| index_list := ["http://pywb"; "http://empty"; "http://ia"] |}.

(** The same pywb index, and any other endpoint out of order. *)
Definition outage_net
  : nat -> string -> option (gmap string pyval) -> result response :=
  fun _ url _ =>
    if String.eqb url "http://pywb" then
      Ok (Response 200 (jq "{'pages': 2, 'blocks': 3}"))
    else Ok (Response 500 "Internal Server Error").

Definition outage_fetcher : CDXFetcher :=
  {| index_list := ["http://pywb"; "http://down"; "http://ia"] |}.

(** ** Reading the iterator's state *)

(** The dictionary at a location, as [deref] reads it. *)
Definition params_of (l : nat) (w : world) : gmap string pyval :=
  default ∅ (heap w !! l).

Definition set_heap (w : world) (l : nat) (d : gmap string pyval) : world :=
  World (clock w) (slept w) (<[l := d]> (heap w)).

(** The outcome on which [get_for_iter] answers without fetching. *)
Definition terminal (self : CDXFetcher) (endpoint : nat) (d : gmap string pyval)
  : Prop :=
  (length (index_list self) <= endpoint)%nat \/ limit_is_zero d = true.

Definition turn_page (self : CDXFetcherIter) : CDXFetcherIter :=
  Iter (cdxfetcher self) (params self) (endpoint self) (page self + 1)
       (cdx_objs self) (visited self).

Definition next_endpoint (self : CDXFetcherIter) : CDXFetcherIter :=
  Iter (cdxfetcher self) (params self) (S (endpoint self)) (-1)
       (cdx_objs self) (visited self).

Definition extend (self : CDXFetcherIter) (objs : list json) : CDXFetcherIter :=
  Iter (cdxfetcher self) (params self) (endpoint self) (page self)
       (cdx_objs self ++ objs)
       (visited self ++ [(endpoint self, page self, objs)]).

Definition pop (self : CDXFetcherIter) (objs : list json) : CDXFetcherIter :=
  Iter (cdxfetcher self) (params self) (endpoint self) (page self) objs
       (visited self).

(** ** What one call of [get_for_iter] does

    [get_for_iter_spec self endpoint page l w r w'] lists the ways in
    which [get_for_iter] can end with result [r] in world [w'];
    [get_for_iter_outcome] proves that there is no other. *)
Inductive get_for_iter_spec `{Library} (self : CDXFetcher) (endpoint : nat)
    (page : Z) (l : nat) (w : world)
  : result (iter_status * list json) -> world -> Prop :=
| spec_last_endpoint :
    terminal self endpoint (params_of l w) ->
    get_for_iter_spec self endpoint page l w (Ok (last_endpoint, [])) w
| spec_last_page url n resp w1 :
    ~ terminal self endpoint (params_of l w) ->
    index_list self !! endpoint = Some url ->
    requests_get n url (Some (<["page" := VInt page]> (params_of l w))) = Ok resp ->
    (clock w <= n)%nat -> clock w1 = S n ->
    status_code resp = 400 ->
    heap w1 = <[l := <["page" := VInt page]> (params_of l w)]> (heap w) ->
    get_for_iter_spec self endpoint page l w (Ok (last_page, [])) w1
| spec_ok url n resp w1 ret d' :
    ~ terminal self endpoint (params_of l w) ->
    index_list self !! endpoint = Some url ->
    requests_get n url (Some (<["page" := VInt page]> (params_of l w))) = Ok resp ->
    (clock w <= n)%nat -> clock w1 = S n ->
    status_code resp <> 400 ->
    cdx_to_json resp = Ok ret ->
    match <["page" := VInt page]> (params_of l w) !! "limit" with
    | None => d' = <["page" := VInt page]> (params_of l w)
    | Some v =>
        exists v', isub v (length ret) = Ok v' /\
                   d' = <["limit" := v']> (<["page" := VInt page]> (params_of l w))
    end ->
    heap w1 = <[l := d']> (heap w) ->
    get_for_iter_spec self endpoint page l w (Ok (ok, ret)) w1
| spec_raise e w1 :
    ~ terminal self endpoint (params_of l w) ->
    (clock w < clock w1)%nat ->
    heap w1 = <[l := <["page" := VInt page]> (params_of l w)]> (heap w) ->
    get_for_iter_spec self endpoint page l w (Raise e) w1.

(** ** An archive for the examples

    Two endpoints.  The first has two pages, of two records and of one;
    the second has one page of three records.  A page past the last is
    answered with status 400. *)
Definition page_param (params : option (gmap string pyval)) : Z :=
  match params ≫= (.!! "page") with
  | Some (VInt p) => p
  | _ => 0
  end.

Definition archive_net
  : nat -> string -> option (gmap string pyval) -> result response :=
  fun _ url params =>
    let page := page_param params in
    if String.eqb url "http://a" then
      if page =? 0 then
        Ok (Response 200 (jq "{'url': 'a0'}" +:+ nl +:+ jq "{'url': 'a1'}" +:+ nl))
      else if page =? 1 then Ok (Response 200 (jq "{'url': 'a2'}" +:+ nl))
      else Ok (Response 400 "<html>page too big</html>")
    else if String.eqb url "http://b" then
      if page =? 0 then
        Ok (Response 200 (jq "{'url': 'b0'}" +:+ nl +:+ jq "{'url': 'b1'}" +:+ nl
                          +:+ jq "{'url': 'b2'}" +:+ nl))
      else Ok (Response 400 "<html>page too big</html>")
    else Ok (Response 404 (jq "{'error': 'No Captures found'}")).

Definition archive : Library := example_library archive_net.

Definition archive_fetcher : CDXFetcher :=
  {| index_list := ["http://a"; "http://b"] |}.

Definition rec (name : string) : json := JDict [(JStr "url", JStr name)].

(** A world whose dictionary at location 1 holds the given limit. *)
Definition world_with_limit (limit : Z) : world :=
  World 0 0 (<[1%nat := {["limit" := VInt limit]}]> initial_heap).

(** No operation of the module removes a key from a dictionary:
    [keys_kept w w'] says that every key present in [w] is present in
    [w']. *)
Definition keys_kept (w w' : world) : Prop :=
  forall l k, is_Some (params_of l w !! k) -> is_Some (params_of l w' !! k).

Definition reserved_page : exn :=
  ValueError "must not set page= in a CDX iterator".

(** ** Order of the iteration

    The cursor of the iterator is the pair of its endpoint index and its
    page number, ordered lexicographically. *)
Definition cursor_lt (a b : nat * Z) : Prop :=
  (a.1 < b.1)%nat \/ (a.1 = b.1 /\ a.2 < b.2).

Definition cursor_le (a b : nat * Z) : Prop :=
  (a.1 < b.1)%nat \/ (a.1 = b.1 /\ a.2 <= b.2).

(** The records of the visited pages, in the order of the visits. *)
Definition records_of (vs : list (nat * Z * list json)) : list json :=
  concat (snd <$> vs).

(** An entry of the history is a page that the network served: its
    records are those of a response, other than a 400, to a request
    sent to the endpoint at that index of the list for that page. *)
Definition served `{Library} (f : CDXFetcher) (v : nat * Z * list json) : Prop :=
  exists url n d resp,
    index_list f !! v.1.1 = Some url /\
    d !! "page" = Some (VInt v.1.2) /\
    requests_get n url (Some d) = Ok resp /\
    status_code resp <> 400 /\
    cdx_to_json resp = Ok v.2.

(** What holds of the iterator of fetcher [f] once it has delivered the
    records [delivered]. *)
Definition in_order `{Library} (f : CDXFetcher) (delivered : list json)
    (self : CDXFetcherIter) : Prop :=
  cdxfetcher self = f /\
  -1 <= page self /\
  StronglySorted cursor_lt (fst <$> visited self) /\
  Forall (fun v => cursor_le v.1 (endpoint self, page self)) (visited self) /\
  Forall (served f) (visited self) /\
  delivered ++ cdx_objs self = records_of (visited self).

(** ** Servers that honour the limit

    The limit travels to the server as a query parameter.  A server
    honours it when no response carries more records than the limit of
    its request. *)
Definition honours_limit `{Library} : Prop :=
  forall n url (d : gmap string pyval) resp objs limit,
    requests_get n url (Some d) = Ok resp ->
    cdx_to_json resp = Ok objs ->
    d !! "limit" = Some (VInt limit) -> 0 <= limit ->
    Z.of_nat (length objs) <= limit.

(** The budget of an iterator whose dictionary is at [l]: the limit
    left is not negative, and with the records fetched so far it makes
    up the limit [L] of the request. *)
Definition within_budget (L : Z) (l : nat) (self : CDXFetcherIter) (w : world)
  : Prop :=
  params self = l /\
  exists limit,
    params_of l w !! "limit" = Some (VInt limit) /\ 0 <= limit /\
    Z.of_nat (length (records_of (visited self))) + limit = L.

(** A server with two records to give on every page, which gives no
    more than the limit asks for. *)
Definition polite_net
  : nat -> string -> option (gmap string pyval) -> result response :=
  fun _ _ params =>
    match params ≫= (.!! "limit") with
    | Some (VInt limit) =>
        if 2 <=? limit then
          Ok (Response 200 (jq "{'url': 'p0'}" +:+ nl +:+ jq "{'url': 'p1'}" +:+ nl))
        else if 1 <=? limit then Ok (Response 200 (jq "{'url': 'p0'}" +:+ nl))
        else Ok (Response 404 (jq "{'error': 'No Captures found'}"))
    | _ =>
        Ok (Response 200 (jq "{'url': 'p0'}" +:+ nl +:+ jq "{'url': 'p1'}" +:+ nl))
    end.

Definition polite : Library := example_library polite_net.

(** ** The same computation in the Standard Library's binary64

    [SpecFloat] specifies IEEE 754 arithmetic on a mantissa and an
    exponent.  [pages_to_samples_SF] is the branch [pages > 1] of
    [pages_to_samples] written with its operations, to compare the two. *)
Definition SF_of_int (z : Z) : spec_float := binary_normalize 53 1024 z 0 false.

Definition pages_to_samples_SF (pages : Z) : result Z :=
  float_trunc
    (SFmul 53 1024 (SFsub 53 1024 (SF_of_int pages) (SF_of_int 1))
       (SF_of_int lines_per_page)).

Definition large_page_counts : list Z :=
  [2; 5; 1000; 3002399751580330; 3002399751580331; 3002399751580332;
   9007199254740993; 9007199254740994; 9007199254740995; 9007199254740996;
   9007199254740997; 18014398509481985; 18014398509481986; 18014398509481987;
   2 ^ 60 + 123456789; 2 ^ 100 + 2 ^ 47; 2 ^ 100 + 2 ^ 47 + 1; 3 * 2 ^ 200 + 1;
   2 ^ 1023; 2 ^ 1024 - 2 ^ 970 - 1].

(** ** Transient answers

    The answers of [requests.get] after which [myrequests_get] sleeps
    one second and asks again: the builtin [ConnectionError], and the
    statuses 502, 503 and 504. *)
Definition transient (out : result response) : bool :=
  match out with
  | Raise ConnectionError => true
  | Ok resp => bool_decide (status_code resp ∈ [503; 502; 504])
  | Raise _ => false
  end.

(** The world after [k] more requests and [s] more seconds of sleep. *)
Definition later (w : world) (k : nat) (s : Z) : world :=
  World (clock w + k) (slept w + s) (heap w).

(** A network whose first [k] answers are 503 and whose later answers
    are a page of one record. *)
Definition flaky_net (k : nat)
  : nat -> string -> option (gmap string pyval) -> result response :=
  fun n _ _ =>
    if (n <? k)%nat then Ok (Response 503 "Service Unavailable")
    else Ok (Response 200 (jq "{'url': 'a0'}" +:+ nl)).

(** ** Bodies of newline-terminated lines *)

(** Each line followed by a newline. *)
Fixpoint unlines (ls : list string) : string :=
  match ls with
  | [] => ""
  | l :: ls' => l +:+ nl +:+ unlines ls'
  end.

Fixpoint no_linebreak (s : string) : bool :=
  match s with
  | EmptyString => true
  | String c s' => negb (is_linebreak c) && no_linebreak s'
  end.

(** ** Endpoints without captures

    An index answers 404 when it has no capture of the URL asked for.
    [no_captures url] says that the endpoint [url] does so on every
    request. *)
Definition no_captures `{Library} (url : string) : Prop :=
  forall n ps, exists resp,
    requests_get n url ps = Ok resp /\ status_code resp = 404.

(** A limit that does not stop the iteration: none, or an integer
    other than zero. *)
Definition limit_open (d : gmap string pyval) : Prop :=
  d !! "limit" = None \/ exists z, d !! "limit" = Some (VInt z) /\ z <> 0.

Definition no_captures_net
  : nat -> string -> option (gmap string pyval) -> result response :=
  constant_net (Ok (Response 404 (jq "{'error': 'No Captures found'}"))).

(** ** The list of Common Crawl indices

    What [get_cc_endpoints] takes from the interpreter besides the
    [Library]: the order of [sorted] on a list that holds a value other
    than a string, the clock, and the calendar of [datetime]. *)
Class Runtime := {
  (* sorted(l, reverse=True), for an [l] not made of strings only *)
  sorted_reverse_mixed : list json -> result (list json);
  (* (datetime.datetime.fromtimestamp(time.time())
       - datetime.timedelta(days=days)).strftime('%Y%m%d'),
     once [n] requests have been sent *)
  startdate_of : nat -> Z -> result string;
  (* datetime.datetime.strptime(s, '%Y-%W-%w').strftime('%Y%m%d') *)
  thisdate_of : string -> result string
}.

Definition collinfo : string := "http://index.commoncrawl.org/collinfo.json".

(** [x[k]] for a key [k] that is a string *)
Definition getitem (x : json) (k : string) : result json :=
  match x with
  | JDict d =>
      match dict_lookup d (JStr k) with
      | Some v => Ok v
      | None => Raise KeyError
      end
  | _ => Raise TypeError
  end.

Definition as_str (v : json) : option string :=
  match v with
  | JStr s => Some s
  | _ => None
  end.

(** The order of strings, by code point. *)
Definition str_ge (a b : string) : Prop := String.leb b a = true.

#[global] Instance str_ge_dec : RelDecision str_ge :=
  fun a b => decide (String.leb b a = true).

(** [sorted(l, reverse=True)]: strings come out the greatest first. *)
Definition sorted_reverse `{Runtime} (l : list json) : result (list json) :=
  match mapM as_str l with
  | Some ss => Ok (JStr <$> merge_sort str_ge ss)
  | None => sorted_reverse_mixed l
  end.

(** [''.join(l)] *)
Definition join_empty (l : list json) : result string :=
  match mapM as_str l with
  | Some ss => Ok (foldr String.append "" ss)
  | None => Raise TypeError
  end.

(** [s.endswith('d')] and [s[:-1]]: the string without its last
    character, and that character. *)
Fixpoint split_last (s : string) : option (string * ascii) :=
  match s with
  | EmptyString => None
  | String c EmptyString => Some (EmptyString, c)
  | String c s' =>
      match split_last s' with
      | Some (init, last) => Some (String c init, last)
      | None => None
      end
  end.

(** The characters that [str.isdigit] accepts among the code points
    below 256: the decimal digits and the superscripts two, three and
    one. *)
Definition isdigit_char (c : ascii) : bool :=
  is_digit c || bool_decide (nat_of_ascii c ∈ [178; 179; 185]%nat).

Fixpoint all_chars (p : ascii -> bool) (s : string) : bool :=
  match s with
  | EmptyString => true
  | String c s' => p c && all_chars p s'
  end.

Definition isdigit (s : string) : bool :=
  negb (String.eqb s "") && all_chars isdigit_char s.

(** [cc_duration.endswith('d') and cc_duration[:-1].isdigit()], with
    the digits when it holds. *)
Definition duration_digits (cc_duration : string) : option string :=
  match split_last cc_duration with
  | Some (digits, last) =>
      if Ascii.eqb last "d" && isdigit digits then Some digits else None
  | None => None
  end.

(** A crawl identifier as the pattern [\d\d\d\d-\d\d] reads it. *)
Definition is_crawl_id (s : string) : bool :=
  match s with
  | String a (String b (String c (String d (String e (String f (String g
      EmptyString)))))) =>
      is_digit a && is_digit b && is_digit c && is_digit d &&
      Ascii.eqb e "-" && is_digit f && is_digit g
  | _ => false
  end.

(** A match of [CC-MAIN-(\d\d\d\d-\d\d)] at the start of [s]: its
    group. *)
Definition crawl_id_at (s : string) : option string :=
  if String.prefix "CC-MAIN-" s then
    let id := substring 8 7 s in
    if is_crawl_id id then Some id else None
  else None.

(** [re.findall(r'CC-MAIN-(\d\d\d\d-\d\d)', s)]: the matches from left
    to right, the search going on after the end of each match, which is
    15 characters long. *)
Fixpoint findall_from (skip : nat) (s : string) : list string :=
  match s with
  | EmptyString => []
  | String _ s' =>
      match skip with
      | S skip' => findall_from skip' s'
      | O =>
          match crawl_id_at s with
          | Some id => id :: findall_from 14 s'
          | None => findall_from 0 s'
          end
      end
  end.

Definition findall (s : string) : list string := findall_from 0 s.

(** The loop over the timestamps: those whose date is after the start
    date, in the order of the list. *)
Fixpoint select_recent `{Runtime} (startdate : string) (timestamps : list string)
  : result (list string) :=
  match timestamps with
  | [] => Ok []
  | timestamp :: timestamps' =>
      thisdate ← thisdate_of (timestamp +:+ "-0");
      ret ← select_recent startdate timestamps';
      Ok (if String.ltb startdate thisdate then timestamp :: ret else ret)
  end.

Definition cc_index (id : string) : string :=
  "http://index.commoncrawl.org/CC-MAIN-" +:+ id +:+ "-index".

Definition get_cc_endpoints `{Library} `{Runtime} (fuel : nat)
    (cc_duration cc_sort : string) : M world (list string) :=
  r ← myrequests_get fuel collinfo None;
  if negb (status_code r =? 200) then
    raise (RuntimeError "error getting list of common crawl indices: ")
  else
    j ← lift_result (loads (text r));
    xs ← lift_result (py_iter j);
    endpoints ← lift_result (mapM (fun x => getitem x "cdx-api") xs);
    if (length endpoints <? 30)%nat then
      raise (ValueError "Surprisingly few endoints for common crawl index")
    else
      endpoints ← lift_result (sorted_reverse endpoints);
      match duration_digits cc_duration with
      | Some digits =>
          days ← lift_result (py_int (JStr digits));
          startdate ← (fun w => Some (startdate_of (clock w) days, w));
          joined ← lift_result (join_empty endpoints);
          ret ← lift_result (select_recent startdate (findall joined));
          let ret := cc_index <$> ret in
          mret (if String.eqb cc_sort "mixed" then ret else reverse ret)
      | None => raise (ValueError "unknown cc_duration of %s")
      end.

Definition wayback : string := "https://web.archive.org/cdx/search/cdx".

(** [CDXFetcher.__init__]; the attributes [source], [cc_duration] and
    [cc_sort] that it also sets are read nowhere. *)
Definition CDXFetcher_init `{Library} `{Runtime} (fuel : nat)
    (source cc_duration cc_sort : string) : M world CDXFetcher :=
  if String.eqb source "cc" then
    index_list ← get_cc_endpoints fuel cc_duration cc_sort;
    mret {| index_list := index_list |}
  else if String.eqb source "ia" then mret {| index_list := [wayback] |}
  else if String.prefix "https://" source || String.prefix "http://" source then
    mret {| index_list := [source] |}
  else raise (ValueError "could not understand source").

(** ** A calendar for the examples

    The proleptic Gregorian calendar as [datetime] counts it: day 1 is
    the first of January of year 1, and the last day is the last of year
    9999. *)
Definition is_leap (y : Z) : bool :=
  (y mod 4 =? 0) && (negb (y mod 100 =? 0) || (y mod 400 =? 0)).

Definition days_before_year (y : Z) : Z :=
  (y - 1) * 365 + (y - 1) / 4 - (y - 1) / 100 + (y - 1) / 400.

Definition month_lengths (y : Z) : list Z :=
  [31; if is_leap y then 29 else 28; 31; 30; 31; 30; 31; 31; 30; 31; 30; 31].

Definition max_ordinal : Z := 3652059.

(** The year, and the day of the year counted from 0, of a day. *)
Definition year_of_ordinal (n : Z) : Z * Z :=
  let n := n - 1 in
  let n400 := n / 146097 in
  let n := n mod 146097 in
  let n100 := n / 36524 in
  let n := n mod 36524 in
  let n4 := n / 1461 in
  let n := n mod 1461 in
  let n1 := n / 365 in
  let n := n mod 365 in
  let y := n400 * 400 + n100 * 100 + n4 * 4 + n1 + 1 in
  if (n1 =? 4) || (n100 =? 4) then (y - 1, 365) else (y, n).

Fixpoint month_day (months : list Z) (m : Z) (n : Z) : Z * Z :=
  match months with
  | [] => (m, n + 1)
  | len :: months' =>
      if n <? len then (m, n + 1) else month_day months' (m + 1) (n - len)
  end.

Definition digit_char (n : Z) : ascii := ascii_of_nat (48 + Z.to_nat n).

Fixpoint decimal_go (fuel : nat) (n : Z) (acc : string) : string :=
  match fuel with
  | O => acc
  | S fuel' =>
      let acc := String (digit_char (n mod 10)) acc in
      if n <? 10 then acc else decimal_go fuel' (n / 10) acc
  end.

Definition two_digits (n : Z) : string :=
  String (digit_char (n / 10)) (String (digit_char (n mod 10)) EmptyString).

(** [strftime('%Y%m%d')] as the C library of Linux prints it: the year
    without padding. *)
Definition strftime8 (n : Z) : string :=
  let '(y, yday) := year_of_ordinal n in
  let '(m, d) := month_day (month_lengths y) 1 yday in
  decimal_go 4 y "" +:+ two_digits m +:+ two_digits d.

(** [strptime(s, '%Y-%W-%w')] on a year, a week and the digit 0, then
    [strftime('%Y%m%d')]: the Sunday that ends week [W] of year [Y], the
    weeks starting on Mondays and week 1 with the first Monday. *)
Definition thisdate_example (s : string) : result string :=
  let no_match := Raise (ValueError "time data does not match format") in
  if is_crawl_id (substring 0 7 s) && String.eqb (substring 7 2 s) "-0"
     && (String.length s =? 9)%nat then
    let y := (scan_digits 0 (substring 0 4 s)).1 in
    let week := (scan_digits 0 (substring 5 2 s)).1 in
    if 53 <? week then no_match
    else if y =? 0 then Raise (ValueError "year 0 is out of range")
    else
      let first_weekday := (days_before_year y + 1 + 6) mod 7 in
      let julian :=
        if week =? 0 then 1 + 6 - first_weekday
        else 1 + (7 - first_weekday) mod 7 + 7 * (week - 1) + 6 in
      let n := julian - 1 + (days_before_year y + 1) in
      if max_ordinal <? n then Raise (ValueError "year 10000 is out of range")
      else Ok (strftime8 n)
  else no_match.

Definition ordinal_of (y m d : Z) : Z :=
  days_before_year y + sum_Z (take (Z.to_nat (m - 1)) (month_lengths y)) + d.

(** The start date when today is day [today] of the calendar. *)
Definition startdate_example (today : Z) (days : Z) : result string :=
  if 999999999 <? Z.abs days then Raise OverflowError
  else
    let n := today - days in
    if (n <? 1) || (max_ordinal <? n) then Raise OverflowError
    else Ok (strftime8 n).

(** A runtime whose clock shows the 15th of June 2018; the examples
    sort strings only. *)
Definition example_runtime : Runtime :=
  {| sorted_reverse_mixed := fun _ => Raise TypeError;
     startdate_of := fun _ => startdate_example (ordinal_of 2018 6 15);
     thisdate_of := thisdate_example |}.

(** ** A listing of crawls for the examples *)

Definition crawl_ids : list string :=
  ["2015-14"; "2015-18"; "2015-22"; "2015-27"; "2015-32"; "2015-35";
   "2015-40"; "2015-48"; "2016-07"; "2016-18"; "2016-22"; "2016-26";
   "2016-30"; "2016-36"; "2016-40"; "2016-44"; "2016-50"; "2017-04";
   "2017-09"; "2017-13"; "2017-17"; "2017-22"; "2017-26"; "2017-30";
   "2017-34"; "2017-39"; "2017-43"; "2017-47"; "2017-51"; "2018-05";
   "2018-09"; "2018-13"; "2018-17"; "2018-22"].

Definition collinfo_entry (id : string) : string :=
  jq "{'id': 'CC-MAIN-" +:+ id +:+ jq "', 'cdx-api': '" +:+ cc_index id
  +:+ jq "'}".

Fixpoint collinfo_entries (ids : list string) : string :=
  match ids with
  | [] => ""
  | [id] => collinfo_entry id
  | id :: ids' => collinfo_entry id +:+ ", " +:+ collinfo_entries ids'
  end.

Definition collinfo_body (ids : list string) : string :=
  "[" +:+ collinfo_entries ids +:+ "]".

Definition collinfo_net (ids : list string)
  : nat -> string -> option (gmap string pyval) -> result response :=
  fun _ url _ =>
    if String.eqb url collinfo then Ok (Response 200 (collinfo_body ids))
    else Ok (Response 404 (jq "{'error': 'No Captures found'}")).

(** ** The list of Common Crawl indices, after the request

    Once the listing is fetched, [get_cc_endpoints] touches the world no
    more: [endpoints_of_listing] is what it computes from the response,
    the number of requests sent and its arguments. *)
Definition listed_endpoints `{Library} (r : response) : result (list json) :=
  j ← loads (text r);
  xs ← py_iter j;
  mapM (fun x => getitem x "cdx-api") xs.

Definition recent_indices `{Library} `{Runtime} (now : nat) (digits : string)
    (endpoints : list json) : result (list string) :=
  days ← py_int (JStr digits);
  startdate ← startdate_of now days;
  joined ← join_empty endpoints;
  ret ← select_recent startdate (findall joined);
  Ok (cc_index <$> (ret : list string)).

Definition endpoints_of_listing `{Library} `{Runtime} (r : response) (now : nat)
    (cc_duration cc_sort : string) : result (list string) :=
  if negb (status_code r =? 200) then
    Raise (RuntimeError "error getting list of common crawl indices: ")
  else
    endpoints ← listed_endpoints r;
    if (length endpoints <? 30)%nat then
      Raise (ValueError "Surprisingly few endoints for common crawl index")
    else
      endpoints ← sorted_reverse endpoints;
      match duration_digits cc_duration with
      | Some digits =>
          ret ← recent_indices now digits endpoints;
          Ok (if String.eqb cc_sort "mixed" then ret else reverse ret)
      | None => Raise (ValueError "unknown cc_duration of %s")
      end.

(** An endpoint of the Common Crawl index server. *)
Definition is_cc_index (url : string) : Prop :=
  exists id, is_crawl_id id = true /\ url = cc_index id.

Definition is_http_url (url : string) : Prop :=
  String.prefix "http://" url = true \/ String.prefix "https://" url = true.

(** ** Listings of the usual form

    The address of the index of crawl [id] as a listing gives it: a
    base, [CC-MAIN-], the crawl identifier, and a tail. *)
Definition cdx_api (base tail id : string) : string :=
  base +:+ "CC-MAIN-" +:+ id +:+ tail.

(** No capital C, so no start of a match of the pattern. *)
Definition free_of_C (s : string) : bool :=
  all_chars (fun c => negb (Ascii.eqb c "C")) s.

(** The dates of the crawls in the runtime of the examples. *)
Definition example_date (id : string) : string :=
  match thisdate_example (id +:+ "-0") with
  | Ok date => date
  | Raise _ => ""
  end.

(** ** Endpoints drained by a refill

    The first page that a refill started at [it] asks of the endpoint
    at index [i]: the page after the current one for the endpoint the
    iterator is at, page 0 for the endpoints after it. *)
Definition first_page (it : CDXFetcherIter) (i : nat) : Z :=
  if (i =? endpoint it)%nat then page it + 1 else 0.

(** A refill that ran from world [w] to world [w'] drained the endpoint
    at index [i] from page [first] on: one of its requests asked that
    endpoint for a page [last] and was answered 400, and every page from
    [first] up to [last] is among the pages [vs] that it appended. *)
Definition drained `{Library} (f : CDXFetcher) (w w' : world) (i : nat)
    (first : Z) (vs : list (nat * Z * list json)) : Prop :=
  exists url last n d resp,
    index_list f !! i = Some url /\
    first <= last /\
    (clock w <= n < clock w')%nat /\
    requests_get n url (Some d) = Ok resp /\
    d !! "page" = Some (VInt last) /\
    status_code resp = 400 /\
    forall p, first <= p < last -> exists objs, (i, p, objs) ∈ vs.

(** * Properties *)

(** ** Page-to-sample conversion *)

Lemma round_mag_exact (n : Z) :
  0 <= n < 2 ^ 54 -> Z.even n = true -> B64.round_mag n = n.
Proof.
  intros [Hlo Hhi] Heven. unfold B64.round_mag, B64.prec.
  destruct (Z.leb_spec (Z.log2 n + 1 - 53) 0) as [Hk|Hk]; [reflexivity|].
  assert (Hpos : 0 < n).
  { destruct (Z.eq_dec n 0) as [->|]; [simpl in Hk; lia | lia]. }
  assert (Hlog : Z.log2 n < 54) by (apply Z.log2_lt_pow2; lia).
  replace (Z.log2 n + 1 - 53) with 1 by lia.
  rewrite Z.land_ones by lia.
  rewrite Z.shiftr_div_pow2, !Z.shiftl_mul_pow2 by lia.
  change (2 ^ 1) with 2. change (1 * 2 ^ (1 - 1)) with 1.
  apply Zeven_bool_iff, Zeven_ex in Heven as [m ->].
  replace (2 * m mod 2) with 0 by (symmetry; apply Z.mod_divide; [lia | exists m; lia]).
  replace (2 * m / 2) with m by (symmetry; rewrite Z.mul_comm; apply Z.div_mul; lia).
  simpl. lia.
Qed.

Lemma make_exact (h : Z) :
  0 <= h < 2 ^ 54 -> Z.even h = true -> B64.make h = B64.Finite h.
Proof.
  intros Hh Heven. unfold B64.make, B64.round.
  rewrite (Z.abs_eq h) by lia. rewrite round_mag_exact by assumption.
  assert (Hsgn : Z.sgn h * h = h) by (destruct h; simpl; lia).
  rewrite Hsgn. rewrite (Z.abs_eq h) by lia.
  destruct (Z.leb_spec (Z.shiftl 1 (B64.emax + 1)) h) as [Hbig|]; [|reflexivity].
  exfalso. revert Hbig. rewrite Z.shiftl_mul_pow2 by (unfold B64.emax; lia).
  unfold B64.emax. intros Hbig.
  assert (2 ^ 54 < 1 * 2 ^ (1024 + 1)).
  { rewrite Z.mul_1_l. apply Z.pow_lt_mono_r; lia. }
  lia.
Qed.

(** C5 (amended): for every page count [p] with [0 <= p] and
    [3000 * p <= 2^53], where the floating-point steps are exact,
    [pages_to_samples] returns [(p - 1) * 3000] when [p > 1], [1500]
    when [p = 1] and [0] when [p = 0]; so 0, 1, 2 and 5 pages give 0,
    1500, 3000 and 12000 samples. *)
Theorem pages_to_samples_exact (p : Z) :
  0 <= p -> 3000 * p <= 2 ^ 53 ->
  pages_to_samples p =
    Ok (if 1 <? p then (p - 1) * 3000 else if p =? 1 then 1500 else 0).
Proof.
  intros Hp Hbound. unfold pages_to_samples.
  assert (H54 : 2 ^ 54 = 2 * 2 ^ 53) by reflexivity.
  destruct (Z.ltb_spec 1 p) as [Hgt|Hle].
  - unfold float_of_int, B64.of_int.
    rewrite make_exact; [|lia|apply Z.even_mul; reflexivity].
    cbn [mbind result_bind]. unfold B64.sub, B64.one, B64.mul_int, lines_per_page.
    rewrite make_exact; [|lia|].
    2:{ replace (2 * p - 2) with (2 * (p - 1)) by lia. apply Z.even_mul; reflexivity. }
    rewrite make_exact; [|lia|].
    2:{ replace ((2 * p - 2) * 3000) with (2 * ((p - 1) * 3000)) by lia.
        apply Z.even_mul; reflexivity. }
    cbn [B64.to_int]. f_equal.
    replace ((2 * p - 2) * 3000) with ((p - 1) * 3000 * 2) by lia.
    apply Z.quot_mul; lia.
  - destruct (Z.leb_spec 1 p) as [Hge|Hlt].
    + assert (p = 1) as -> by lia. reflexivity.
    + assert (p = 0) as -> by lia. reflexivity.
Qed.

Lemma pages_to_samples_exact_witness :
  pages_to_samples 0 = Ok 0 /\ pages_to_samples 1 = Ok 1500 /\
  pages_to_samples 2 = Ok 3000 /\ pages_to_samples 5 = Ok 12000.
Proof.
  split; [|split; [|split]].
  - apply (pages_to_samples_exact 0); [lia | vm_compute; discriminate].
  - apply (pages_to_samples_exact 1); [lia | vm_compute; discriminate].
  - apply (pages_to_samples_exact 2); [lia | vm_compute; discriminate].
  - apply (pages_to_samples_exact 5); [lia | vm_compute; discriminate].
Defined.

(** C5, as stated, fails for large counts: at [p = 2^53 + 2] the
    difference [p - 1.0] is not a binary64 number and rounds to [2^53],
    so the result is [2^53 * 3000], not [(p - 1) * 3000]; a count of
    [2^1024] pages has no float at all. *)
Lemma pages_to_samples_rounds_large_counts :
  1 < 9007199254740994 /\
  pages_to_samples 9007199254740994 = Ok 27021597764222976000 /\
  27021597764222976000 <> (9007199254740994 - 1) * 3000 /\
  pages_to_samples (2 ^ 1024) = Raise OverflowError.
Proof.
  split; [lia|]. split; [vm_compute; reflexivity|].
  split; [lia|]. vm_compute; reflexivity.
Qed.

(** The half-integer model of binary64 and the Standard Library's
    [SpecFloat] give the same sample counts, where the arithmetic is
    exact, where it rounds, and where it overflows. *)
Lemma pages_to_samples_agrees_with_SpecFloat :
  Forall (fun p => pages_to_samples_SF p = pages_to_samples p) large_page_counts.
Proof.
  unfold large_page_counts.
  repeat (apply Forall_cons; split; [vm_compute; reflexivity|]).
  apply Forall_nil. exact I.
Qed.

(** ** Reasoning about computations *)

Lemma bind_inv {S A B} (m : M S A) (f : A -> M S B) s r s' :
  (m ≫= f) s = Some (r, s') ->
  (exists a s1, m s = Some (Ok a, s1) /\ f a s1 = Some (r, s')) \/
  (exists e, m s = Some (Raise e, s') /\ r = Raise e).
Proof.
  unfold mbind, M_bind. destruct (m s) as [[[a|e] s1]|]; intros Heq.
  - left. eauto.
  - right. exists e. by inversion Heq.
  - discriminate.
Qed.

Lemma bind_Ok {S A B} (m : M S A) (f : A -> M S B) s a s1 :
  m s = Some (Ok a, s1) -> (m ≫= f) s = f a s1.
Proof. unfold mbind, M_bind. by intros ->. Qed.

Lemma bind_Raise {S A B} (m : M S A) (f : A -> M S B) s e s1 :
  m s = Some (Raise e, s1) -> (m ≫= f) s = Some (Raise e, s1).
Proof. unfold mbind, M_bind. by intros ->. Qed.

Lemma bind_None {S A B} (m : M S A) (f : A -> M S B) s :
  m s = None -> (m ≫= f) s = None.
Proof. unfold mbind, M_bind. by intros ->. Qed.

(** ** The transient-fault HTTP layer *)

Lemma myrequests_get_step `{Library} fuel url params w :
  myrequests_get (S fuel) url params w =
    match classify params (requests_get (clock w) url params) with
    | Returns resp => Some (Ok resp, tick w)
    | Fails e => Some (Raise e, tick w)
    | Retries => myrequests_get fuel url params (tick_sleep w)
    end.
Proof.
  cbn [myrequests_get]. unfold classify, mbind, M_bind, try_except,
    myrequests_get_try, http_get, mbind, M_bind.
  destruct (requests_get (clock w) url params) as [resp|e].
  - destruct (Z.eqb_spec (status_code resp) 400) as [E400|N400].
    + destruct params as [d|]; cbn.
      * case_bool_decide; reflexivity.
      * reflexivity.
    + cbn. destruct (Z.eqb_spec (status_code resp) 404) as [E404|N404]; cbn.
      { reflexivity. }
      case_bool_decide as Hin.
      * assert ((status_code resp =? 503) || (status_code resp =? 502)
                || (status_code resp =? 504) = true) as ->.
        { set_unfold in Hin. destruct Hin as [->| [->| [->|[]]]]; reflexivity. }
        reflexivity.
      * assert ((status_code resp =? 503) || (status_code resp =? 502)
                || (status_code resp =? 504) = false) as ->.
        { apply orb_false_intro; [apply orb_false_intro|];
            apply Z.eqb_neq; intros E; apply Hin; rewrite E; set_solver. }
        unfold raise_for_status, lift_result.
        destruct ((400 <=? status_code resp) && (status_code resp <? 600));
          reflexivity.
  - destruct e; reflexivity.
Qed.

Lemma myrequests_get_frame `{Library} fuel url params w r w' :
  myrequests_get fuel url params w = Some (r, w') ->
  heap w' = heap w /\ (clock w < clock w')%nat /\ slept w <= slept w'.
Proof.
  revert w. induction fuel as [|fuel IH]; intros w; [discriminate|].
  rewrite myrequests_get_step.
  destruct (classify params (requests_get (clock w) url params)).
  - intros [= <- <-]. cbn. split; [done|]. split; lia.
  - intros [= <- <-]. cbn. split; [done|]. split; lia.
  - intros Hrec. apply IH in Hrec as (Hh & Hc & Hs). cbn in *.
    split; [done|]. split; lia.
Qed.

(** What a returned response says about the exchange: it is the answer
    to the last request sent, and [classify] lets it through. *)
Lemma myrequests_get_Ok `{Library} fuel url params w resp w' :
  myrequests_get fuel url params w = Some (Ok resp, w') ->
  exists n, (clock w <= n)%nat /\ clock w' = S n /\
            classify params (requests_get n url params) = Returns resp.
Proof.
  revert w. induction fuel as [|fuel IH]; intros w; [discriminate|].
  rewrite myrequests_get_step.
  destruct (classify params (requests_get (clock w) url params)) eqn:Hc.
  - intros [= <- <-]. exists (clock w). cbn. by rewrite Hc.
  - discriminate.
  - intros Hrec. apply IH in Hrec as (n & Hn & Hclock & Hret). cbn in Hn.
    exists n. split; [lia|]. done.
Qed.

(** The builtin [ConnectionError] is retried after one second. *)
Lemma myrequests_get_retries_builtin_ConnectionError `{Library} fuel url params w :
  requests_get (clock w) url params = Raise ConnectionError ->
  myrequests_get (S fuel) url params w =
    myrequests_get fuel url params (tick_sleep w).
Proof. intros Hout. rewrite myrequests_get_step, Hout. reflexivity. Qed.

(** Every exception of [requests.exceptions], its [ConnectionError]
    included, reaches the second [except] clause and is raised again. *)
Lemma myrequests_get_reraises_RequestException `{Library} fuel url params w e :
  requests_get (clock w) url params = Raise (RequestException e) ->
  myrequests_get (S fuel) url params w = Some (Raise (RequestException e), tick w).
Proof. intros Hout. rewrite myrequests_get_step, Hout. reflexivity. Qed.

(** With a dictionary of parameters, a 400 without a page key is the
    invalid-query error, and any other 400 or a 404 is returned at once:
    one request, no sleep. *)
Lemma myrequests_get_400_404 `{Library} fuel url (d : gmap string pyval) w resp :
  requests_get (clock w) url (Some d) = Ok resp ->
  (status_code resp = 400 -> d !! "page" = None ->
   myrequests_get (S fuel) url (Some d) w =
     Some (Raise (RuntimeError "invalid url of some sort: "), tick w)) /\
  ((status_code resp = 400 /\ is_Some (d !! "page")) \/ status_code resp = 404 ->
   myrequests_get (S fuel) url (Some d) w = Some (Ok resp, tick w)).
Proof.
  intros Hout. split.
  - intros E400 Hpage. rewrite myrequests_get_step, Hout. unfold classify.
    rewrite E400. cbn. by rewrite bool_decide_eq_true_2.
  - intros [[E400 Hpage]|E404]; rewrite myrequests_get_step, Hout; unfold classify.
    + rewrite E400. cbn. rewrite bool_decide_eq_false_2; [done|].
      intros Hnone. rewrite Hnone in Hpage. by destruct Hpage.
    + rewrite E404. reflexivity.
Qed.

(** Without parameters the membership test itself fails. *)
Lemma myrequests_get_400_None `{Library} fuel url w resp :
  requests_get (clock w) url None = Ok resp -> status_code resp = 400 ->
  myrequests_get (S fuel) url None w = Some (Raise TypeError, tick w).
Proof.
  intros Hout E400. rewrite myrequests_get_step, Hout. unfold classify.
  rewrite E400. reflexivity.
Qed.

(** C3 (code bug): a fetch made without parameters, which is what the
    default [params=None] gives and how [get_cc_endpoints] calls
    [myrequests_get], and answered with status 400 ends in the TypeError
    of ['page' not in None], not in the invalid-query RuntimeError. *)
Theorem myrequests_get_400_without_params :
  @myrequests_get
    (example_library (constant_net (Ok (Response 400 "<html>Bad Request</html>"))))
    100 "http://index.commoncrawl.org/collinfo.json" None world0
  = Some (Raise TypeError, World 1 0 initial_heap).
Proof.
  apply (@myrequests_get_400_None
           (example_library (constant_net (Ok (Response 400 "<html>Bad Request</html>"))))
           99 "http://index.commoncrawl.org/collinfo.json" world0
           (Response 400 "<html>Bad Request</html>")).
  - reflexivity.
  - reflexivity.
Qed.

(** C4 (code bug): when [requests.get] fails with
    [requests.exceptions.ConnectionError], as it does for a refused or
    reset connection, the failure reaches the caller after one request
    and no sleep: the clause [except ConnectionError] names the builtin
    class, which the exception of [requests] does not derive from. *)
Theorem myrequests_get_surfaces_connection_failure :
  @myrequests_get
    (example_library (constant_net (Raise (RequestException ReqConnectionError))))
    100 cc_endpoint (Some {["url" := VStr "example.com/*"]}) world0
  = Some (Raise (RequestException ReqConnectionError), World 1 0 initial_heap).
Proof.
  apply (@myrequests_get_reraises_RequestException
           (example_library (constant_net (Raise (RequestException ReqConnectionError))))
           99 cc_endpoint (Some {["url" := VStr "example.com/*"]}) world0).
  reflexivity.
Qed.

(** ** The response normalizer *)

Lemma mapM_result_cons {A B} (f : A -> result B) (x : A) (l : list A) :
  mapM f (x :: l) = (y ← f x; k ← mapM f l; mret (y :: k)).
Proof. reflexivity. Qed.

Lemma loads_unfold `{Library} (l : string) :
  loads l = match json_loads l with Some v => Ok v | None => Raise JSONDecodeError end.
Proof. reflexivity. Qed.

Lemma mapM_loads_Ok `{Library} (ls : list string) (vs : list json) :
  Forall2 (fun l v => json_loads l = Some v) ls vs -> mapM loads ls = Ok vs.
Proof.
  induction 1 as [|l v ls vs Hl _ IH]; [reflexivity|].
  rewrite mapM_result_cons, IH, loads_unfold, Hl. reflexivity.
Qed.

Lemma mapM_loads_Raise `{Library} (ls : list string) :
  Exists (fun l => json_loads l = None) ls ->
  mapM loads ls = Raise JSONDecodeError.
Proof.
  induction ls as [|l ls IH]; intros Hex; [by inversion Hex|].
  rewrite mapM_result_cons, loads_unfold.
  destruct (json_loads l) as [v|] eqn:Hl; [|reflexivity].
  rewrite IH; [reflexivity|].
  inversion Hex as [? ? Hhead|]; [congruence|done].
Qed.

Lemma zip_row_Ok (names : list string) (row : list json) (obj : list (json * json)) :
  (length names <= length row)%nat ->
  zip_row (JStr <$> names) obj (JList row) =
    Ok (JDict (fold_left (fun d kv => dict_store d kv.1 kv.2)
                 (zip (JStr <$> names) row) obj)).
Proof.
  revert row obj. induction names as [|name names IH]; intros row obj Hlen.
  - reflexivity.
  - destruct row as [|v row]; [cbn in Hlen; lia|].
    cbn. rewrite IH by (cbn in Hlen; lia). reflexivity.
Qed.

Lemma mapM_row_to_obj (names : list string) (rows : list (list json)) :
  Forall (fun row => length row = length names) rows ->
  mapM (row_to_obj (JList (JStr <$> names))) (JList <$> rows) =
    Ok ((fun row => JDict (dict_of_pairs (zip (JStr <$> names) row))) <$> rows).
Proof.
  induction 1 as [|row rows Hrow _ IH]; [reflexivity|].
  rewrite fmap_cons, mapM_result_cons, IH. unfold row_to_obj. cbn.
  rewrite zip_row_Ok by lia. reflexivity.
Qed.

Lemma prefix_bracket_not_brace (s : string) :
  String.prefix "[" s = true -> String.prefix "{" s = false.
Proof.
  destruct s as [|c s]; [discriminate|].
  change (String.prefix "[" (String c s))
    with (if ascii_dec "[" c then String.prefix "" s else false).
  change (String.prefix "{" (String c s))
    with (if ascii_dec "{" c then String.prefix "" s else false).
  destruct (ascii_dec "[" c) as [<-|]; [intros _|discriminate].
  destruct (ascii_dec "{" "[") as [Heq|]; [discriminate Heq|reflexivity].
Qed.

(** C7 (amended): [cdx_to_json] returns no record for a 404; for a body
    that starts with a brace it returns, line by line, what [json.loads]
    makes of each line; for a body that is a JSON array of a list of
    field names followed by rows of as many values it returns the rows
    zipped with the names; and it fails with a ValueError when the body
    starts with neither a brace nor a bracket, when it starts with a
    bracket and is not JSON, and when it starts with a brace and one of
    its lines is not JSON. *)
Theorem cdx_to_json_shapes `{Library} (resp : response) :
  (status_code resp = 404 -> cdx_to_json resp = Ok []) /\
  (forall vs,
     status_code resp <> 404 -> String.prefix "{" (text resp) = true ->
     Forall2 (fun l v => json_loads l = Some v) (splitlines (text resp)) vs ->
     cdx_to_json resp = Ok vs) /\
  (forall names rows,
     status_code resp <> 404 -> String.prefix "[" (text resp) = true ->
     json_loads (text resp) =
       Some (JList (JList (JStr <$> names) :: (JList <$> rows))) ->
     Forall (fun row => length row = length names) rows ->
     cdx_to_json resp =
       Ok ((fun row => JDict (dict_of_pairs (zip (JStr <$> names) row))) <$> rows)) /\
  (status_code resp <> 404 ->
   (String.prefix "{" (text resp) = false /\ String.prefix "[" (text resp) = false) \/
   (String.prefix "[" (text resp) = true /\ json_loads (text resp) = None) \/
   (String.prefix "{" (text resp) = true /\
    Exists (fun l => json_loads l = None) (splitlines (text resp))) ->
   exists e, cdx_to_json resp = Raise e /\ is_ValueError e = true).
Proof.
  unfold cdx_to_json. split; [|split; [|split]].
  - intros ->. reflexivity.
  - intros vs Hstatus Hbrace Hlines.
    apply Z.eqb_neq in Hstatus. rewrite Hstatus, Hbrace.
    by apply mapM_loads_Ok.
  - intros names rows Hstatus Hbracket Hjson Hrows.
    apply Z.eqb_neq in Hstatus.
    rewrite Hstatus, (prefix_bracket_not_brace _ Hbracket), Hbracket. cbn.
    unfold loads. rewrite Hjson. cbn. by apply mapM_row_to_obj.
  - intros Hstatus Hbody. apply Z.eqb_neq in Hstatus. rewrite Hstatus.
    destruct Hbody as [[Hbrace Hbracket]|[[Hbracket Hjson]|[Hbrace Hline]]].
    + rewrite Hbrace, Hbracket. cbn. by eexists.
    + rewrite (prefix_bracket_not_brace _ Hbracket), Hbracket. cbn.
      unfold loads. rewrite Hjson. cbn. by eexists.
    + rewrite Hbrace, (mapM_loads_Raise _ Hline). by eexists.
Qed.

(** The two bodies of the specification's examples: three lines give
    three records; a header and two rows give two records. *)
Lemma cdx_to_json_shapes_witness :
  @cdx_to_json offline (Response 200 ndjson_example) =
    Ok [JDict [(JStr "url", JStr "a"); (JStr "timestamp", JInt 1)];
        JDict [(JStr "url", JStr "b"); (JStr "timestamp", JInt 2)];
        JDict [(JStr "url", JStr "c"); (JStr "timestamp", JInt 3)]] /\
  @cdx_to_json offline (Response 200 array_example) =
    Ok [JDict [(JStr "url", JStr "a"); (JStr "timestamp", JInt 1)];
        JDict [(JStr "url", JStr "b"); (JStr "timestamp", JInt 2)]] /\
  @cdx_to_json offline (Response 404 "No Captures found") = Ok [] /\
  (exists e, @cdx_to_json offline (Response 200 "<html>") = Raise e /\
             is_ValueError e = true).
Proof.
  split; [|split; [|split]].
  - apply (proj1 (proj2 (@cdx_to_json_shapes offline (Response 200 ndjson_example))));
      [discriminate | reflexivity |].
    repeat constructor.
  - apply (proj1 (proj2 (proj2
             (@cdx_to_json_shapes offline (Response 200 array_example))))
             ["url"; "timestamp"] [[JStr "a"; JInt 1]; [JStr "b"; JInt 2]]);
      [discriminate | reflexivity | reflexivity |].
    repeat constructor.
  - apply (proj1 (@cdx_to_json_shapes offline (Response 404 "No Captures found"))).
    reflexivity.
  - apply (proj2 (proj2 (proj2
             (@cdx_to_json_shapes offline (Response 200 "<html>")))));
      [discriminate|].
    left. split; reflexivity.
Defined.

(** C7, as stated, fails: a body whose second line is a number, not an
    object, is returned without complaint, and a row shorter than the
    header ends in an IndexError, which is not a decode error. *)
Lemma cdx_to_json_other_bodies :
  @cdx_to_json offline (Response 200 (jq "{'a': 1}" +:+ nl +:+ "7")) =
    Ok [JDict [(JStr "a", JInt 1)]; JInt 7] /\
  @cdx_to_json offline (Response 200 (jq "[['a','b'],['x']]")) = Raise IndexError /\
  is_ValueError IndexError = false.
Proof. split; [|split]; reflexivity. Qed.

(** The empty array escapes the [except] clause too: [lines.pop(0)]
    raises IndexError where the clause names KeyError. *)
Lemma cdx_to_json_empty_array :
  @cdx_to_json offline (Response 200 "[]") = Raise IndexError.
Proof. reflexivity. Qed.

(** ** The size estimate *)

Lemma get_size_estimate_loop_sum `{Library} fuel params endpoints w rs w' counts pages :
  fetches fuel params endpoints w rs w' ->
  Forall2 (fun r c => if status_code r =? 200 then showNumPages r = Ok c
                      else c = 0) rs counts ->
  get_size_estimate_loop fuel endpoints params pages w =
    Some (Ok (pages + sum_Z counts), w').
Proof.
  intros Hfetch. revert counts pages.
  induction Hfetch as [w|endpoint endpoints w resp w1 rs w' Hget _ IH];
    intros counts pages Hcounts.
  - inversion Hcounts; subst. cbn. by rewrite Z.add_0_r.
  - inversion Hcounts as [|? c ? counts' Hc Hrest]; subst.
    cbn [get_size_estimate_loop]. rewrite (bind_Ok _ _ _ _ _ Hget).
    destruct (status_code resp =? 200).
    + unfold lift_result, mbind, M_bind. rewrite Hc.
      rewrite (IH _ _ Hrest). unfold sum_Z. cbn [foldr]. do 3 f_equal. lia.
    + subst c. rewrite (IH _ _ Hrest). unfold sum_Z. cbn [foldr].
      reflexivity.
Qed.

(** A fetch that raises ends the loop with its exception. *)
Lemma get_size_estimate_loop_raise `{Library} fuel params queried endpoint rest
    w rs w1 counts e w2 pages :
  fetches fuel params queried w rs w1 ->
  Forall2 (fun r c => if status_code r =? 200 then showNumPages r = Ok c
                      else c = 0) rs counts ->
  myrequests_get fuel endpoint (Some params) w1 = Some (Raise e, w2) ->
  get_size_estimate_loop fuel (queried ++ endpoint :: rest) params pages w =
    Some (Raise e, w2).
Proof.
  intros Hfetch. revert counts pages.
  induction Hfetch as [w|endpoint0 endpoints w resp w0 rs w1 Hget _ IH];
    intros counts pages Hcounts Hraise.
  - cbn [app get_size_estimate_loop]. by rewrite (bind_Raise _ _ _ _ _ Hraise).
  - inversion Hcounts as [|? c ? counts' Hc Hrest]; subst.
    cbn [app get_size_estimate_loop]. rewrite (bind_Ok _ _ _ _ _ Hget).
    destruct (status_code resp =? 200).
    + unfold lift_result, mbind, M_bind. rewrite Hc. by apply (IH counts').
    + by apply (IH counts').
Qed.

(** C6 (amended): with [as_pages=True], when every fetch returns a
    response, the estimate is the sum of the page counts of the
    responses with status 200; a response with any other status counts
    for 0 and raises nothing.  When the fetch of an endpoint raises,
    the endpoints before it having been counted, the estimate raises
    the same exception in the world that the fetch left, and the
    endpoints after it are not queried.  That is so when the endpoint
    answers 400, the parameters of the estimate having no page key (the
    invalid-query RuntimeError), and when it answers any other status
    from 400 to 599 except 404 and the retried 502, 503 and 504 (the
    HTTPError of that status). *)
Theorem get_size_estimate_as_pages `{Library} fuel self url kwargs w :
  let params := kwargs ∪ <["showNumPages" := VStr "true"]> {["url" := VStr url]} in
  let counted :=
    Forall2 (fun r c => if status_code r =? 200 then showNumPages r = Ok c
                        else c = 0) in
  (forall rs w' counts,
     fetches fuel params (index_list self) w rs w' ->
     counted rs counts ->
     get_size_estimate fuel self url true kwargs w = Some (Ok (sum_Z counts), w')) /\
  (forall queried endpoint rest rs w1 counts e w2,
     index_list self = queried ++ endpoint :: rest ->
     fetches fuel params queried w rs w1 ->
     counted rs counts ->
     myrequests_get fuel endpoint (Some params) w1 = Some (Raise e, w2) ->
     get_size_estimate fuel self url true kwargs w = Some (Raise e, w2)) /\
  (forall queried endpoint rest rs w1 counts resp,
     index_list self = queried ++ endpoint :: rest ->
     fetches fuel params queried w rs w1 ->
     counted rs counts ->
     (0 < fuel)%nat ->
     requests_get (clock w1) endpoint (Some params) = Ok resp ->
     (status_code resp = 400 -> params !! "page" = None ->
      get_size_estimate fuel self url true kwargs w =
        Some (Raise (RuntimeError "invalid url of some sort: "), tick w1)) /\
     (400 <= status_code resp < 600 ->
      status_code resp ∉ [400; 404; 502; 503; 504] ->
      get_size_estimate fuel self url true kwargs w =
        Some (Raise (RequestException (HTTPError (status_code resp))), tick w1))).
Proof.
  intros params counted.
  assert (Hraise : forall queried endpoint rest rs w1 counts e w2,
            index_list self = queried ++ endpoint :: rest ->
            fetches fuel params queried w rs w1 ->
            counted rs counts ->
            myrequests_get fuel endpoint (Some params) w1 = Some (Raise e, w2) ->
            get_size_estimate fuel self url true kwargs w = Some (Raise e, w2)).
  { intros queried endpoint rest rs w1 counts e w2 Hlist Hfetch Hcounts Hget.
    unfold get_size_estimate. fold params. rewrite Hlist.
    by rewrite (bind_Raise _ _ _ _ _
                  (get_size_estimate_loop_raise _ _ _ _ rest _ _ _ _ _ _ 0
                     Hfetch Hcounts Hget)). }
  split; [|split; [exact Hraise|]].
  - intros rs w' counts Hfetch Hcounts. unfold get_size_estimate. fold params.
    rewrite (bind_Ok _ _ _ _ _
               (get_size_estimate_loop_sum _ _ _ _ _ _ _ 0 Hfetch Hcounts)).
    reflexivity.
  - intros queried endpoint rest rs w1 counts resp Hlist Hfetch Hcounts Hfuel Hout.
    destruct fuel as [|fuel']; [lia|]. split.
    + intros E400 Hpage.
      apply (Hraise queried endpoint rest rs w1 counts); [done..|].
      by apply (proj1 (myrequests_get_400_404 fuel' endpoint params w1 resp Hout)).
    + intros Hrange Hother.
      apply (Hraise queried endpoint rest rs w1 counts); [done..|].
      set_unfold in Hother.
      rewrite myrequests_get_step, Hout. unfold classify.
      rewrite (proj2 (Z.eqb_neq _ 400)), (proj2 (Z.eqb_neq _ 404)) by lia.
      rewrite bool_decide_eq_false_2 by (set_unfold; lia).
      rewrite (proj2 (Z.leb_le 400 _)), (proj2 (Z.ltb_lt _ 600)) by lia.
      reflexivity.
Qed.

(** Three endpoints counted; and three endpoints of which the second
    is out of order: its error is the estimate's, and the third is not
    queried. *)
Lemma get_size_estimate_as_pages_witness :
  @get_size_estimate (example_library estimate_net) 10 estimate_fetcher
     "example.com/*" true ∅ world0 = Some (Ok 8, World 3 0 initial_heap) /\
  @get_size_estimate (example_library outage_net) 10 outage_fetcher
     "example.com/*" true ∅ world0 =
    Some (Raise (RequestException (HTTPError 500)), World 2 0 initial_heap).
Proof.
  split.
  - apply (proj1 (@get_size_estimate_as_pages (example_library estimate_net) 10
                    estimate_fetcher "example.com/*" ∅ world0)
             [Response 200 (jq "{'pages': 2, 'blocks': 3}");
              Response 404 (jq "{'error': 'No Captures found'}");
              Response 200 "5"]
             (World 3 0 initial_heap) [3; 0; 5]).
    + eapply fetches_cons; [reflexivity|].
      eapply fetches_cons; [reflexivity|].
      eapply fetches_cons; [reflexivity|]. apply fetches_nil.
    + repeat constructor.
  - destruct (proj2 (proj2 (@get_size_estimate_as_pages
                               (example_library outage_net) 10 outage_fetcher
                               "example.com/*" ∅ world0))
                ["http://pywb"] "http://down" ["http://ia"]
                [Response 200 (jq "{'pages': 2, 'blocks': 3}")]
                (World 1 0 initial_heap) [3]
                (Response 500 "Internal Server Error")) as [_ Hdown].
    + reflexivity.
    + eapply fetches_cons; [reflexivity|]. apply fetches_nil.
    + repeat constructor.
    + lia.
    + reflexivity.
    + apply Hdown.
      * cbn. lia.
      * cbn. set_unfold. lia.
Defined.

(** C6, as stated, fails: an endpoint that answers 500 makes the fetch,
    and the estimate with it, raise the HTTP error of
    [raise_for_status]; one that answers 400 makes it raise the
    invalid-query error, the parameters of the estimate having no page
    key. *)
Lemma get_size_estimate_propagates_errors :
  @get_size_estimate
     (example_library (constant_net (Ok (Response 500 "Internal Server Error"))))
     10 {| index_list := [cc_endpoint] |} "example.com/*" true ∅ world0
  = Some (Raise (RequestException (HTTPError 500)), World 1 0 initial_heap) /\
  @get_size_estimate
     (example_library (constant_net (Ok (Response 400 "<html>Bad Request</html>"))))
     10 {| index_list := [cc_endpoint] |} "example.com/*" true ∅ world0
  = Some (Raise (RuntimeError "invalid url of some sort: "), World 1 0 initial_heap).
Proof. split; reflexivity. Qed.

(** ** The iteration engine, step by step *)

Lemma get_for_iter_unfold `{Library} fuel self endpoint page l w :
  get_for_iter fuel self endpoint page l w =
    if (length (index_list self) <=? endpoint)%nat then Some (Ok (last_endpoint, []), w)
    else if limit_is_zero (params_of l w) then Some (Ok (last_endpoint, []), w)
    else
      match index_list self !! endpoint with
      | None => Some (Raise IndexError, w)
      | Some url =>
          let d := <["page" := VInt page]> (params_of l w) in
          match myrequests_get fuel url (Some d) (set_heap w l d) with
          | None => None
          | Some (Raise e, w1) => Some (Raise e, w1)
          | Some (Ok resp, w1) =>
              if status_code resp =? 400 then Some (Ok (last_page, []), w1)
              else
                match cdx_to_json resp with
                | Raise e => Some (Raise e, w1)
                | Ok ret =>
                    match d !! "limit" with
                    | None => Some (Ok (ok, ret), w1)
                    | Some v =>
                        match isub v (length ret) with
                        | Raise e => Some (Raise e, w1)
                        | Ok v' =>
                            Some (Ok (ok, ret), set_heap w1 l (<["limit" := v']> d))
                        end
                    end
                end
          end
      end.
Proof.
  unfold get_for_iter.
  destruct (length (index_list self) <=? endpoint)%nat; [reflexivity|].
  unfold mbind at 1, M_bind at 1, deref. fold (params_of l w).
  destruct (limit_is_zero (params_of l w)); [reflexivity|].
  destruct (index_list self !! endpoint) as [url|]; [|reflexivity].
  unfold mbind at 1, M_bind at 1, store. fold (set_heap w l (<["page" := VInt page]> (params_of l w))).
  unfold mbind at 1, M_bind at 1.
  destruct (myrequests_get fuel url _ _) as [[[resp|e] w1]|]; [|reflexivity..].
  destruct (status_code resp =? 400); [reflexivity|].
  unfold mbind at 1, M_bind at 1, lift_result.
  destruct (cdx_to_json resp) as [ret|e]; [|reflexivity].
  destruct (_ !! "limit") as [v|]; [|reflexivity].
  unfold mbind, M_bind. destruct (isub v (length ret)); reflexivity.
Qed.

Lemma get_more_unfold `{Library} fuel self w :
  get_more (S fuel) (self, w) =
    let self := turn_page self in
    match get_for_iter fuel (cdxfetcher self) (endpoint self) (page self)
            (params self) w with
    | None => None
    | Some (Raise e, w1) => Some (Raise e, (self, w1))
    | Some (Ok (last_endpoint, _), w1) => Some (Ok tt, (self, w1))
    | Some (Ok (last_page, _), w1) => get_more fuel (next_endpoint self, w1)
    | Some (Ok (ok, objs), w1) => get_more fuel (extend self objs, w1)
    end.
Proof.
  cbn [get_more]. unfold mbind, M_bind, self_get, self_set, on_world. cbn.
  destruct (get_for_iter _ _ _ _ _ w) as [[[[[] objs]|e] w1]|]; reflexivity.
Qed.

Lemma next_unfold `{Library} fuel self w :
  next (S fuel) (self, w) =
    match cdx_objs self with
    | x :: objs => Some (Ok x, (pop self objs, w))
    | [] =>
        match get_more fuel (self, w) with
        | None => None
        | Some (Raise e, s) => Some (Raise e, s)
        | Some (Ok _, (self', w')) =>
            if (length (cdx_objs self') <=? 0)%nat
            then Some (Raise StopIteration, (self', w'))
            else next fuel (self', w')
        end
    end.
Proof.
  cbn [next]. unfold mbind, M_bind, self_get, self_set. cbn.
  destruct (cdx_objs self); [|reflexivity].
  destruct (get_more fuel (self, w)) as [[[[]|e] [self' w']]|]; [|reflexivity..].
  cbn. destruct (length (cdx_objs self') <=? 0)%nat; reflexivity.
Qed.

Lemma classify_Returns params out resp :
  classify params out = Returns resp -> out = Ok resp.
Proof.
  unfold classify. destruct out as [resp'|e]; [|by destruct e].
  repeat match goal with
         | |- context [if ?b then _ else _] => destruct b
         | |- context [match ?x with _ => _ end] => destruct x
         end; congruence.
Qed.

Lemma get_for_iter_outcome `{Library} fuel self endpoint page l w r w' :
  get_for_iter fuel self endpoint page l w = Some (r, w') ->
  get_for_iter_spec self endpoint page l w r w'.
Proof.
  rewrite get_for_iter_unfold.
  destruct (Nat.leb_spec (length (index_list self)) endpoint) as [Hlen|Hlen].
  { intros [= <- <-]. apply spec_last_endpoint. by left. }
  destruct (limit_is_zero (params_of l w)) eqn:Hlimit.
  { intros [= <- <-]. apply spec_last_endpoint. by right. }
  assert (Hterm : ~ terminal self endpoint (params_of l w)).
  { intros [?|?]; [lia|congruence]. }
  destruct (index_list self !! endpoint) as [url|] eqn:Hurl.
  2:{ apply lookup_ge_None in Hurl. lia. }
  cbv zeta.
  destruct (myrequests_get fuel url _ _) as [[[resp|e] w1]|] eqn:Hget; [| |done].
  - destruct (myrequests_get_frame _ _ _ _ _ _ Hget) as (Hheap & _ & _).
    destruct (myrequests_get_Ok _ _ _ _ _ _ Hget) as (n & Hn & Hclock & Hret).
    apply classify_Returns in Hret. cbn in Hheap, Hn.
    destruct (Z.eqb_spec (status_code resp) 400) as [E400|N400].
    { intros [= <- <-]. by eapply spec_last_page. }
    destruct (cdx_to_json resp) as [ret|e] eqn:Hjson.
    2:{ intros [= <- <-]. apply spec_raise; [done|lia|done]. }
    destruct (_ !! "limit") as [v|] eqn:Hv.
    + destruct (isub v (length ret)) as [v'|e] eqn:Hsub.
      * intros [= <- <-].
        eapply (spec_ok _ _ _ _ _ url n resp _ ret); try done.
        -- rewrite Hv. eauto.
        -- cbn. rewrite Hheap. apply insert_insert_eq.
      * intros [= <- <-]. apply spec_raise; [done|lia|done].
    + intros [= <- <-].
      eapply (spec_ok _ _ _ _ _ url n resp _ ret); try done. by rewrite Hv.
  - destruct (myrequests_get_frame _ _ _ _ _ _ Hget) as (Hheap & Hclock & _).
    cbn in Hheap, Hclock. intros [= <- <-]. apply spec_raise; [done|lia|done].
Qed.

(** An invariant of the refill loop: what every trip round the loop
    keeps, the whole loop keeps, however it ends. *)
Lemma get_more_rule `{Library} (I : CDXFetcherIter -> world -> Prop) :
  (forall self w r w1,
     I self w ->
     get_for_iter_spec (cdxfetcher self) (endpoint self) (page self + 1)
       (params self) w r w1 ->
     match r with
     | Ok (last_endpoint, _) => I (turn_page self) w1
     | Ok (last_page, _) => I (next_endpoint (turn_page self)) w1
     | Ok (ok, objs) => I (extend (turn_page self) objs) w1
     | Raise _ => I (turn_page self) w1
     end) ->
  forall fuel self w r self' w',
    I self w -> get_more fuel (self, w) = Some (r, (self', w')) -> I self' w'.
Proof.
  intros Hstep. induction fuel as [|fuel IH]; intros self w r self' w' HI;
    [discriminate|].
  rewrite get_more_unfold. cbv zeta.
  destruct (get_for_iter _ _ _ _ _ w) as [[[[status objs]|e] w1]|] eqn:Hget;
    [| |done].
  - apply get_for_iter_outcome in Hget. cbn in Hget.
    specialize (Hstep _ _ _ _ HI Hget). destruct status.
    + by intros [= <- <- <-].
    + by apply IH.
    + by apply IH.
  - apply get_for_iter_outcome in Hget. cbn in Hget.
    specialize (Hstep _ _ _ _ HI Hget). by intros [= <- <- <-].
Qed.

(** The refill loop has one way out: the terminal outcome. *)
Lemma get_more_Ok_terminal `{Library} fuel self w u self' w' :
  get_more fuel (self, w) = Some (Ok u, (self', w')) ->
  terminal (cdxfetcher self') (endpoint self') (params_of (params self') w').
Proof.
  revert self w. induction fuel as [|fuel IH]; intros self w; [discriminate|].
  rewrite get_more_unfold. cbv zeta.
  destruct (get_for_iter _ _ _ _ _ w) as [[[[status objs]|e] w1]|] eqn:Hget;
    [| |done].
  - destruct status; [|apply IH..].
    intros [= <- <- <-]. apply get_for_iter_outcome in Hget.
    inversion Hget; subst. assumption.
  - discriminate.
Qed.

(** ** The limit test of [get_for_iter] *)

Lemma limit_is_zero_true (d : gmap string pyval) :
  limit_is_zero d = true <-> d !! "limit" = Some (VInt 0).
Proof.
  unfold limit_is_zero. destruct (d !! "limit") as [[[]|]|]; split; congruence.
Qed.

Lemma params_of_set_heap w l d : params_of l (set_heap w l d) = d.
Proof. unfold params_of, set_heap. cbn. by rewrite lookup_insert_eq. Qed.

Lemma params_of_heap_insert w w' l d :
  heap w' = <[l := d]> (heap w) ->
  params_of l w' = d /\ forall l', l' <> l -> params_of l' w' = params_of l' w.
Proof.
  intros Hheap. unfold params_of. rewrite Hheap. split.
  - by rewrite lookup_insert_eq.
  - intros l' Hne. by rewrite lookup_insert_ne.
Qed.

(** A negative limit stays negative through a call, which sends a
    request and does not report the terminal outcome. *)
Lemma get_for_iter_negative_limit `{Library} self endpoint page l w r w' z :
  (endpoint < length (index_list self))%nat ->
  params_of l w !! "limit" = Some (VInt z) -> z < 0 ->
  get_for_iter_spec self endpoint page l w r w' ->
  (clock w < clock w')%nat /\
  (forall objs, r <> Ok (last_endpoint, objs)) /\
  exists z', params_of l w' !! "limit" = Some (VInt z') /\ z' <= z.
Proof.
  intros Hlen Hlimit Hneg Hspec.
  assert (Hterm : ~ terminal self endpoint (params_of l w)).
  { intros [?|Hzero]; [lia|]. apply limit_is_zero_true in Hzero.
    rewrite Hlimit in Hzero. injection Hzero as ->. lia. }
  assert (Hd : <["page" := VInt page]> (params_of l w) !! "limit" = Some (VInt z)).
  { by rewrite lookup_insert_ne. }
  destruct Hspec as [Ht|url n resp w1 _ _ _ Hn Hclock _ Hheap
                    |url n resp w1 ret d' _ _ _ Hn Hclock _ _ Hd' Hheap
                    |e w1 _ Hclock Hheap].
  - done.
  - apply params_of_heap_insert in Hheap as [Hl _].
    split; [lia|]. split; [discriminate|]. exists z. rewrite Hl. by split.
  - apply params_of_heap_insert in Hheap as [Hl _].
    split; [lia|]. split; [discriminate|].
    rewrite Hd in Hd'. destruct Hd' as (v' & Hsub & ->).
    injection Hsub as <-. exists (z - Z.of_nat (length ret)).
    rewrite Hl, lookup_insert_eq. split; [done|lia].
  - apply params_of_heap_insert in Hheap as [Hl _].
    split; [lia|]. split; [discriminate|]. exists z. rewrite Hl. by split.
Qed.

Lemma records_of_snoc (vs : list (nat * Z * list json)) (v : nat * Z * list json) :
  records_of (vs ++ [v]) = records_of vs ++ v.2.
Proof.
  unfold records_of. rewrite fmap_app, concat_app. cbn. by rewrite app_nil_r.
Qed.

Lemma drained_mono `{Library} f w w0 w1 i first vs vs' :
  drained f w w0 i first vs ->
  (clock w0 <= clock w1)%nat ->
  (forall v, v ∈ vs -> v ∈ vs') ->
  drained f w w1 i first vs'.
Proof.
  intros (url & last & n & d & resp & Hurl & Hfirst & Hn & Hout & Hd & H400 & Hpages)
    Hclock Hsub.
  exists url, last, n, d, resp. repeat split; try done; try lia.
  intros p Hp. destruct (Hpages p Hp) as [objs Hin]. exists objs. by apply Hsub.
Qed.

(** With a negative limit, a refill that ends normally has drained
    every endpoint from the one it started at to the last of the list,
    and has appended every page that it obtained. *)
Lemma get_more_drains `{Library} f l z it w :
  z < 0 ->
  forall fuel self w0 vs u it' w',
    cdxfetcher self = f -> params self = l ->
    (exists z', params_of l w0 !! "limit" = Some (VInt z') /\ z' <= z) ->
    (clock w <= clock w0)%nat ->
    (endpoint it <= endpoint self)%nat ->
    visited self = visited it ++ vs ->
    cdx_objs self = cdx_objs it ++ records_of vs ->
    Forall (served f) vs ->
    first_page it (endpoint self) - 1 <= page self ->
    (forall i, (endpoint it <= i < endpoint self)%nat ->
               drained f w w0 i (first_page it i) vs) ->
    (forall p, first_page it (endpoint self) <= p <= page self ->
               exists objs, (endpoint self, p, objs) ∈ vs) ->
    get_more fuel (self, w0) = Some (Ok u, (it', w')) ->
    (length (index_list f) <= endpoint it')%nat /\
    (exists z', params_of l w' !! "limit" = Some (VInt z') /\ z' <= z) /\
    exists vs',
      visited it' = visited it ++ vs' /\
      cdx_objs it' = cdx_objs it ++ records_of vs' /\
      Forall (served f) vs' /\
      forall i, (endpoint it <= i < length (index_list f))%nat ->
                drained f w w' i (first_page it i) vs'.
Proof.
  intros Hneg. induction fuel as [|fuel IH];
    intros self w0 vs u it' w' Hf Hl Hlimit Hclock Hend Hvisited Hbuf Hserved
      Hpage Hdrained Hpages; [discriminate|].
  rewrite get_more_unfold. cbv zeta.
  destruct (get_for_iter _ _ _ _ _ w0) as [[r w1]|] eqn:Hget; [|done].
  apply get_for_iter_outcome in Hget.
  cbn [turn_page cdxfetcher endpoint page params] in Hget.
  rewrite Hf, Hl in Hget.
  destruct Hlimit as (z0 & Hz0 & Hle0).
  assert (Hnonzero : limit_is_zero (params_of l w0) <> true).
  { intros Hzero%limit_is_zero_true. rewrite Hz0 in Hzero.
    injection Hzero as ->. lia. }
  destruct Hget as [Hterm|url n resp w1 Hterm Hurl Hout Hn Hw1 H400 Hheap
                   |url n resp w1 ret d' Hterm Hurl Hout Hn Hw1 H400 Hjson Hd' Hheap
                   |e w1 Hterm Hw1 Hheap].
  - (* the end of the list *)
    intros [= <- <- <-]. cbn [turn_page endpoint visited cdx_objs].
    destruct Hterm as [Hlen|Hzero]; [|done].
    split; [done|]. split; [by eauto|].
    exists vs. split; [done|]. split; [done|]. split; [done|].
    intros i Hi. apply Hdrained. lia.
  - (* a page past the last: on to the next endpoint *)
    apply params_of_heap_insert in Hheap as [Hl1 _].
    apply (IH _ _ vs); cbn [next_endpoint turn_page cdxfetcher params endpoint
                                page visited cdx_objs]; try done.
    + exists z0. rewrite Hl1. by rewrite lookup_insert_ne.
    + lia.
    + lia.
    + unfold first_page. rewrite (proj2 (Nat.eqb_neq _ _)) by lia. lia.
    + intros i Hi. destruct (decide (i = endpoint self)) as [->|Hne].
      * exists url, (page self + 1), n, (<["page" := VInt (page self + 1)]>
                                           (params_of l w0)), resp.
        repeat split; try done; try lia.
        -- by rewrite lookup_insert_eq.
        -- intros p Hp. apply Hpages. lia.
      * apply (drained_mono f w w0 w1 i _ vs); [apply Hdrained; lia|lia|done].
    + intros p Hp. unfold first_page in Hp.
      rewrite (proj2 (Nat.eqb_neq _ _)) in Hp by lia. lia.
  - (* a page: appended, and on to the next page *)
    apply params_of_heap_insert in Hheap as [Hl1 _].
    set (v := (endpoint self, page self + 1, ret)).
    apply (IH _ _ (vs ++ [v])); cbn [extend turn_page cdxfetcher params endpoint
                                       page visited cdx_objs]; try done.
    + rewrite Hl1. rewrite lookup_insert_ne in Hd' by done. rewrite Hz0 in Hd'.
      destruct Hd' as (v' & Hsub & ->). injection Hsub as <-.
      exists (z0 - Z.of_nat (length ret)). rewrite lookup_insert_eq.
      split; [done|lia].
    + lia.
    + rewrite Hvisited. by rewrite app_assoc.
    + rewrite Hbuf, records_of_snoc. by rewrite app_assoc.
    + apply Forall_app. split; [done|]. constructor; [|constructor].
      exists url, n, (<["page" := VInt (page self + 1)]> (params_of l w0)), resp.
      cbn. repeat split; try done. by rewrite lookup_insert_eq.
    + lia.
    + intros i Hi. apply (drained_mono f w w0 w1 i _ vs); [by apply Hdrained|lia|].
      intros x Hx. apply elem_of_app. by left.
    + intros p Hp. destruct (decide (p = page self + 1)) as [->|Hne].
      * exists ret. apply elem_of_app. right. by apply list_elem_of_singleton.
      * destruct (Hpages p) as [objs Hin]; [lia|].
        exists objs. apply elem_of_app. by left.
  - discriminate.
Qed.



(** ** The shared default dictionary *)

Lemma keys_kept_refl w : keys_kept w w.
Proof. by intros l k. Qed.

Lemma keys_kept_trans w1 w2 w3 :
  keys_kept w1 w2 -> keys_kept w2 w3 -> keys_kept w1 w3.
Proof. intros H12 H23 l k Hk. by apply H23, H12. Qed.

Lemma keys_kept_insert w w' l (d : gmap string pyval) :
  heap w' = <[l := d]> (heap w) ->
  (forall k, is_Some (params_of l w !! k) -> is_Some (d !! k)) ->
  keys_kept w w'.
Proof.
  intros Hheap Hd l' k Hk. apply params_of_heap_insert in Hheap as [Hl Hother].
  destruct (decide (l' = l)) as [->|Hne].
  - rewrite Hl. by apply Hd.
  - by rewrite Hother.
Qed.

Lemma get_for_iter_keys_kept `{Library} self index p l w r w' :
  get_for_iter_spec self index p l w r w' -> keys_kept w w'.
Proof.
  intros Hspec.
  destruct Hspec as [Ht|url n resp w1 _ _ _ _ _ _ Hheap
                    |url n resp w1 ret d' _ _ _ _ _ _ _ Hd' Hheap
                    |e w1 _ _ Hheap].
  - apply keys_kept_refl.
  - eapply keys_kept_insert; [done|]. intros k Hk.
    rewrite lookup_insert_is_Some. destruct (decide ("page" = k)); auto.
  - eapply keys_kept_insert; [done|]. intros k Hk.
    assert (Hpage : is_Some (<["page" := VInt p]> (params_of l w) !! k)).
    { rewrite lookup_insert_is_Some. destruct (decide ("page" = k)); auto. }
    destruct (_ !! "limit") as [v|].
    + destruct Hd' as (v' & _ & ->). rewrite lookup_insert_is_Some.
      destruct (decide ("limit" = k)); auto.
    + by subst d'.
  - eapply keys_kept_insert; [done|]. intros k Hk.
    rewrite lookup_insert_is_Some. destruct (decide ("page" = k)); auto.
Qed.

Lemma get_more_keys_kept `{Library} fuel self w r self' w' :
  get_more fuel (self, w) = Some (r, (self', w')) -> keys_kept w w'.
Proof.
  apply (get_more_rule (fun _ w1 => keys_kept w w1)); [|apply keys_kept_refl].
  intros s w0 r0 w1 Hkept Hspec. apply get_for_iter_keys_kept in Hspec.
  destruct r0 as [[[] objs]|e]; by eapply keys_kept_trans.
Qed.

Lemma next_keys_kept `{Library} fuel self w r self' w' :
  next fuel (self, w) = Some (r, (self', w')) -> keys_kept w w'.
Proof.
  revert self w. induction fuel as [|fuel IH]; intros self w; [discriminate|].
  rewrite next_unfold. destruct (cdx_objs self) as [|x objs].
  - destruct (get_more fuel (self, w)) as [[[u|e] [self1 w1]]|] eqn:Hmore;
      [| |done].
    + apply get_more_keys_kept in Hmore.
      destruct (length (cdx_objs self1) <=? 0)%nat.
      * by intros [= <- <- <-].
      * intros Hnext. eapply keys_kept_trans; [done|]. by eapply IH.
    + apply get_more_keys_kept in Hmore. by intros [= <- <- <-].
  - intros [= <- <- <-]. apply keys_kept_refl.
Qed.

Lemma CDXFetcherIter_init_unfold `{Library} fuel cdxfetcher params w :
  CDXFetcherIter_init fuel cdxfetcher params w =
    let l := default default_params params in
    if bool_decide (is_Some (params_of l w !! "page"))
    then Some (Raise reserved_page, w)
    else with_self (Iter cdxfetcher l 0 (-1) [] []) (get_more fuel)
           (set_heap w l (<["page" := VInt (-1)]> (params_of l w))).
Proof.
  unfold CDXFetcherIter_init, mbind, M_bind, deref, store. cbv zeta.
  fold (params_of (default default_params params) w).
  by destruct (bool_decide _).
Qed.

Lemma CDXFetcherIter_init_keys_kept `{Library} fuel cdxfetcher params w r w' :
  CDXFetcherIter_init fuel cdxfetcher params w = Some (r, w') ->
  is_Some (params_of (default default_params params) w' !! "page") /\
  keys_kept w w'.
Proof.
  rewrite CDXFetcherIter_init_unfold. cbv zeta.
  set (l := default default_params params).
  case_bool_decide as Hpage.
  - intros [= <- <-]. split; [done|apply keys_kept_refl].
  - unfold with_self.
    destruct (get_more fuel _) as [[[u|e] [self' w1]]|] eqn:Hmore; [| |done].
    all: apply get_more_keys_kept in Hmore; intros [= <- <-].
    all: assert (Hset : keys_kept w (set_heap w l
                          (<["page" := VInt (-1)]> (params_of l w)))).
    all: try (eapply keys_kept_insert; [reflexivity|]; intros k Hk;
              rewrite lookup_insert_is_Some;
              destruct (decide ("page" = k)); auto).
    all: split; [|by eapply keys_kept_trans].
    all: apply Hmore; rewrite params_of_set_heap, lookup_insert_eq; eauto.
Qed.

(** The refill leaves the iterator with the dictionary it had. *)
Lemma get_more_params `{Library} fuel self w r self' w' :
  get_more fuel (self, w) = Some (r, (self', w')) -> params self' = params self.
Proof.
  apply (get_more_rule (fun s _ => params s = params self)); [|done].
  intros s w0 r0 w1 Hs _. by destruct r0 as [[[] objs]|e].
Qed.

(** C9 (amended): the dictionary that
    [def __init__(self, cdxfetcher, params={})] uses as the default for
    [params] is one object for all calls.  A first construction with
    the default passes the guard, writes the page key into that
    dictionary and runs the first refill, on whose fetches its own
    success depends; an iterator that it returns holds that very
    dictionary.  However the first construction ends, the key is in the
    dictionary and stays, so every later construction with the default
    raises the reserved-page ValueError, although the caller set no
    page. *)
Theorem default_params_is_shared `{Library} fuel cdxfetcher w :
  heap w !! default_params = Some ∅ ->
  CDXFetcherIter_init fuel cdxfetcher None w =
    with_self (Iter cdxfetcher default_params 0 (-1) [] []) (get_more fuel)
      (set_heap w default_params {["page" := VInt (-1)]}) /\
  forall r w',
    CDXFetcherIter_init fuel cdxfetcher None w = Some (r, w') ->
    is_Some (params_of default_params w' !! "page") /\
    (forall it, r = Ok it -> params it = default_params) /\
    forall w'', keys_kept w' w'' ->
    forall fuel' cdxfetcher',
      CDXFetcherIter_init fuel' cdxfetcher' None w'' = Some (Raise reserved_page, w'').
Proof.
  intros Hfresh.
  assert (Hempty : params_of default_params w = ∅).
  { unfold params_of. by rewrite Hfresh. }
  assert (Hguard : CDXFetcherIter_init fuel cdxfetcher None w =
            with_self (Iter cdxfetcher default_params 0 (-1) [] []) (get_more fuel)
              (set_heap w default_params {["page" := VInt (-1)]})).
  { rewrite CDXFetcherIter_init_unfold. cbn. rewrite Hempty.
    rewrite bool_decide_eq_false_2; [reflexivity|].
    rewrite lookup_empty. by intros [? ?]. }
  split; [exact Hguard|].
  intros r w' Hinit.
  pose proof (CDXFetcherIter_init_keys_kept _ _ _ _ _ _ Hinit) as [Hpage _].
  split; [exact Hpage|]. split.
  - intros it ->. rewrite Hguard in Hinit. unfold with_self in Hinit.
    destruct (get_more fuel _) as [[[u|e] [self' w1]]|] eqn:Hmore; [|done..].
    injection Hinit as <- <-. by apply get_more_params in Hmore.
  - intros w'' Hkept fuel' cdxfetcher'.
    rewrite CDXFetcherIter_init_unfold. cbn.
    rewrite bool_decide_eq_true_2; [reflexivity|]. by apply Hkept.
Qed.

(** Every operation of the iterator keeps the keys. *)
Lemma iterator_keys_kept `{Library} :
  (forall fuel cdxfetcher params w r w',
     CDXFetcherIter_init fuel cdxfetcher params w = Some (r, w') -> keys_kept w w') /\
  (forall fuel self w r self' w',
     next fuel (self, w) = Some (r, (self', w')) -> keys_kept w w') /\
  (forall fuel self w r self' w',
     get_more fuel (self, w) = Some (r, (self', w')) -> keys_kept w w').
Proof.
  split; [|split].
  - intros * Hinit. by apply CDXFetcherIter_init_keys_kept in Hinit as [_ ?].
  - intros *. apply next_keys_kept.
  - intros *. apply get_more_keys_kept.
Qed.

Lemma default_params_is_shared_witness :
  exists it w',
    @CDXFetcherIter_init archive 9 archive_fetcher None world0 = Some (Ok it, w') /\
    cdx_objs it = [rec "a0"; rec "a1"; rec "a2"; rec "b0"; rec "b1"; rec "b2"] /\
    is_Some (params_of default_params w' !! "page") /\
    params it = default_params /\
    @CDXFetcherIter_init archive 9 archive_fetcher None w' =
      Some (Raise reserved_page, w').
Proof.
  destruct (@CDXFetcherIter_init archive 9 archive_fetcher None world0)
    as [[[it|e] w']|] eqn:Hinit; [|vm_compute in Hinit; discriminate..].
  exists it, w'.
  destruct (proj2 (@default_params_is_shared archive 9 archive_fetcher world0
                     eq_refl) (Ok it) w' Hinit) as (Hpage & Hsame & Hlater).
  split; [reflexivity|]. split.
  - vm_compute in Hinit. by injection Hinit as <- <-.
  - split; [exact Hpage|]. split; [by apply Hsame|].
    apply Hlater, keys_kept_refl.
Defined.

(** C9, as stated, fails: the first construction with the default need
    not succeed.  On a network that answers 500 it raises the HTTP
    error of its first fetch, after one request; the page key is in the
    default dictionary by then, and the next construction with the
    default is refused all the same. *)
Lemma first_construction_can_fail :
  @CDXFetcherIter_init
     (example_library (constant_net (Ok (Response 500 "Internal Server Error"))))
     9 archive_fetcher None world0 =
    Some (Raise (RequestException (HTTPError 500)),
          World 1 0 {[default_params := {["page" := VInt 0]}]}) /\
  @CDXFetcherIter_init
     (example_library (constant_net (Ok (Response 500 "Internal Server Error"))))
     9 archive_fetcher None (World 1 0 {[default_params := {["page" := VInt 0]}]}) =
    Some (Raise reserved_page,
          World 1 0 {[default_params := {["page" := VInt 0]}]}).
Proof. split; vm_compute; reflexivity. Qed.

(** ** Order of the iteration *)

Lemma get_more_in_order `{Library} f delivered fuel self w r self' w' :
  in_order f delivered self ->
  get_more fuel (self, w) = Some (r, (self', w')) ->
  in_order f delivered self'.
Proof.
  apply (get_more_rule (fun s _ => in_order f delivered s)). clear.
  intros s w r w1 (Hf & Hpage & Hsorted & Hbehind & Hserved & Hbuf) Hspec.
  assert (Hturn : in_order f delivered (turn_page s)).
  { repeat split; cbn; try done; [lia|].
    eapply Forall_impl; [exact Hbehind|]. intros v [?|[? ?]]; [by left|right].
    cbn in *. split; [done|lia]. }
  destruct Hspec as [Ht|url n resp w1 _ _ _ _ _ _ _
                    |url n resp w1 ret d' _ Hurl Hget _ _ N400 Hjson _ _
                    |e w1 _ _ _]; [done| |  |done].
  - repeat split; cbn; try done.
    eapply Forall_impl; [exact Hbehind|]. intros v [?|[? ?]]; left; cbn in *; lia.
  - repeat split; cbn; try done; [lia|..].
    + rewrite fmap_app. apply StronglySorted_app. split; [|split; [done|]].
      * intros a b Ha Hb. cbn in Hb. apply list_elem_of_singleton in Hb as ->.
        apply list_elem_of_fmap in Ha as (v & -> & Hv).
        rewrite Forall_forall in Hbehind. destruct (Hbehind v Hv) as [?|[? ?]].
        -- by left.
        -- right. cbn in *. split; [done|lia].
      * cbn. by repeat constructor.
    + apply Forall_app. split.
      * eapply Forall_impl; [exact Hbehind|]. intros v [?|[? ?]]; [by left|right].
        cbn in *. split; [done|lia].
      * constructor; [|done]. right. cbn. split; [done|lia].
    + apply Forall_app. split; [done|]. constructor; [|done].
      exists url, n, (<["page" := VInt (page s + 1)]> (params_of (params s) w)), resp.
      cbn. rewrite <- Hf. repeat split; try done. by rewrite lookup_insert_eq.
    + unfold records_of. rewrite fmap_app, concat_app. cbn.
      rewrite app_nil_r, app_assoc. f_equal. exact Hbuf.
Qed.

Lemma get_more_endpoint_mono `{Library} fuel self w r self' w' :
  get_more fuel (self, w) = Some (r, (self', w')) ->
  (endpoint self <= endpoint self')%nat.
Proof.
  apply (get_more_rule (fun s _ => (endpoint self <= endpoint s)%nat)); [|done].
  intros s w0 r0 w1 Hle _. destruct r0 as [[[] objs]|e]; cbn; lia.
Qed.

Lemma next_in_order `{Library} f delivered fuel self w r self' w' :
  in_order f delivered self ->
  next fuel (self, w) = Some (r, (self', w')) ->
  (endpoint self <= endpoint self')%nat /\
  match r with
  | Ok x => in_order f (delivered ++ [x]) self'
  | Raise _ => in_order f delivered self'
  end.
Proof.
  revert self w. induction fuel as [|fuel IH]; intros self w Hin; [discriminate|].
  rewrite next_unfold. destruct (cdx_objs self) as [|x objs] eqn:Hobjs.
  - destruct (get_more fuel (self, w)) as [[[u|e] [self1 w1]]|] eqn:Hmore;
      [| |done].
    + pose proof (get_more_endpoint_mono _ _ _ _ _ _ Hmore) as Hmono.
      apply (get_more_in_order f delivered) in Hmore; [|done].
      destruct (length (cdx_objs self1) <=? 0)%nat.
      * by intros [= <- <- <-].
      * intros Hnext. apply IH in Hnext as [Hmono' Hin']; [|done].
        split; [lia|done].
    + pose proof (get_more_endpoint_mono _ _ _ _ _ _ Hmore) as Hmono.
      apply (get_more_in_order f delivered) in Hmore; [|done].
      by intros [= <- <- <-].
  - intros [= <- <- <-]. split; [done|].
    destruct Hin as (Hf & Hpage & Hsorted & Hbehind & Hserved & Hbuf).
    repeat split; try done. unfold pop. cbn [cdx_objs visited].
    rewrite <- app_assoc. cbn [app]. by rewrite <- Hobjs.
Qed.

Lemma take_records_unfold `{Library} fuel n s :
  take_records fuel (S n) s =
    match next fuel s with
    | None => None
    | Some (Ok x, s') =>
        match take_records fuel n s' with
        | Some (Ok xs, s'') => Some (Ok (x :: xs), s'')
        | Some (Raise e, s'') => Some (Raise e, s'')
        | None => None
        end
    | Some (Raise StopIteration, s') => Some (Ok [], s')
    | Some (Raise e, s') => Some (Raise e, s')
    end.
Proof.
  cbn [take_records]. unfold mbind, M_bind, try_except.
  destruct (next fuel s) as [[[x|e] s']|]; [|by destruct e|done].
  cbn. by destruct (take_records fuel n s') as [[[xs|e] s'']|].
Qed.

Lemma take_records_in_order `{Library} f fuel n :
  forall delivered self w recs self' w',
    in_order f delivered self ->
    take_records fuel n (self, w) = Some (Ok recs, (self', w')) ->
    (endpoint self <= endpoint self')%nat /\
    in_order f (delivered ++ recs) self'.
Proof.
  induction n as [|n IH]; intros delivered self w recs self' w' Hin.
  - intros [= <- <- <-]. by rewrite app_nil_r.
  - rewrite take_records_unfold.
    destruct (next fuel (self, w)) as [[[x|e] [self1 w1]]|] eqn:Hnext; [| |done].
    + apply (next_in_order f delivered) in Hnext as [Hmono Hin1]; [|done].
      destruct (take_records fuel n (self1, w1)) as [[[xs|e] [self2 w2]]|] eqn:Htake;
        [|done..].
      intros [= <- <- <-].
      apply (IH (delivered ++ [x])) in Htake as [Hmono' Hin2]; [|done].
      split; [lia|]. by rewrite <- app_assoc in Hin2.
    + apply (next_in_order f delivered) in Hnext as [Hmono Hin1]; [|done].
      destruct e; try done. intros [= <- <- <-]. by rewrite app_nil_r.
Qed.

Lemma next_endpoint_mono `{Library} fuel self w r self' w' :
  next fuel (self, w) = Some (r, (self', w')) ->
  (endpoint self <= endpoint self')%nat.
Proof.
  revert self w. induction fuel as [|fuel IH]; intros self w; [discriminate|].
  rewrite next_unfold. destruct (cdx_objs self) as [|x objs].
  - destruct (get_more fuel (self, w)) as [[[u|e] [self1 w1]]|] eqn:Hmore;
      [| |done]; apply get_more_endpoint_mono in Hmore.
    + destruct (length (cdx_objs self1) <=? 0)%nat.
      * by intros [= <- <- <-].
      * intros Hnext. apply IH in Hnext. lia.
    + by intros [= <- <- <-].
  - by intros [= <- <- <-].
Qed.

Lemma CDXFetcherIter_init_in_order `{Library} fuel cdxfetcher params w it w1 :
  CDXFetcherIter_init fuel cdxfetcher params w = Some (Ok it, w1) ->
  in_order cdxfetcher [] it.
Proof.
  rewrite CDXFetcherIter_init_unfold. cbv zeta. case_bool_decide; [done|].
  unfold with_self.
  destruct (get_more fuel _) as [[[u|e] [self' w']]|] eqn:Hmore; [|done..].
  intros [= <- <-]. eapply get_more_in_order; [|exact Hmore].
  repeat split; cbn; try done; constructor.
Qed.

(** C8: the endpoint index never decreases, in a refill or in a call
    of [next]; and however many records a consumer takes from a new
    iterator, the pages fetched so far are in increasing order of
    (endpoint index, page number), each is a page served by the
    endpoint at its index of the list, and the records delivered
    followed by those still buffered are the records of these pages, in
    that order and in the order of each page. *)
Theorem iteration_order `{Library} :
  (forall fuel self w r self' w',
     get_more fuel (self, w) = Some (r, (self', w')) ->
     (endpoint self <= endpoint self')%nat) /\
  (forall fuel self w r self' w',
     next fuel (self, w) = Some (r, (self', w')) ->
     (endpoint self <= endpoint self')%nat) /\
  (forall fuel cdxfetcher params w it w1 fuel' n recs it' w2,
     CDXFetcherIter_init fuel cdxfetcher params w = Some (Ok it, w1) ->
     take_records fuel' n (it, w1) = Some (Ok recs, (it', w2)) ->
     (endpoint it <= endpoint it')%nat /\
     StronglySorted cursor_lt (fst <$> visited it') /\
     Forall (served cdxfetcher) (visited it') /\
     recs ++ cdx_objs it' = records_of (visited it')).
Proof.
  split; [|split].
  - intros *. apply get_more_endpoint_mono.
  - intros *. apply next_endpoint_mono.
  - intros fuel f ps w it w1 fuel' n recs it' w2 Hinit Htake.
    apply CDXFetcherIter_init_in_order in Hinit.
    apply (take_records_in_order f _ _ []) in Htake as [Hmono Hin];
      [|done].
    destruct Hin as (_ & _ & Hsorted & _ & Hserved & Hbuf). done.
Qed.

(** On the archive of the examples: the first four of the six records,
    those of the first endpoint before those of the second. *)
Lemma iteration_order_witness :
  exists it w1 it' w2,
    @CDXFetcherIter_init archive 9 archive_fetcher None world0 = Some (Ok it, w1) /\
    @take_records archive 9 4 (it, w1) =
      Some (Ok [rec "a0"; rec "a1"; rec "a2"; rec "b0"], (it', w2)) /\
    fst <$> visited it' = [(0%nat, 0); (0%nat, 1); (1%nat, 0)] /\
    (endpoint it <= endpoint it')%nat /\
    StronglySorted cursor_lt (fst <$> visited it') /\
    Forall (@served archive archive_fetcher) (visited it') /\
    [rec "a0"; rec "a1"; rec "a2"; rec "b0"] ++ cdx_objs it' =
      records_of (visited it').
Proof.
  eexists _, _, _, _. split; [vm_compute; reflexivity|].
  split; [vm_compute; reflexivity|]. split; [reflexivity|].
  eapply (proj2 (proj2 (@iteration_order archive)) 9%nat archive_fetcher None
            world0 _ _ 9%nat 4%nat).
  - vm_compute. reflexivity.
  - vm_compute. reflexivity.
Defined.

(** ** The limit *)

Lemma get_loop_bound `{Library} fuel :
  honours_limit ->
  forall endpoints (params : gmap string pyval) ret w out w' limit,
    params !! "limit" = Some (VInt limit) -> 0 <= limit ->
    get_loop fuel endpoints params ret w = Some (Ok out, w') ->
    Z.of_nat (length out) <= Z.of_nat (length ret) + limit.
Proof.
  intros Hhonest. induction endpoints as [|endpoint endpoints IH];
    intros params ret w out w' limit Hlimit Hpos.
  - intros [= <- <-]. lia.
  - cbn [get_loop]. intros Hrun.
    apply bind_inv in Hrun as [(resp & w1 & Hget & Hrun)|(e & _ & [=])].
    apply bind_inv in Hrun as [(objs & w2 & Hjson & Hrun)|(e & _ & [=])].
    unfold lift_result in Hjson. injection Hjson as Hjson <-.
    apply myrequests_get_Ok in Hget as (n & _ & _ & Hret).
    apply classify_Returns in Hret.
    pose proof (Hhonest _ _ _ _ _ _ Hret Hjson Hlimit Hpos) as Hlen.
    rewrite Hlimit in Hrun. cbn in Hrun.
    unfold mbind, M_bind, lift_result in Hrun. cbn in Hrun.
    destruct (Z.leb_spec (limit - Z.of_nat (length objs)) 0) as [Hstop|Hgo].
    + injection Hrun as <- <-. rewrite length_app. lia.
    + apply IH with (limit := limit - Z.of_nat (length objs)) in Hrun;
        [|by rewrite lookup_insert_eq|lia].
      rewrite length_app in Hrun. lia.
Qed.

Lemma get_more_within_budget `{Library} L l fuel self w r self' w' :
  honours_limit ->
  within_budget L l self w ->
  get_more fuel (self, w) = Some (r, (self', w')) ->
  within_budget L l self' w'.
Proof.
  intros Hhonest. apply (get_more_rule (within_budget L l)). clear -Hhonest.
  intros s w r w1 (Hl & limit & Hlimit & Hpos & Htotal) Hspec.
  rewrite <- Hl in Hlimit.
  assert (Hd : <["page" := VInt (page s + 1)]> (params_of (params s) w) !! "limit"
               = Some (VInt limit)) by by rewrite lookup_insert_ne.
  destruct Hspec as [Ht|url n resp w1 _ _ _ _ _ _ Hheap
                    |url n resp w1 ret d' _ _ Hget _ _ _ Hjson Hd' Hheap
                    |e w1 _ _ Hheap].
  - split; [done|]. exists limit. by rewrite <- Hl.
  - apply params_of_heap_insert in Hheap as [Hnew _].
    split; [done|]. exists limit. rewrite <- Hl, Hnew. done.
  - apply params_of_heap_insert in Hheap as [Hnew _].
    pose proof (Hhonest _ _ _ _ _ _ Hget Hjson Hd Hpos) as Hlen.
    rewrite Hd in Hd'. destruct Hd' as (v' & Hsub & ->). injection Hsub as <-.
    split; [done|]. exists (limit - Z.of_nat (length ret)).
    rewrite <- Hl, Hnew, lookup_insert_eq. split; [done|]. split; [lia|].
    cbn. unfold records_of in *. rewrite fmap_app, concat_app, length_app.
    cbn. rewrite app_nil_r. lia.
  - apply params_of_heap_insert in Hheap as [Hnew _].
    split; [done|]. exists limit. rewrite <- Hl, Hnew. done.
Qed.

Lemma next_within_budget `{Library} L l fuel self w r self' w' :
  honours_limit ->
  within_budget L l self w ->
  next fuel (self, w) = Some (r, (self', w')) ->
  within_budget L l self' w'.
Proof.
  intros Hhonest. revert self w.
  induction fuel as [|fuel IH]; intros self w Hin; [discriminate|].
  rewrite next_unfold. destruct (cdx_objs self) as [|x objs].
  - destruct (get_more fuel (self, w)) as [[[u|e] [self1 w1]]|] eqn:Hmore;
      [| |done]; apply (get_more_within_budget L l) in Hmore; try done.
    + destruct (length (cdx_objs self1) <=? 0)%nat.
      * by intros [= <- <- <-].
      * by apply IH.
    + by intros [= <- <- <-].
  - by intros [= <- <- <-].
Qed.

Lemma take_records_within_budget `{Library} L l fuel n :
  honours_limit ->
  forall self w r self' w',
    within_budget L l self w ->
    take_records fuel n (self, w) = Some (r, (self', w')) ->
    within_budget L l self' w'.
Proof.
  intros Hhonest. induction n as [|n IH]; intros self w r self' w' Hin.
  - by intros [= <- <- <-].
  - rewrite take_records_unfold.
    destruct (next fuel (self, w)) as [[[x|e] [self1 w1]]|] eqn:Hnext; [| |done];
      apply (next_within_budget L l) in Hnext; try done.
    + destruct (take_records fuel n (self1, w1)) as [[[xs|e] [self2 w2]]|] eqn:Htake;
        [| |done]; apply IH in Htake; try done; by intros [= <- <- <-].
    + destruct e; by intros [= <- <- <-].
Qed.

Lemma items_unfold `{Library} fuel self url kwargs w :
  items fuel self url kwargs w =
    let l := fresh (dom (heap w)) in
    CDXFetcherIter_init fuel self (Some l)
      (set_heap w l (<["output" := VStr "json"]> (<["url" := VStr url]> kwargs))).
Proof. reflexivity. Qed.

(** C1 (amended): for a limit [L >= 0] and servers that honour the
    limit they are sent, one bounded query returns at most [L] records
    and one iteration delivers at most [L] records, however many are
    asked for. *)
Theorem limit_bounds_delivery `{Library} (L : Z) :
  0 <= L -> honours_limit ->
  (forall fuel self url kwargs w ret w',
     kwargs !! "limit" = Some (VInt L) ->
     get fuel self url kwargs w = Some (Ok ret, w') ->
     Z.of_nat (length ret) <= L) /\
  (forall fuel self url kwargs w it w1 fuel' n recs it' w2,
     kwargs !! "limit" = Some (VInt L) ->
     items fuel self url kwargs w = Some (Ok it, w1) ->
     take_records fuel' n (it, w1) = Some (Ok recs, (it', w2)) ->
     Z.of_nat (length recs) <= L).
Proof.
  intros Hpos Hhonest. split.
  - intros fuel self url kwargs w ret w' Hlimit. unfold get.
    assert (Hparams : <["output" := VStr "json"]> (<["url" := VStr url]> kwargs)
                        !! "limit" = Some (VInt L)).
    { by rewrite !lookup_insert_ne. }
    rewrite bool_decide_eq_false_2 by (by rewrite Hparams).
    intros Hrun. by apply (get_loop_bound _ Hhonest _ _ _ _ _ _ _ Hparams Hpos) in Hrun.
  - intros fuel self url kwargs w it w1 fuel' n recs it' w2 Hlimit Hitems Htake.
    rewrite items_unfold in Hitems. cbv zeta in Hitems.
    set (l := fresh (dom (heap w))) in Hitems.
    set (p := <["output" := VStr "json"]> (<["url" := VStr url]> kwargs)) in Hitems.
    pose proof (CDXFetcherIter_init_in_order _ _ _ _ _ _ Hitems) as Horder.
    assert (Hbudget : within_budget L l it w1).
    { rewrite CDXFetcherIter_init_unfold in Hitems. cbv zeta in Hitems.
      cbn [default] in Hitems. rewrite params_of_set_heap in Hitems.
      case_bool_decide; [done|]. unfold with_self in Hitems.
      destruct (get_more fuel _) as [[[u|e] [self' w']]|] eqn:Hmore; [|done..].
      injection Hitems as <- <-.
      apply (get_more_within_budget L l) in Hmore; [done..|].
      split; [done|]. exists L. rewrite params_of_set_heap.
      split; [|by split]. subst p. by rewrite !lookup_insert_ne. }
    pose proof (take_records_within_budget L l _ _ Hhonest _ _ _ _ _ Hbudget Htake)
      as (_ & limit & _ & Hleft & Htotal).
    apply (take_records_in_order self _ _ []) in Htake as [_ Hin]; [|done].
    destruct Hin as (_ & _ & _ & _ & _ & Hbuf). cbn in Hbuf.
    rewrite <- Hbuf, length_app in Htotal. lia.
Qed.

Lemma polite_honours_limit : @honours_limit polite.
Proof.
  intros n url d resp objs limit Hget Hjson Hlimit Hpos.
  cbn in Hget. unfold polite_net in Hget. cbn in Hget. rewrite Hlimit in Hget.
  destruct (Z.leb_spec 2 limit); [|destruct (Z.leb_spec 1 limit)];
    injection Hget as <-; vm_compute in Hjson; injection Hjson as <-; cbn; lia.
Qed.

(** With a limit of 3 and two endpoints, the polite server gives two
    records and then one: the query returns 3 records, and so does the
    iteration. *)
Lemma limit_bounds_delivery_witness :
  (exists ret w',
     @get polite 9 archive_fetcher "example.com/*" {["limit" := VInt 3]} world0 =
       Some (Ok ret, w') /\
     length ret = 3%nat /\ Z.of_nat (length ret) <= 3) /\
  (exists it w1 recs it' w2,
     @items polite 9 archive_fetcher "example.com/*" {["limit" := VInt 3]} world0 =
       Some (Ok it, w1) /\
     @take_records polite 9 10 (it, w1) = Some (Ok recs, (it', w2)) /\
     length recs = 3%nat /\ Z.of_nat (length recs) <= 3).
Proof.
  split.
  - eexists _, _. split; [vm_compute; reflexivity|]. split; [reflexivity|].
    eapply (proj1 (@limit_bounds_delivery polite 3 ltac:(lia) polite_honours_limit)
              9%nat archive_fetcher "example.com/*" {["limit" := VInt 3]} world0).
    + reflexivity.
    + vm_compute. reflexivity.
  - eexists _, _, _, _, _. split; [vm_compute; reflexivity|].
    split; [vm_compute; reflexivity|]. split; [reflexivity|].
    eapply (proj2 (@limit_bounds_delivery polite 3 ltac:(lia) polite_honours_limit)
              9%nat archive_fetcher "example.com/*" {["limit" := VInt 3]} world0
              _ _ 9%nat 10%nat).
    + reflexivity.
    + vm_compute. reflexivity.
    + vm_compute. reflexivity.
Defined.

(** C1, as stated, fails: the archive of the examples does not look at
    the limit, and with a limit of 1 the bounded query returns the two
    records of the first page, and the iteration delivers all six
    records of the archive. *)
Lemma limit_overshoot :
  (exists w',
     @get archive 9 archive_fetcher "example.com/*" {["limit" := VInt 1]} world0 =
       Some (Ok [rec "a0"; rec "a1"], w')) /\
  (exists it w1 s,
     @items archive 9 archive_fetcher "example.com/*" {["limit" := VInt 1]} world0 =
       Some (Ok it, w1) /\
     @take_records archive 9 10 (it, w1) =
       Some (Ok [rec "a0"; rec "a1"; rec "a2"; rec "b0"; rec "b1"; rec "b2"], s)).
Proof.
  split.
  - eexists. vm_compute. reflexivity.
  - eexists _, _, _. split; [vm_compute; reflexivity|].
    vm_compute. reflexivity.
Qed.

(** ** The refill *)

Lemma get_more_at_terminal `{Library} fuel self w :
  terminal (cdxfetcher self) (endpoint self) (params_of (params self) w) ->
  get_more (S fuel) (self, w) = Some (Ok tt, (turn_page self, w)).
Proof.
  intros Hterm. rewrite get_more_unfold. cbv zeta. cbn [turn_page cdxfetcher endpoint
    page params]. rewrite get_for_iter_unfold.
  destruct Hterm as [Hlen|Hzero].
  - apply Nat.leb_le in Hlen. by rewrite Hlen.
  - rewrite Hzero. by destruct (_ <=? _)%nat.
Qed.

(** The refill only appends to the buffer. *)
Lemma get_more_appends `{Library} fuel self w r self' w' :
  get_more fuel (self, w) = Some (r, (self', w')) ->
  exists more, cdx_objs self' = cdx_objs self ++ more.
Proof.
  apply (get_more_rule (fun s _ => exists more, cdx_objs s = cdx_objs self ++ more)).
  - intros s w0 r0 w1 [more Hmore] _.
    destruct r0 as [[[] objs]|e]; cbn; rewrite Hmore; eauto.
    exists (more ++ objs). by rewrite app_assoc.
  - exists []. by rewrite app_nil_r.
Qed.

(** Requests are only ever added to those sent. *)
Lemma get_more_clock_mono `{Library} fuel self w r self' w' :
  get_more fuel (self, w) = Some (r, (self', w')) -> (clock w <= clock w')%nat.
Proof.
  apply (get_more_rule (fun _ w1 => (clock w <= clock w1)%nat)); [|done].
  intros s w0 r0 w1 Hle Hspec.
  assert (clock w0 <= clock w1)%nat.
  { destruct Hspec as [_|url n resp w1 _ _ _ Hn Hclock _ _
                      |url n resp w1 ret d' _ _ _ Hn Hclock _ _ _ _
                      |e w1 _ Hclock _]; lia. }
  destruct r0 as [[[] objs]|e]; cbn; lia.
Qed.

(** Away from the terminal outcome, a refill sends a request. *)
Lemma get_more_sends `{Library} fuel self w r self' w' :
  ~ terminal (cdxfetcher self) (endpoint self) (params_of (params self) w) ->
  get_more fuel (self, w) = Some (r, (self', w')) ->
  (clock w < clock w')%nat.
Proof.
  intros Hterm. destruct fuel as [|fuel]; [discriminate|].
  rewrite get_more_unfold. cbv zeta.
  destruct (get_for_iter _ _ _ _ _ w) as [[[[status objs]|e] w1]|] eqn:Hget;
    [| |done].
  - apply get_for_iter_outcome in Hget. cbn in Hget.
    assert (clock w < clock w1)%nat.
    { destruct Hget as [Ht|url n resp w1 _ _ _ Hn Hclock _ _
                       |url n resp w1 ret d' _ _ _ Hn Hclock _ _ _ _
                       |e w1 _ Hclock _]; [done|lia..]. }
    destruct status.
    + intros [= <- <- <-]. done.
    + intros Hmore%get_more_clock_mono. lia.
    + intros Hmore%get_more_clock_mono. lia.
  - apply get_for_iter_outcome in Hget. cbn in Hget.
    intros [= <- <- <-].
    inversion Hget; subst. lia.
Qed.

(** C2 (code bug): a refill that obtains a page, empty or not, does not
    stop there.  It appends the page to the buffer and goes round the
    loop again from the extended buffer: unless the limit of the
    dictionary is then exactly zero it sends at least one more request,
    it keeps what it has appended, and if it ends normally it ends at
    the terminal outcome (endpoint index past the end of the list, or
    limit exactly zero), not at the first page that yields records. *)
Theorem refill_goes_on_after_a_page `{Library} fuel self w objs w1 :
  get_for_iter fuel (cdxfetcher self) (endpoint self) (page self + 1)
    (params self) w = Some (Ok (ok, objs), w1) ->
  get_more (S fuel) (self, w) = get_more fuel (extend (turn_page self) objs, w1) /\
  forall r self' w',
    get_more (S fuel) (self, w) = Some (r, (self', w')) ->
    (exists more, cdx_objs self' = cdx_objs self ++ objs ++ more) /\
    (limit_is_zero (params_of (params self) w1) = false ->
     (clock w1 < clock w')%nat) /\
    (forall u, r = Ok u ->
     terminal (cdxfetcher self') (endpoint self') (params_of (params self') w')).
Proof.
  intros Hget.
  assert (Hstep : get_more (S fuel) (self, w) =
                  get_more fuel (extend (turn_page self) objs, w1)).
  { rewrite get_more_unfold. cbv zeta. cbn [turn_page cdxfetcher endpoint page params].
    by rewrite Hget. }
  split; [done|]. intros r self' w'. rewrite Hstep. intros Hmore.
  split; [|split].
  - destruct (get_more_appends _ _ _ _ _ _ Hmore) as [more Hbuf].
    exists more. rewrite Hbuf. cbn. by rewrite app_assoc.
  - intros Hlimit. eapply get_more_sends; [|exact Hmore].
    apply get_for_iter_outcome in Hget.
    assert (Hlen : (endpoint self < length (index_list (cdxfetcher self)))%nat).
    { inversion Hget as [| |url n resp w2 ret d' Hterm Hurl|]; subst.
      by eapply lookup_lt_Some. }
    cbn. intros [?|Hzero]; [lia|congruence].
  - intros u ->. by eapply get_more_Ok_terminal.
Qed.

(** On the archive: the first page of the first endpoint has two
    records, and the refill goes on to send four more requests and to
    buffer the four records of the two other pages. *)
Lemma refill_goes_on_after_a_page_witness :
  exists self' w',
    @get_more archive 9 (Iter archive_fetcher 0 0 (-1) [] [], world0) =
      Some (Ok tt, (self', w')) /\
    cdx_objs self' =
      [rec "a0"; rec "a1"; rec "a2"; rec "b0"; rec "b1"; rec "b2"] /\
    clock w' = 5%nat /\
    (exists more, cdx_objs self' = [] ++ [rec "a0"; rec "a1"] ++ more) /\
    (1 < clock w')%nat /\
    terminal archive_fetcher (endpoint self') (params_of 0 w').
Proof.
  assert (Hget : @get_for_iter archive 8 archive_fetcher 0 (-1 + 1) 0 world0 =
                 Some (Ok (ok, [rec "a0"; rec "a1"]),
                       World 1 0 {[default_params := {["page" := VInt 0]}]})).
  { vm_compute. reflexivity. }
  destruct (@refill_goes_on_after_a_page archive 8
              (Iter archive_fetcher 0 0 (-1) [] []) world0
              [rec "a0"; rec "a1"]
              (World 1 0 {[default_params := {["page" := VInt 0]}]}) Hget)
    as [_ Hafter].
  destruct (@get_more archive 9 (Iter archive_fetcher 0 0 (-1) [] [], world0))
    as [[[[]|e] [self' w']]|] eqn:Hmore; [|vm_compute in Hmore; discriminate..].
  exists self', w'.
  destruct (Hafter (Ok tt) self' w' eq_refl) as (Hbuf & Hclock & Hterm).
  vm_compute in Hmore. injection Hmore as <- <-.
  split; [reflexivity|]. split; [reflexivity|]. split; [reflexivity|].
  split; [exact Hbuf|]. split; [apply Hclock; reflexivity|].
  apply (Hterm tt eq_refl).
Defined.

(** The same run seen by the caller.  On the archive, the construction
    of the iterator sends five requests and buffers the six records of
    all three pages before anything is asked for; so does a call of
    [next] on the empty buffer of a new iterator. *)
Lemma refill_is_eager :
  (exists it w1,
     @CDXFetcherIter_init archive 9 archive_fetcher None world0 = Some (Ok it, w1) /\
     clock w1 = 5%nat /\
     fst <$> visited it = [(0%nat, 0); (0%nat, 1); (1%nat, 0)] /\
     length (cdx_objs it) = 6%nat) /\
  (exists it' w',
     @next archive 9 (Iter archive_fetcher 0 0 (-1) [] [], world0) =
       Some (Ok (rec "a0"), (it', w')) /\
     clock w' = 5%nat /\ length (cdx_objs it') = 5%nat).
Proof.
  split.
  - eexists _, _. split; [vm_compute; reflexivity|]. by repeat split.
  - eexists _, _. split; [vm_compute; reflexivity|]. by split.
Qed.

(** ** More on the transient-fault HTTP layer *)

Lemma classify_transient params out :
  transient out = true -> classify params out = Retries.
Proof.
  unfold transient, classify. destruct out as [resp|e].
  - intros Hin. apply bool_decide_eq_true in Hin.
    assert (status_code resp <> 400 /\ status_code resp <> 404) as [N400 N404].
    { set_unfold in Hin. lia. }
    apply Z.eqb_neq in N400, N404. rewrite N400, N404.
    by rewrite bool_decide_eq_true_2.
  - by destruct e.
Qed.

Lemma classify_passes params resp :
  ~ (400 <= status_code resp < 600) -> classify params (Ok resp) = Returns resp.
Proof.
  intros Hout. unfold classify.
  destruct (Z.eqb_spec (status_code resp) 400); [lia|].
  destruct (Z.eqb_spec (status_code resp) 404); [lia|].
  rewrite bool_decide_eq_false_2 by (set_unfold; lia).
  destruct (Z.leb_spec 400 (status_code resp)),
           (Z.ltb_spec (status_code resp) 600); cbn; try reflexivity; lia.
Qed.

Lemma myrequests_get_retries `{Library} k fuel url params w :
  (forall i, (i < k)%nat ->
             transient (requests_get (clock w + i) url params) = true) ->
  myrequests_get (k + fuel) url params w =
    myrequests_get fuel url params (later w k (Z.of_nat k)).
Proof.
  revert w. induction k as [|k IH]; intros w Htransient.
  - cbn. destruct w as [c s h]. unfold later. cbn.
    by rewrite Nat.add_0_r, Z.add_0_r.
  - replace (S k + fuel)%nat with (S (k + fuel)) by lia.
    rewrite myrequests_get_step.
    rewrite classify_transient
      by (specialize (Htransient 0%nat); rewrite Nat.add_0_r in Htransient;
          apply Htransient; lia).
    rewrite IH.
    + unfold later, tick_sleep. cbn. do 2 f_equal; lia.
    + intros i Hi. specialize (Htransient (S i)).
      rewrite Nat.add_succ_r in Htransient. apply Htransient. lia.
Qed.

(** X1: if the first [k] answers are transient and the next one is a
    response with a status outside 400..599, [myrequests_get] returns
    that response after [k + 1] requests and [k] seconds of sleep,
    whatever fuel above [k] it is given. *)
Theorem myrequests_get_after_retries `{Library} k fuel url params w resp :
  (forall i, (i < k)%nat ->
             transient (requests_get (clock w + i) url params) = true) ->
  requests_get (clock w + k) url params = Ok resp ->
  ~ (400 <= status_code resp < 600) ->
  (k < fuel)%nat ->
  myrequests_get fuel url params w =
    Some (Ok resp, later w (S k) (Z.of_nat k)).
Proof.
  intros Htransient Hanswer Hstatus Hfuel.
  replace fuel with (k + S (fuel - k - 1))%nat by lia.
  rewrite myrequests_get_retries by done.
  rewrite myrequests_get_step. cbn [later clock].
  rewrite Hanswer, classify_passes by done.
  unfold tick, later. cbn. do 3 f_equal. lia.
Qed.

Lemma myrequests_get_after_retries_witness :
  @myrequests_get (example_library (flaky_net 3)) 5 cc_endpoint
     (Some {["url" := VStr "example.com/*"]}) world0 =
    Some (Ok (Response 200 (jq "{'url': 'a0'}" +:+ nl)), World 4 3 initial_heap).
Proof.
  apply (@myrequests_get_after_retries (example_library (flaky_net 3)) 3 5
           cc_endpoint (Some {["url" := VStr "example.com/*"]}) world0).
  - intros i Hi. cbn. unfold flaky_net.
    destruct (Nat.ltb_spec i 3); [reflexivity|lia].
  - reflexivity.
  - cbn. lia.
  - lia.
Defined.

(** X2: a response that [myrequests_get] returns is the answer to the
    last request sent; its status is 404, or 400 with a page key among
    the parameters, or outside 400..599; and no dictionary of the heap
    has changed. *)
Theorem myrequests_get_returns_only `{Library} fuel url params w resp w' :
  myrequests_get fuel url params w = Some (Ok resp, w') ->
  (exists n, clock w' = S n /\ (clock w <= n)%nat /\
             requests_get n url params = Ok resp) /\
  (status_code resp = 404 \/
   (status_code resp = 400 /\
    exists d : gmap string pyval, params = Some d /\ is_Some (d !! "page")) \/
   ~ (400 <= status_code resp < 600)) /\
  heap w' = heap w.
Proof.
  intros Hget.
  destruct (myrequests_get_frame _ _ _ _ _ _ Hget) as (Hheap & _ & _).
  apply myrequests_get_Ok in Hget as (n & Hn & Hclock & Hret).
  pose proof (classify_Returns _ _ _ Hret) as Hout.
  split; [by exists n|]. split; [|done].
  rewrite Hout in Hret. unfold classify in Hret.
  destruct (Z.eqb_spec (status_code resp) 400) as [E400|N400].
  - right. left. split; [done|]. destruct params as [d|]; [|done].
    exists d. split; [done|]. case_bool_decide as Hpage; [done|].
    by destruct (d !! "page"); [eexists|].
  - destruct (Z.eqb_spec (status_code resp) 404); [by left|].
    case_bool_decide; [done|]. right. right.
    destruct (Z.leb_spec 400 (status_code resp)),
             (Z.ltb_spec (status_code resp) 600); cbn in Hret; try done; lia.
Qed.

Lemma myrequests_get_returns_only_witness :
  exists resp w',
    @myrequests_get archive 5 "http://a" (Some {["page" := VInt 7]}) world0 =
      Some (Ok resp, w') /\
    (exists n, clock w' = S n /\ (clock world0 <= n)%nat /\
               @requests_get archive n "http://a" (Some {["page" := VInt 7]}) = Ok resp) /\
    (status_code resp = 404 \/
     (status_code resp = 400 /\
      exists d : gmap string pyval,
        Some {["page" := VInt 7]} = Some d /\ is_Some (d !! "page")) \/
     ~ (400 <= status_code resp < 600)) /\
    heap w' = heap world0.
Proof.
  eexists _, _. split; [vm_compute; reflexivity|].
  apply (@myrequests_get_returns_only archive 5 "http://a"
           (Some {["page" := VInt 7]}) world0).
  vm_compute. reflexivity.
Defined.

(** X3: however [myrequests_get] ends, it has slept one second after
    every request but the last. *)
Theorem myrequests_get_sleeps `{Library} fuel url params w r w' :
  myrequests_get fuel url params w = Some (r, w') ->
  slept w' - slept w = Z.of_nat (clock w' - clock w) - 1.
Proof.
  revert w. induction fuel as [|fuel IH]; intros w; [discriminate|].
  rewrite myrequests_get_step.
  destruct (classify params (requests_get (clock w) url params)).
  - intros [= <- <-]. cbn. lia.
  - intros [= <- <-]. cbn. lia.
  - intros Hrec. pose proof (myrequests_get_frame _ _ _ _ _ _ Hrec) as (_ & Hc & _).
    apply IH in Hrec. cbn in *. lia.
Qed.

Lemma myrequests_get_sleeps_witness :
  exists r w',
    @myrequests_get (example_library (flaky_net 3)) 5 cc_endpoint None world0 =
      Some (r, w') /\
    slept w' - slept world0 = Z.of_nat (clock w' - clock world0) - 1 /\
    slept w' = 3.
Proof.
  eexists _, _. split; [vm_compute; reflexivity|]. split; [|reflexivity].
  apply (@myrequests_get_sleeps (example_library (flaky_net 3)) 5 cc_endpoint
           None world0 (Ok (Response 200 (jq "{'url': 'a0'}" +:+ nl)))).
  vm_compute. reflexivity.
Defined.

(** X4: there is no cap on the retries: on a network all of whose
    answers to a request are transient, [myrequests_get] does not end,
    whatever the fuel. *)
Theorem myrequests_get_never_gives_up `{Library} url params :
  (forall n, transient (requests_get n url params) = true) ->
  forall fuel w, myrequests_get fuel url params w = None.
Proof.
  intros Htransient. induction fuel as [|fuel IH]; intros w; [reflexivity|].
  rewrite myrequests_get_step, classify_transient by apply Htransient.
  apply IH.
Qed.

Lemma myrequests_get_never_gives_up_witness :
  @myrequests_get (example_library (constant_net (Raise ConnectionError))) 1000
     cc_endpoint None world0 = None.
Proof.
  apply (@myrequests_get_never_gives_up
           (example_library (constant_net (Raise ConnectionError))) cc_endpoint None).
  intros n. reflexivity.
Defined.

(** ** More on the response normalizer *)

Lemma append_cons (x : ascii) (a b : string) :
  String x a +:+ b = String x (a +:+ b).
Proof. reflexivity. Qed.

Lemma append_snoc_assoc (a b : string) (c : ascii) :
  (a +:+ String c EmptyString) +:+ b = a +:+ String c b.
Proof.
  induction a as [|x a IH]; [reflexivity|]. rewrite !append_cons. by f_equal.
Qed.

Lemma append_empty_r (a : string) : a +:+ "" = a.
Proof.
  induction a as [|x a IH]; [reflexivity|]. rewrite append_cons. by f_equal.
Qed.

Lemma splitlines_from_line (l cur rest : string) :
  no_linebreak l = true ->
  splitlines_from cur (l +:+ nl +:+ rest) = (cur +:+ l) :: splitlines_from "" rest.
Proof.
  revert cur. induction l as [|c l IH]; intros cur Hl.
  - rewrite append_empty_r. change ("" +:+ nl +:+ rest) with (String (ascii_of_nat 10) rest).
    cbn [splitlines_from]. by destruct rest.
  - cbn in Hl. apply andb_true_iff in Hl as [Hc Hl].
    apply negb_true_iff in Hc.
    rewrite append_cons. cbn [splitlines_from]. rewrite Hc, IH by done.
    by rewrite append_snoc_assoc.
Qed.

Lemma splitlines_unlines (ls : list string) :
  Forall (fun l => no_linebreak l = true) ls -> splitlines (unlines ls) = ls.
Proof.
  unfold splitlines. induction 1 as [|l ls Hl _ IH]; [reflexivity|].
  cbn [unlines]. rewrite splitlines_from_line by done. by rewrite IH.
Qed.

Lemma prefix_empty (s : string) : String.prefix "" s = true.
Proof. by destruct s. Qed.

Lemma prefix_append (p l rest : string) :
  String.prefix p l = true -> String.prefix p (l +:+ rest) = true.
Proof.
  revert l. induction p as [|c p IH]; intros l; [intros _; apply prefix_empty|].
  destruct l as [|c' l]; [discriminate|]. rewrite append_cons.
  change (String.prefix (String c p) (String c' l))
    with (if ascii_dec c c' then String.prefix p l else false).
  change (String.prefix (String c p) (String c' (l +:+ rest)))
    with (if ascii_dec c c' then String.prefix p (l +:+ rest) else false).
  destruct (ascii_dec c c'); [apply IH|discriminate].
Qed.

(** X5: a body of [n] lines, each ended by a newline, free of other
    line breaks and decodable by [json.loads], the first starting with a
    brace, gives exactly the [n] decoded values, in the order of the
    lines. *)
Theorem cdx_to_json_lines `{Library} status (l : string) (ls : list string)
    (vs : list json) :
  status <> 404 ->
  String.prefix "{" l = true ->
  Forall (fun l' => no_linebreak l' = true) (l :: ls) ->
  Forall2 (fun l' v => json_loads l' = Some v) (l :: ls) vs ->
  cdx_to_json (Response status (unlines (l :: ls))) = Ok vs /\
  length vs = S (length ls).
Proof.
  intros Hstatus Hbrace Hbreaks Hloads. split.
  - unfold cdx_to_json. cbn [status_code text].
    apply Z.eqb_neq in Hstatus. rewrite Hstatus.
    cbn [unlines]. rewrite (prefix_append _ _ _ Hbrace).
    change (l +:+ nl +:+ unlines ls) with (unlines (l :: ls)).
    rewrite splitlines_unlines by done. by apply mapM_loads_Ok.
  - apply Forall2_length in Hloads. cbn in Hloads. lia.
Qed.

Lemma cdx_to_json_lines_witness :
  @cdx_to_json offline
     (Response 200 (unlines [jq "{'url': 'a', 'timestamp': 1}";
                             jq "{'url': 'b', 'timestamp': 2}";
                             jq "{'url': 'c', 'timestamp': 3}"])) =
    Ok [JDict [(JStr "url", JStr "a"); (JStr "timestamp", JInt 1)];
        JDict [(JStr "url", JStr "b"); (JStr "timestamp", JInt 2)];
        JDict [(JStr "url", JStr "c"); (JStr "timestamp", JInt 3)]] /\
  length [JDict [(JStr "url", JStr "a"); (JStr "timestamp", JInt 1)];
          JDict [(JStr "url", JStr "b"); (JStr "timestamp", JInt 2)];
          JDict [(JStr "url", JStr "c"); (JStr "timestamp", JInt 3)]] = 3%nat.
Proof.
  apply (@cdx_to_json_lines offline 200 (jq "{'url': 'a', 'timestamp': 1}")
           [jq "{'url': 'b', 'timestamp': 2}"; jq "{'url': 'c', 'timestamp': 3}"]).
  - discriminate.
  - reflexivity.
  - repeat (apply Forall_cons; split; [reflexivity|]). apply Forall_nil. exact I.
  - repeat constructor.
Defined.

Lemma dict_store_fresh (d : list (json * json)) (k v : json) :
  Forall (fun kv => key_eqb kv.1 k = false) d -> dict_store d k v = d ++ [(k, v)].
Proof.
  induction 1 as [|[k' v'] d Hk _ IH]; [reflexivity|].
  cbn in *. rewrite Hk. by f_equal.
Qed.

Lemma fold_dict_store_NoDup (names : list string) :
  NoDup names ->
  forall (row : list json) (acc : list (json * json)),
    (forall n, n ∈ names -> Forall (fun kv => key_eqb kv.1 (JStr n) = false) acc) ->
    fold_left (fun d kv => dict_store d kv.1 kv.2) (zip (JStr <$> names) row) acc =
      acc ++ zip (JStr <$> names) row.
Proof.
  induction 1 as [|n names Hn _ IH]; intros row acc Hfresh.
  - cbn. by rewrite app_nil_r.
  - destruct row as [|v row]; [cbn; by rewrite app_nil_r|].
    cbn [fmap list_fmap zip zip_with fold_left fst snd].
    rewrite dict_store_fresh by (apply Hfresh; left).
    rewrite IH.
    + by rewrite <- app_assoc.
    + intros n' Hn'. apply Forall_app. split; [apply Hfresh; by right|].
      constructor; [|done]. cbn.
      apply String.eqb_neq. intros ->. done.
Qed.

Lemma dict_lookup_zip (names : list string) :
  NoDup names ->
  forall (row : list json) j name v,
    names !! j = Some name -> row !! j = Some v ->
    dict_lookup (zip (JStr <$> names) row) (JStr name) = Some v.
Proof.
  induction 1 as [|n names Hn _ IH]; intros row j name v Hname Hv; [done|].
  destruct row as [|v0 row]; [done|]. destruct j as [|j]; cbn in Hname, Hv.
  - injection Hname as ->. injection Hv as ->. cbn.
    change (key_eqb (JStr name) (JStr name)) with (String.eqb name name).
    by rewrite String.eqb_refl.
  - cbn. change (key_eqb (JStr n) (JStr name)) with (String.eqb n name).
    assert (n <> name) as Hne%String.eqb_neq.
    { intros ->. apply Hn. by eapply list_elem_of_lookup_2. }
    rewrite Hne. by eapply IH.
Qed.

Lemma mapM_row_to_obj_NoDup (names : list string) (rows : list (list json)) :
  NoDup names ->
  Forall (fun row => (length names <= length row)%nat) rows ->
  mapM (row_to_obj (JList (JStr <$> names))) (JList <$> rows) =
    Ok ((fun row => JDict (zip (JStr <$> names) row)) <$> rows).
Proof.
  intros Hnames. induction 1 as [|row rows Hrow _ IH]; [reflexivity|].
  rewrite fmap_cons, mapM_result_cons, IH. unfold row_to_obj. cbn.
  rewrite zip_row_Ok by done.
  rewrite fold_dict_store_NoDup by (done || by constructor). reflexivity.
Qed.

(** X6: for an array body whose header is a list of distinct field
    names and whose rows are lists with at least as many values, every
    record has exactly the fields of the header, in its order, each with
    the value at the same position of its row; values of a row past the
    header are dropped. *)
Theorem cdx_to_json_fields `{Library} (resp : response) (names : list string)
    (rows : list (list json)) :
  status_code resp <> 404 ->
  String.prefix "[" (text resp) = true ->
  json_loads (text resp) =
    Some (JList (JList (JStr <$> names) :: (JList <$> rows))) ->
  NoDup names ->
  Forall (fun row => (length names <= length row)%nat) rows ->
  cdx_to_json resp = Ok ((fun row => JDict (zip (JStr <$> names) row)) <$> rows) /\
  forall row j name v,
    row ∈ rows -> names !! j = Some name -> row !! j = Some v ->
    dict_lookup (zip (JStr <$> names) row) (JStr name) = Some v.
Proof.
  intros Hstatus Hbracket Hjson Hnames Hrows. split.
  - unfold cdx_to_json. apply Z.eqb_neq in Hstatus.
    rewrite Hstatus, (prefix_bracket_not_brace _ Hbracket), Hbracket. cbn.
    unfold loads. rewrite Hjson. cbn. by apply mapM_row_to_obj_NoDup.
  - intros row j name v _. by apply dict_lookup_zip.
Qed.

Lemma cdx_to_json_fields_witness :
  @cdx_to_json offline
     (Response 200 (jq "[['url','timestamp'],['a',1,'more'],['b',2]]")) =
    Ok [JDict [(JStr "url", JStr "a"); (JStr "timestamp", JInt 1)];
        JDict [(JStr "url", JStr "b"); (JStr "timestamp", JInt 2)]] /\
  dict_lookup [(JStr "url", JStr "a"); (JStr "timestamp", JInt 1)]
              (JStr "timestamp") = Some (JInt 1).
Proof.
  destruct (@cdx_to_json_fields offline
              (Response 200 (jq "[['url','timestamp'],['a',1,'more'],['b',2]]"))
              ["url"; "timestamp"]
              [[JStr "a"; JInt 1; JStr "more"]; [JStr "b"; JInt 2]])
    as [Hrecords Hfields].
  - discriminate.
  - reflexivity.
  - reflexivity.
  - apply NoDup_cons. split; [by intros ?%list_elem_of_singleton|].
    apply NoDup_singleton.
  - repeat (apply Forall_cons; split; [cbn; lia|]). apply Forall_nil. exact I.
  - split; [exact Hrecords|].
    apply (Hfields [JStr "a"; JInt 1; JStr "more"] 1%nat "timestamp" (JInt 1));
      [left|reflexivity|reflexivity].
Defined.

(** ** The bounded query *)

Lemma get_unfold `{Library} fuel self url kwargs :
  get fuel self url kwargs =
    get_loop fuel (index_list self)
      (let params := <["output" := VStr "json"]> (<["url" := VStr url]> kwargs) in
       if bool_decide (params !! "limit" = None)
       then <["limit" := VInt 10000]> params else params) [].
Proof. reflexivity. Qed.

Lemma get_loop_first `{Library} fuel endpoint endpoints params ret w resp w1 objs :
  myrequests_get fuel endpoint (Some params) w = Some (Ok resp, w1) ->
  cdx_to_json resp = Ok objs ->
  get_loop fuel (endpoint :: endpoints) params ret w =
    match params !! "limit" with
    | Some v =>
        match isub v (length objs) with
        | Ok v' =>
            match le_zero v' with
            | Ok true => Some (Ok (ret ++ objs), w1)
            | Ok false =>
                get_loop fuel endpoints (<["limit" := v']> params) (ret ++ objs) w1
            | Raise e => Some (Raise e, w1)
            end
        | Raise e => Some (Raise e, w1)
        end
    | None => get_loop fuel endpoints params (ret ++ objs) w1
    end.
Proof.
  intros Hget Hjson. cbn [get_loop]. rewrite (bind_Ok _ _ _ _ _ Hget).
  unfold lift_result at 1. unfold mbind at 1, M_bind at 1. rewrite Hjson.
  destruct (params !! "limit") as [v|]; [|reflexivity].
  unfold lift_result, mbind, M_bind.
  destruct (isub v (length objs)) as [v'|e]; [|reflexivity].
  destruct (le_zero v') as [[|]|e]; reflexivity.
Qed.

(** X7: when the first endpoint answers with at least as many records
    as the limit asks for (the limit of the call, or 10000 when the call
    gives none), [get] returns the records of that answer, all of them,
    and queries no other endpoint: the world it leaves is the one after
    the first fetch.  A limit of zero or less does not prevent the first
    fetch. *)
Theorem get_stops_at_limit `{Library} fuel self url kwargs w endpoint endpoints
    (limit : Z) resp w1 objs :
  index_list self = endpoint :: endpoints ->
  kwargs !! "limit" = Some (VInt limit) \/
    (kwargs !! "limit" = None /\ limit = 10000) ->
  myrequests_get fuel endpoint
    (Some (<["limit" := VInt limit]>
             (<["output" := VStr "json"]> (<["url" := VStr url]> kwargs)))) w =
    Some (Ok resp, w1) ->
  cdx_to_json resp = Ok objs ->
  limit <= Z.of_nat (length objs) ->
  get fuel self url kwargs w = Some (Ok objs, w1).
Proof.
  intros Hlist Hlimit Hget Hjson Hle. rewrite get_unfold, Hlist. cbv zeta.
  set (p := <["output" := VStr "json"]> (<["url" := VStr url]> kwargs)) in *.
  assert (Hp : p !! "limit" = kwargs !! "limit").
  { subst p. by rewrite !lookup_insert_ne. }
  assert ((if bool_decide (p !! "limit" = None)
           then <["limit" := VInt 10000]> p else p) =
          <["limit" := VInt limit]> p) as Hparams.
  { destruct Hlimit as [Hsome|[Hnone ->]].
    - rewrite bool_decide_eq_false_2 by (by rewrite Hp, Hsome).
      symmetry. apply insert_id. by rewrite Hp.
    - rewrite bool_decide_eq_true_2 by (by rewrite Hp). reflexivity. }
  rewrite Hparams.
  rewrite (get_loop_first _ _ _ _ _ _ _ _ _ Hget Hjson), lookup_insert_eq.
  cbn. by rewrite (proj2 (Z.leb_le _ _)) by lia.
Qed.

Lemma get_stops_at_limit_witness :
  @get archive 10 archive_fetcher "example.com/*" {["limit" := VInt 1]} world0 =
    Some (Ok [rec "a0"; rec "a1"], World 1 0 initial_heap) /\
  @get archive 10 archive_fetcher "example.com/*" {["limit" := VInt 0]} world0 =
    Some (Ok [rec "a0"; rec "a1"], World 1 0 initial_heap).
Proof.
  split.
  - apply (@get_stops_at_limit archive 10 archive_fetcher "example.com/*"
             {["limit" := VInt 1]} world0 "http://a" ["http://b"] 1
             (Response 200 (jq "{'url': 'a0'}" +:+ nl +:+ jq "{'url': 'a1'}" +:+ nl))
             (World 1 0 initial_heap) [rec "a0"; rec "a1"]).
    + reflexivity.
    + left. reflexivity.
    + vm_compute. reflexivity.
    + vm_compute. reflexivity.
    + cbn. lia.
  - apply (@get_stops_at_limit archive 10 archive_fetcher "example.com/*"
             {["limit" := VInt 0]} world0 "http://a" ["http://b"] 0
             (Response 200 (jq "{'url': 'a0'}" +:+ nl +:+ jq "{'url': 'a1'}" +:+ nl))
             (World 1 0 initial_heap) [rec "a0"; rec "a1"]).
    + reflexivity.
    + left. reflexivity.
    + vm_compute. reflexivity.
    + vm_compute. reflexivity.
    + cbn. lia.
Defined.

(** X8: a limit given as a string is sent to the first endpoint as it
    is; once that endpoint has answered and the answer is decoded, the
    subtraction of the record count from the limit raises TypeError, and
    the records are lost. *)
Theorem get_string_limit `{Library} fuel self url kwargs w endpoint endpoints
    (limit : string) resp w1 objs :
  index_list self = endpoint :: endpoints ->
  kwargs !! "limit" = Some (VStr limit) ->
  myrequests_get fuel endpoint
    (Some (<["output" := VStr "json"]> (<["url" := VStr url]> kwargs))) w =
    Some (Ok resp, w1) ->
  cdx_to_json resp = Ok objs ->
  get fuel self url kwargs w = Some (Raise TypeError, w1).
Proof.
  intros Hlist Hlimit Hget Hjson. rewrite get_unfold, Hlist. cbv zeta.
  set (p := <["output" := VStr "json"]> (<["url" := VStr url]> kwargs)) in *.
  assert (Hp : p !! "limit" = Some (VStr limit)).
  { subst p. by rewrite !lookup_insert_ne. }
  rewrite bool_decide_eq_false_2 by (by rewrite Hp).
  by rewrite (get_loop_first _ _ _ _ _ _ _ _ _ Hget Hjson), Hp.
Qed.

Lemma get_string_limit_witness :
  @get archive 10 archive_fetcher "example.com/*" {["limit" := VStr "5"]} world0 =
    Some (Raise TypeError, World 1 0 initial_heap).
Proof.
  apply (@get_string_limit archive 10 archive_fetcher "example.com/*"
           {["limit" := VStr "5"]} world0 "http://a" ["http://b"] "5"
           (Response 200 (jq "{'url': 'a0'}" +:+ nl +:+ jq "{'url': 'a1'}" +:+ nl))
           (World 1 0 initial_heap) [rec "a0"; rec "a1"]).
  - reflexivity.
  - reflexivity.
  - vm_compute. reflexivity.
  - vm_compute. reflexivity.
Defined.

(** ** Endpoints without captures *)

Lemma limit_open_not_zero (d : gmap string pyval) :
  limit_open d -> limit_is_zero d = false.
Proof.
  unfold limit_is_zero. intros [->|(z & -> & Hz)]; [reflexivity|].
  by destruct z.
Qed.

Lemma limit_open_insert (d : gmap string pyval) (k : string) (v : pyval) :
  k <> "limit" -> limit_open d -> limit_open (<[k := v]> d).
Proof.
  intros Hk. unfold limit_open. by rewrite lookup_insert_ne.
Qed.

Lemma myrequests_get_no_captures `{Library} fuel url ps w :
  no_captures url ->
  exists resp, status_code resp = 404 /\
               myrequests_get (S fuel) url ps w = Some (Ok resp, tick w).
Proof.
  intros Hnone. destruct (Hnone (clock w) ps) as (resp & Hout & H404).
  exists resp. split; [done|].
  rewrite myrequests_get_step, Hout. unfold classify. by rewrite H404.
Qed.

Lemma cdx_to_json_404 `{Library} resp :
  status_code resp = 404 -> cdx_to_json resp = Ok [].
Proof. intros H404. unfold cdx_to_json. by rewrite H404. Qed.

(** On such an endpoint a page is an empty page: [get_for_iter] answers
    ['ok'] with no record, and the limit stays as it was. *)
Lemma get_for_iter_no_captures `{Library} fuel f index p l w url :
  no_captures url ->
  index_list f !! index = Some url ->
  limit_open (params_of l w) ->
  exists w1, get_for_iter (S fuel) f index p l w = Some (Ok (ok, []), w1) /\
             clock w1 = S (clock w) /\ limit_open (params_of l w1).
Proof.
  intros Hnone Hurl Hopen. rewrite get_for_iter_unfold.
  pose proof (lookup_lt_Some _ _ _ Hurl) as Hlt.
  rewrite (proj2 (Nat.leb_gt _ _)) by done.
  rewrite (limit_open_not_zero _ Hopen), Hurl. cbv zeta.
  set (d := <["page" := VInt p]> (params_of l w)).
  destruct (myrequests_get_no_captures fuel url (Some d) (set_heap w l d) Hnone)
    as (resp & H404 & ->).
  rewrite H404, (cdx_to_json_404 _ H404). cbn [Z.eqb Pos.eqb length].
  assert (Hd : limit_open d) by (by apply limit_open_insert).
  destruct Hd as [Hd|(z & Hd & Hz)]; rewrite Hd.
  - eexists. split; [reflexivity|]. split; [reflexivity|].
    unfold params_of. cbn. rewrite lookup_insert_eq. cbn. by left.
  - cbn. eexists. split; [reflexivity|]. split; [reflexivity|].
    unfold params_of. cbn. rewrite lookup_insert_eq. cbn. right.
    exists (z - 0). rewrite lookup_insert_eq. split; [done|lia].
Qed.

Lemma get_more_no_captures `{Library} url :
  no_captures url ->
  forall fuel self w,
    index_list (cdxfetcher self) !! endpoint self = Some url ->
    limit_open (params_of (params self) w) ->
    get_more fuel (self, w) = None.
Proof.
  intros Hnone. induction fuel as [|fuel IH]; intros self w Hurl Hopen;
    [reflexivity|].
  rewrite get_more_unfold. cbv zeta.
  destruct fuel as [|fuel].
  - cbn [turn_page cdxfetcher endpoint page params]. rewrite get_for_iter_unfold.
    pose proof (lookup_lt_Some _ _ _ Hurl) as Hlt.
    rewrite (proj2 (Nat.leb_gt _ _)) by done.
    by rewrite (limit_open_not_zero _ Hopen), Hurl.
  - destruct (get_for_iter_no_captures fuel (cdxfetcher (turn_page self))
                (endpoint (turn_page self)) (page (turn_page self))
                (params (turn_page self)) w url Hnone Hurl Hopen)
      as (w1 & -> & _ & Hopen1).
    by apply IH.
Qed.

(** X9: an endpoint that answers 404 to every request, as an index
    without captures of the URL does, keeps the refill loop going for
    ever when the limit is absent or an integer other than zero: every
    page comes back as an empty page with status ['ok'], and the loop
    asks for the next.  So [get_more] does not return from such an
    endpoint, and neither does [items] when it is the first of the
    list, whatever the fuel. *)
Theorem no_captures_never_ends `{Library} url :
  no_captures url ->
  (forall fuel self w,
     index_list (cdxfetcher self) !! endpoint self = Some url ->
     limit_open (params_of (params self) w) ->
     get_more fuel (self, w) = None) /\
  (forall fuel self endpoints query kwargs w,
     index_list self = url :: endpoints ->
     kwargs !! "page" = None ->
     limit_open kwargs ->
     items fuel self query kwargs w = None).
Proof.
  intros Hnone. split; [by apply get_more_no_captures|].
  intros fuel self endpoints query kwargs w Hlist Hpage Hopen.
  rewrite items_unfold. cbv zeta. rewrite CDXFetcherIter_init_unfold. cbv zeta.
  cbn [default]. rewrite params_of_set_heap.
  rewrite bool_decide_eq_false_2.
  2:{ rewrite !lookup_insert_ne, Hpage by done. by intros [? [=]]. }
  unfold with_self. rewrite (get_more_no_captures url Hnone); [done| |].
  - cbn. by rewrite Hlist.
  - cbn [params]. unfold set_heap, params_of. cbn. rewrite lookup_insert_eq. cbn.
    by repeat apply limit_open_insert.
Qed.

Lemma no_captures_never_ends_witness :
  @items (example_library no_captures_net) 1000 archive_fetcher "example.com/*"
     ∅ world0 = None.
Proof.
  apply (proj2 (@no_captures_never_ends (example_library no_captures_net)
                  "http://a"
                  (fun n ps => ex_intro _ _ (conj eq_refl eq_refl)))
           1000%nat archive_fetcher ["http://b"] "example.com/*" ∅ world0).
  - reflexivity.
  - reflexivity.
  - left. reflexivity.
Defined.

Lemma later_0 w : later w 0 0 = w.
Proof. destruct w. unfold later. cbn. f_equal; lia. Qed.

Lemma later_tick w k : later (tick w) k 0 = later w (S k) 0.
Proof. unfold later, tick. cbn. f_equal. lia. Qed.

Lemma get_loop_no_captures `{Library} fuel endpoints :
  Forall no_captures endpoints ->
  forall (params : gmap string pyval) ret w,
    (params !! "limit" = None \/
     exists z, params !! "limit" = Some (VInt z) /\ 0 < z) ->
    get_loop (S fuel) endpoints params ret w =
      Some (Ok ret, later w (length endpoints) 0).
Proof.
  induction 1 as [|endpoint endpoints Hnone _ IH]; intros params ret w Hlimit.
  - cbn. by rewrite later_0.
  - destruct (myrequests_get_no_captures fuel endpoint (Some params) w Hnone)
      as (resp & H404 & Hget).
    rewrite (get_loop_first _ _ _ _ _ _ _ _ _ Hget (cdx_to_json_404 _ H404)).
    rewrite app_nil_r. cbn [length].
    destruct Hlimit as [Hlimit|(z & Hlimit & Hz)]; rewrite Hlimit.
    + rewrite IH by (by left). by rewrite later_tick.
    + cbn. rewrite (proj2 (Z.leb_gt _ _)) by lia.
      rewrite IH, later_tick; [done|].
      right. exists (z - 0). rewrite lookup_insert_eq. split; [done|lia].
Qed.

Lemma get_size_estimate_loop_no_captures `{Library} fuel endpoints :
  Forall no_captures endpoints ->
  forall (params : gmap string pyval) pages w,
    get_size_estimate_loop (S fuel) endpoints params pages w =
      Some (Ok pages, later w (length endpoints) 0).
Proof.
  induction 1 as [|endpoint endpoints Hnone _ IH]; intros params pages w.
  - cbn. by rewrite later_0.
  - destruct (myrequests_get_no_captures fuel endpoint (Some params) w Hnone)
      as (resp & H404 & Hget).
    cbn [get_size_estimate_loop]. rewrite (bind_Ok _ _ _ _ _ Hget), H404.
    cbn [Z.eqb Pos.eqb length]. by rewrite IH, later_tick.
Qed.

(** X10: when no endpoint has captures (each answers 404 to every
    request), a bounded query with no limit or a positive limit returns
    the empty list, and the size estimate is 0 both as pages and as
    samples; each sends exactly one request to every endpoint, never
    sleeps, and raises nothing. *)
Theorem queries_without_captures `{Library} fuel self url kwargs w :
  Forall no_captures (index_list self) ->
  ((kwargs !! "limit" = None \/
    exists z, kwargs !! "limit" = Some (VInt z) /\ 0 < z) ->
   get (S fuel) self url kwargs w =
     Some (Ok [], later w (length (index_list self)) 0)) /\
  (forall as_pages,
     get_size_estimate (S fuel) self url as_pages kwargs w =
       Some (Ok 0, later w (length (index_list self)) 0)).
Proof.
  intros Hnone. split.
  - intros Hlimit. rewrite get_unfold. cbv zeta.
    apply get_loop_no_captures; [done|].
    set (p := <["output" := VStr "json"]> (<["url" := VStr url]> kwargs)).
    assert (Hp : p !! "limit" = kwargs !! "limit").
    { subst p. by rewrite !lookup_insert_ne. }
    case_bool_decide as Hcase.
    + right. exists 10000. by rewrite lookup_insert_eq.
    + rewrite Hp in *. destruct Hlimit as [?|?]; [done|by right].
  - intros as_pages. unfold get_size_estimate.
    rewrite (bind_Ok _ _ _ _ _
               (get_size_estimate_loop_no_captures fuel _ Hnone _ 0 w)).
    by destruct as_pages.
Qed.

Lemma queries_without_captures_witness :
  @get (example_library no_captures_net) 1 archive_fetcher "example.com/*" ∅
     world0 = Some (Ok [], later world0 2 0) /\
  @get_size_estimate (example_library no_captures_net) 1 archive_fetcher
     "example.com/*" false ∅ world0 = Some (Ok 0, later world0 2 0).
Proof.
  destruct (@queries_without_captures (example_library no_captures_net) 0
              archive_fetcher "example.com/*" ∅ world0) as [Hget Hsize].
  - repeat constructor; intros n ps; eexists; split; reflexivity.
  - split; [apply Hget; left; reflexivity|apply Hsize].
Defined.

(** ** After the construction *)

Lemma take_records_at_terminal `{Library} fuel n :
  forall self w,
    terminal (cdxfetcher self) (endpoint self) (params_of (params self) w) ->
    exists self',
      take_records (S (S fuel)) n (self, w) =
        Some (Ok (take n (cdx_objs self)), (self', w)) /\
      cdx_objs self' = drop n (cdx_objs self).
Proof.
  induction n as [|n IH]; intros self w Hterm.
  - exists self. split; [reflexivity|]. by rewrite drop_0.
  - rewrite take_records_unfold, next_unfold.
    destruct (cdx_objs self) as [|x objs] eqn:Hobjs.
    + rewrite (get_more_at_terminal _ _ _ Hterm).
      cbn [turn_page cdx_objs]. rewrite Hobjs. cbn.
      exists (turn_page self). split; [reflexivity|]. exact Hobjs.
    + destruct (IH (pop self objs) w Hterm) as (self' & -> & Hrest).
      exists self'. split; [reflexivity|]. exact Hrest.
Qed.

(** X11: once the constructor of the iterator has returned, the whole
    result is in the buffer: a consumer that asks for [n] records gets
    the first [n] of the buffer, in order, and the rest stays buffered;
    the world is the one the constructor left, so the iteration sends no
    request, does not sleep, writes no dictionary, and raises nothing. *)
Theorem iteration_after_construction `{Library} fuel cdxfetcher ps w it w1 :
  CDXFetcherIter_init fuel cdxfetcher ps w = Some (Ok it, w1) ->
  forall fuel' n,
    exists it',
      take_records (S (S fuel')) n (it, w1) =
        Some (Ok (take n (cdx_objs it)), (it', w1)) /\
      cdx_objs it' = drop n (cdx_objs it).
Proof.
  rewrite CDXFetcherIter_init_unfold. cbv zeta.
  case_bool_decide; [done|]. unfold with_self.
  destruct (get_more fuel _) as [[[u|e] [self' w']]|] eqn:Hmore; [|done..].
  intros [= <- <-] fuel' n.
  apply take_records_at_terminal. by eapply get_more_Ok_terminal.
Qed.

Lemma iteration_after_construction_witness :
  exists it w1 it',
    @CDXFetcherIter_init archive 10 archive_fetcher None world0 = Some (Ok it, w1) /\
    @take_records archive 2 4 (it, w1) =
      Some (Ok [rec "a0"; rec "a1"; rec "a2"; rec "b0"], (it', w1)) /\
    cdx_objs it' = [rec "b1"; rec "b2"].
Proof.
  destruct (@CDXFetcherIter_init archive 10 archive_fetcher None world0)
    as [[[it|e] w1]|] eqn:Hinit; [|vm_compute in Hinit; discriminate..].
  destruct (@iteration_after_construction archive 10 archive_fetcher None world0
              it w1 Hinit 0%nat 4%nat) as (it' & Htake & Hrest).
  exists it, w1, it'.
  vm_compute in Hinit. injection Hinit as <- <-.
  split; [reflexivity|]. split; [exact Htake|exact Hrest].
Defined.

(** ** The dictionary of [items] *)

Lemma get_more_writes_params `{Library} (h : gmap nat (gmap string pyval)) l :
  forall fuel self w r self' w',
    params self = l /\ (forall l', l' <> l -> heap w !! l' = h !! l') ->
    get_more fuel (self, w) = Some (r, (self', w')) ->
    params self' = l /\ (forall l', l' <> l -> heap w' !! l' = h !! l').
Proof.
  apply (get_more_rule
           (fun self w => params self = l /\
                          forall l', l' <> l -> heap w !! l' = h !! l')).
  intros self w r w1 [Hl Hframe] Hspec.
  assert (Hw1 : forall l', l' <> l -> heap w1 !! l' = h !! l').
  { destruct Hspec as [_|url n resp w1 _ _ _ _ _ _ Hheap
                      |url n resp w1 ret d' _ _ _ _ _ _ _ _ Hheap
                      |e w1 _ _ Hheap];
      [done|intros l' Hl'; rewrite Hheap, lookup_insert_ne by congruence;
            by apply Hframe..]. }
  destruct r as [[[] objs]|e]; by split.
Qed.

(** X12: [items] builds a dictionary of its own from the keyword
    arguments.  A page among them is rejected before any request is
    sent; without one, the guard of the constructor passes, whatever
    earlier iterators did.  However the call ends, every dictionary that
    existed before it is left as it was. *)
Theorem items_own_dictionary `{Library} fuel self url kwargs w :
  let l := fresh (dom (heap w)) in
  let d := <["output" := VStr "json"]> (<["url" := VStr url]> kwargs) in
  (is_Some (kwargs !! "page") ->
   items fuel self url kwargs w = Some (Raise reserved_page, set_heap w l d)) /\
  (kwargs !! "page" = None ->
   items fuel self url kwargs w =
     with_self (Iter self l 0 (-1) [] []) (get_more fuel)
       (set_heap w l (<["page" := VInt (-1)]> d))) /\
  (forall r w1,
     items fuel self url kwargs w = Some (r, w1) ->
     forall l', l' ∈ dom (heap w) -> heap w1 !! l' = heap w !! l').
Proof.
  intros l d.
  assert (Hl : l ∉ dom (heap w)) by apply is_fresh.
  assert (Hd : d !! "page" = kwargs !! "page").
  { subst d. by rewrite !lookup_insert_ne. }
  assert (Hinit : items fuel self url kwargs w =
                  if bool_decide (is_Some (kwargs !! "page"))
                  then Some (Raise reserved_page, set_heap w l d)
                  else with_self (Iter self l 0 (-1) [] []) (get_more fuel)
                         (set_heap w l (<["page" := VInt (-1)]> d))).
  { rewrite items_unfold. cbv zeta. rewrite CDXFetcherIter_init_unfold.
    cbv zeta. cbn [default]. fold l d. rewrite params_of_set_heap, Hd.
    case_bool_decide; [reflexivity|].
    unfold set_heap. cbn. by rewrite insert_insert_eq. }
  split; [|split].
  - intros Hpage. by rewrite Hinit, bool_decide_eq_true_2.
  - intros Hpage. rewrite Hinit, bool_decide_eq_false_2; [done|].
    rewrite Hpage. by intros [? [=]].
  - intros r w1. rewrite Hinit. intros Hrun l' Hl'.
    assert (Hne : l' <> l) by (intros ->; done).
    case_bool_decide.
    + injection Hrun as <- <-. cbn. by rewrite lookup_insert_ne.
    + unfold with_self in Hrun.
      destruct (get_more fuel _) as [[r' [self' w']]|] eqn:Hmore; [|done].
      eapply (get_more_writes_params (heap w) l) in Hmore as [_ Hframe].
      * destruct r'; injection Hrun as <- <-; by apply Hframe.
      * split; [reflexivity|]. intros l'' Hl''. cbn.
        by rewrite lookup_insert_ne.
Qed.

Lemma items_own_dictionary_witness :
  @items archive 10 archive_fetcher "example.com/*" {["page" := VInt 3]} world0 =
    Some (Raise reserved_page,
          set_heap world0 (fresh (dom (heap world0)))
            (<["output" := VStr "json"]>
               (<["url" := VStr "example.com/*"]> {["page" := VInt 3]}))) /\
  (forall r w1,
     @items archive 10 archive_fetcher "example.com/*" ∅ world0 = Some (r, w1) ->
     heap w1 !! default_params = Some ∅).
Proof.
  split.
  - apply (proj1 (@items_own_dictionary archive 10 archive_fetcher
                    "example.com/*" {["page" := VInt 3]} world0)).
    exists (VInt 3). reflexivity.
  - intros r w1 Hitems.
    rewrite (proj2 (proj2 (@items_own_dictionary archive 10 archive_fetcher
                             "example.com/*" ∅ world0)) r w1 Hitems default_params).
    + reflexivity.
    + vm_compute. reflexivity.
Defined.

(** ** The list of Common Crawl indices *)

Lemma get_cc_endpoints_unfold `{Library} `{Runtime} fuel cc_duration cc_sort w :
  get_cc_endpoints fuel cc_duration cc_sort w =
    match myrequests_get fuel collinfo None w with
    | Some (Ok r, w1) =>
        Some (endpoints_of_listing r (clock w1) cc_duration cc_sort, w1)
    | Some (Raise e, w1) => Some (Raise e, w1)
    | None => None
    end.
Proof.
  unfold get_cc_endpoints, endpoints_of_listing, listed_endpoints, recent_indices.
  unfold mbind at 1, M_bind at 1.
  destruct (myrequests_get fuel collinfo None w) as [[[r|e] w1]|]; [|done..].
  destruct (negb _); [reflexivity|].
  unfold lift_result, mbind, M_bind, result_bind, raise, mret, M_ret.
  destruct (loads (text r)) as [j|e]; [|reflexivity].
  destruct (py_iter j) as [xs|e]; [|reflexivity].
  destruct (mapM _ xs) as [endpoints|e]; [|reflexivity].
  destruct (length endpoints <? 30)%nat; [reflexivity|].
  destruct (sorted_reverse endpoints) as [sorted|e]; [|reflexivity].
  destruct (duration_digits cc_duration) as [digits|]; [|reflexivity].
  destruct (py_int (JStr digits)) as [days|e]; [|reflexivity].
  destruct (startdate_of (clock w1) days) as [startdate|e]; [|reflexivity].
  destruct (join_empty sorted) as [joined|e]; [|reflexivity].
  destruct (select_recent startdate (findall joined)) as [ret|e]; reflexivity.
Qed.

Lemma crawl_id_at_Some (s id : string) :
  crawl_id_at s = Some id -> is_crawl_id id = true.
Proof.
  unfold crawl_id_at. destruct (String.prefix _ s); [|done].
  destruct (is_crawl_id (substring 8 7 s)) eqn:Hid; [|done]. by intros [= <-].
Qed.

Lemma findall_from_crawl_ids (s : string) :
  forall skip, Forall (fun id => is_crawl_id id = true) (findall_from skip s).
Proof.
  induction s as [|c s IH]; intros skip; [constructor|].
  cbn [findall_from]. destruct skip as [|skip]; [|apply IH].
  destruct (crawl_id_at (String c s)) as [id|] eqn:Hid; [|apply IH].
  constructor; [by eapply crawl_id_at_Some|apply IH].
Qed.

Lemma select_recent_Forall `{Runtime} (P : string -> Prop) startdate timestamps :
  forall ret,
    select_recent startdate timestamps = Ok ret ->
    Forall P timestamps -> Forall P ret.
Proof.
  induction timestamps as [|t ts IH]; intros ret.
  - by intros [= <-].
  - cbn [select_recent]. destruct (thisdate_of _) as [thisdate|e]; [|done]. cbn.
    destruct (select_recent startdate ts) as [rest|e]; [|done]. cbn.
    intros [= <-] Hall. inversion Hall as [|? ? Ht Hts]; subst.
    destruct (String.ltb _ _); [constructor|]; auto.
Qed.

Lemma recent_indices_cc `{Library} `{Runtime} now digits endpoints ret :
  recent_indices now digits endpoints = Ok ret -> Forall is_cc_index ret.
Proof.
  unfold recent_indices.
  destruct (py_int _) as [days|e]; [|done]. cbn [mbind result_bind].
  destruct (startdate_of now days) as [startdate|e]; [|done]. cbn [mbind result_bind].
  destruct (join_empty endpoints) as [joined|e]; [|done]. cbn [mbind result_bind].
  destruct (select_recent startdate (findall joined)) as [ids|e] eqn:Hsel; [|done].
  cbn [mbind result_bind]. intros [= <-].
  apply (select_recent_Forall (fun id => is_crawl_id id = true)) in Hsel;
    [|apply findall_from_crawl_ids].
  apply Forall_fmap. eapply Forall_impl; [exact Hsel|].
  intros id Hid. by exists id.
Qed.

Lemma endpoints_of_listing_cc `{Library} `{Runtime} r now cc_duration cc_sort ret :
  endpoints_of_listing r now cc_duration cc_sort = Ok ret -> Forall is_cc_index ret.
Proof.
  unfold endpoints_of_listing. destruct (negb _); [done|].
  destruct (listed_endpoints r) as [endpoints|e]; [|done]. cbn [mbind result_bind].
  destruct (length endpoints <? 30)%nat; [done|].
  destruct (sorted_reverse endpoints) as [sorted|e]; [|done]. cbn [mbind result_bind].
  destruct (duration_digits cc_duration) as [digits|]; [|done].
  destruct (recent_indices now digits sorted) as [ids|e] eqn:Hids; [|done].
  cbn [mbind result_bind]. intros [= <-]. apply recent_indices_cc in Hids.
  destruct (String.eqb cc_sort "mixed"); [done|]. by apply Forall_reverse.
Qed.

Lemma is_cc_index_http (url : string) : is_cc_index url -> is_http_url url.
Proof. intros (id & _ & ->). by left. Qed.

(** X13: every endpoint of a fetcher that [CDXFetcher.__init__] builds
    is an http or https URL.  For the source ['cc'] each one is the
    index of a crawl on index.commoncrawl.org, whatever addresses the
    listing gave, and at least one request was sent to get them; for any
    other source the fetcher has one endpoint, the Wayback address for
    ['ia'] and the source itself otherwise, and nothing was sent. *)
Theorem CDXFetcher_init_endpoints `{Library} `{Runtime} fuel source cc_duration
    cc_sort w f w1 :
  CDXFetcher_init fuel source cc_duration cc_sort w = Some (Ok f, w1) ->
  Forall is_http_url (index_list f) /\
  (source = "cc" ->
   Forall is_cc_index (index_list f) /\ (clock w < clock w1)%nat) /\
  (source <> "cc" ->
   index_list f = [if String.eqb source "ia" then wayback else source] /\
   w1 = w).
Proof.
  unfold CDXFetcher_init.
  destruct (String.eqb_spec source "cc") as [->|Hcc].
  - unfold mbind, M_bind. rewrite get_cc_endpoints_unfold.
    destruct (myrequests_get fuel collinfo None w) as [[[r|e] w2]|] eqn:Hget;
      [|done..].
    destruct (endpoints_of_listing r (clock w2) cc_duration cc_sort)
      as [ret|e] eqn:Hret; [|done].
    intros [= <- <-]. cbn. apply endpoints_of_listing_cc in Hret.
    apply myrequests_get_frame in Hget as (_ & Hclock & _).
    split; [|split; [done|done]].
    eapply Forall_impl; [exact Hret|apply is_cc_index_http].
  - destruct (String.eqb source "ia") eqn:Hia.
    + intros [= <- <-]. cbn. split; [|split; [done|done]].
      constructor; [by right|constructor].
    + destruct (String.prefix "https://" source || String.prefix "http://" source)
        eqn:Hurl; [|done].
      intros [= <- <-]. cbn. split; [|split; [done|done]].
      constructor; [|constructor].
      apply orb_true_iff in Hurl as [?|?]; [by right|by left].
Qed.

Lemma CDXFetcher_init_endpoints_witness :
  exists f w1,
    @CDXFetcher_init (example_library (collinfo_net crawl_ids)) example_runtime
       5 "cc" "100d" "mixed" world0 = Some (Ok f, w1) /\
    Forall is_http_url (index_list f) /\
    Forall is_cc_index (index_list f) /\ (clock world0 < clock w1)%nat.
Proof.
  destruct (@CDXFetcher_init (example_library (collinfo_net crawl_ids))
              example_runtime 5 "cc" "100d" "mixed" world0)
    as [[[f|e] w1]|] eqn:Hinit; [|vm_compute in Hinit; discriminate..].
  exists f, w1. split; [reflexivity|].
  destruct (@CDXFetcher_init_endpoints (example_library (collinfo_net crawl_ids))
              example_runtime 5 "cc" "100d" "mixed" world0 f w1 Hinit)
    as (Hurls & Hcc & _).
  split; [exact Hurls|]. apply Hcc. reflexivity.
Defined.

(** X14: what [get_cc_endpoints] refuses.  A listing that comes back
    with a status other than 200 is a RuntimeError; one with fewer than
    30 entries is a ValueError, whatever the duration asked for.  A
    duration that is not digits followed by [d] is never accepted, but
    it is looked at only after the listing was fetched: the call ends
    with an exception and at least one request sent. *)
Theorem get_cc_endpoints_errors `{Library} `{Runtime} fuel cc_duration cc_sort w :
  (forall resp w1,
     myrequests_get fuel collinfo None w = Some (Ok resp, w1) ->
     status_code resp <> 200 ->
     get_cc_endpoints fuel cc_duration cc_sort w =
       Some (Raise (RuntimeError "error getting list of common crawl indices: "),
             w1)) /\
  (forall resp w1 endpoints,
     myrequests_get fuel collinfo None w = Some (Ok resp, w1) ->
     status_code resp = 200 ->
     listed_endpoints resp = Ok endpoints ->
     (length endpoints < 30)%nat ->
     get_cc_endpoints fuel cc_duration cc_sort w =
       Some (Raise (ValueError "Surprisingly few endoints for common crawl index"),
             w1)) /\
  (duration_digits cc_duration = None ->
   forall r w1,
     get_cc_endpoints fuel cc_duration cc_sort w = Some (r, w1) ->
     (exists e, r = Raise e) /\ (clock w < clock w1)%nat).
Proof.
  split; [|split].
  - intros resp w1 Hget Hstatus. rewrite get_cc_endpoints_unfold, Hget.
    unfold endpoints_of_listing.
    by rewrite (proj2 (Z.eqb_neq _ _) Hstatus).
  - intros resp w1 endpoints Hget Hstatus Hlist Hlen.
    rewrite get_cc_endpoints_unfold, Hget. unfold endpoints_of_listing.
    rewrite Hstatus, Hlist. cbn [Z.eqb Pos.eqb negb mbind result_bind].
    by rewrite (proj2 (Nat.ltb_lt _ _) Hlen).
  - intros Hduration r w1. rewrite get_cc_endpoints_unfold.
    destruct (myrequests_get fuel collinfo None w) as [[[resp|e] w2]|] eqn:Hget;
      [| |done].
    + apply myrequests_get_frame in Hget as (_ & Hclock & _).
      intros [= <- <-]. split; [|done].
      unfold endpoints_of_listing. rewrite Hduration.
      destruct (negb _); [eauto|].
      destruct (listed_endpoints resp) as [endpoints|e]; [|eauto]. cbn [mbind result_bind].
      destruct (length endpoints <? 30)%nat; [eauto|].
      destruct (sorted_reverse endpoints) as [sorted|e]; cbn [mbind result_bind]; eauto.
    + apply myrequests_get_frame in Hget as (_ & Hclock & _).
      intros [= <- <-]. eauto.
Qed.

Lemma get_cc_endpoints_errors_witness :
  @get_cc_endpoints (example_library no_captures_net) example_runtime 5
     "365d" "mixed" world0 =
    Some (Raise (RuntimeError "error getting list of common crawl indices: "),
          tick world0) /\
  @get_cc_endpoints (example_library (collinfo_net (take 29 crawl_ids)))
     example_runtime 5 "365d" "mixed" world0 =
    Some (Raise (ValueError "Surprisingly few endoints for common crawl index"),
          tick world0) /\
  (forall r w1,
     @get_cc_endpoints (example_library (collinfo_net crawl_ids)) example_runtime
        5 "365" "mixed" world0 = Some (r, w1) ->
     (exists e, r = Raise e) /\ (clock world0 < clock w1)%nat).
Proof.
  split; [|split].
  - apply (proj1 (@get_cc_endpoints_errors (example_library no_captures_net)
                    example_runtime 5 "365d" "mixed" world0)
             (Response 404 (jq "{'error': 'No Captures found'}")) (tick world0)).
    + reflexivity.
    + discriminate.
  - eapply (proj1 (proj2 (@get_cc_endpoints_errors
                            (example_library (collinfo_net (take 29 crawl_ids)))
                            example_runtime 5 "365d" "mixed" world0))
              (Response 200 (collinfo_body (take 29 crawl_ids))) (tick world0)).
    + reflexivity.
    + reflexivity.
    + vm_compute. reflexivity.
    + vm_compute. lia.
  - apply (proj2 (proj2 (@get_cc_endpoints_errors
                           (example_library (collinfo_net crawl_ids))
                           example_runtime 5 "365" "mixed" world0))).
    reflexivity.
Defined.

(** ** Listings of the usual form *)

Lemma append_assoc (a b c : string) : (a +:+ b) +:+ c = a +:+ (b +:+ c).
Proof.
  induction a as [|x a IH]; [reflexivity|]. rewrite !append_cons. by f_equal.
Qed.

Lemma findall_from_free (p rest : string) :
  free_of_C p = true -> findall_from 0 (p +:+ rest) = findall_from 0 rest.
Proof.
  induction p as [|c p IH]; [reflexivity|].
  unfold free_of_C. cbn [all_chars]. intros [Hc Hp]%andb_true_iff.
  rewrite append_cons. cbn [findall_from]. unfold crawl_id_at.
  change (String.prefix "CC-MAIN-" (String c (p +:+ rest)))
    with (if ascii_dec "C" c then String.prefix "C-MAIN-" (p +:+ rest) else false).
  destruct (ascii_dec "C" c) as [<-|_]; [discriminate|]. by apply IH.
Qed.

Lemma is_crawl_id_length (id : string) :
  is_crawl_id id = true -> String.length id = 7%nat.
Proof.
  destruct id as [|a [|b [|c [|d [|e [|f [|g [|h id]]]]]]]]; done.
Qed.

Lemma findall_from_skip (p rest : string) :
  findall_from (String.length p) (p +:+ rest) = findall_from 0 rest.
Proof. induction p as [|c p IH]; [reflexivity|]. by rewrite append_cons. Qed.

Lemma findall_from_id (id rest : string) :
  is_crawl_id id = true ->
  findall_from 0 ("CC-MAIN-" +:+ id +:+ rest) = id :: findall_from 0 rest.
Proof.
  intros Hid.
  assert (Hprefix : String.prefix "CC-MAIN-" ("CC-MAIN-" +:+ id +:+ rest) = true).
  { apply prefix_append. apply prefix_correct. reflexivity. }
  assert (Hsub : substring 8 7 ("CC-MAIN-" +:+ id +:+ rest) = id).
  { destruct id as [|a [|b [|c [|d [|e [|f [|g [|h id]]]]]]]]; try done.
    cbv [String.append]. cbn [substring]. by destruct rest. }
  assert (Hskip : findall_from 14 ("C-MAIN-" +:+ id +:+ rest) =
                  findall_from 0 rest).
  { rewrite <- append_assoc, <- (findall_from_skip ("C-MAIN-" +:+ id) rest).
    f_equal. destruct id as [|a [|b [|c [|d [|e [|f [|g [|h id]]]]]]]]; done. }
  change ("CC-MAIN-" +:+ id +:+ rest)
    with (String "C" ("C-MAIN-" +:+ id +:+ rest)) in *.
  cbn [findall_from]. unfold crawl_id_at. by rewrite Hprefix, Hsub, Hid, Hskip.
Qed.

Lemma findall_listing (base tail : string) (ids : list string) :
  free_of_C base = true -> free_of_C tail = true ->
  Forall (fun id => is_crawl_id id = true) ids ->
  findall (foldr String.append "" (cdx_api base tail <$> ids)) = ids.
Proof.
  intros Hbase Htail. unfold findall. induction 1 as [|id ids Hid _ IH];
    [reflexivity|].
  rewrite fmap_cons. cbn [foldr]. unfold cdx_api at 1.
  rewrite !append_assoc, (findall_from_free _ _ Hbase), (findall_from_id _ _ Hid),
    (findall_from_free _ _ Htail). by f_equal.
Qed.

(** The order of strings *)

Lemma ascii_compare_refl (c : ascii) : Ascii.compare c c = Eq.
Proof. unfold Ascii.compare. apply N.compare_refl. Qed.

Lemma compare_refl (s : string) : String.compare s s = Eq.
Proof.
  induction s as [|c s IH]; [reflexivity|]. cbn. by rewrite ascii_compare_refl.
Qed.

Lemma compare_append_l (p x y : string) :
  String.compare (p +:+ x) (p +:+ y) = String.compare x y.
Proof.
  induction p as [|c p IH]; [reflexivity|]. rewrite !append_cons. cbn.
  by rewrite ascii_compare_refl.
Qed.

Lemma compare_append_r (x y t : string) :
  String.length x = String.length y ->
  String.compare (x +:+ t) (y +:+ t) = String.compare x y.
Proof.
  revert y. induction x as [|c x IH]; intros [|c' y]; try done.
  - intros _. apply compare_refl.
  - intros [= Hlen]. rewrite !append_cons. cbn. by rewrite IH.
Qed.

Lemma str_ge_cdx_api (base tail a b : string) :
  is_crawl_id a = true -> is_crawl_id b = true ->
  str_ge (cdx_api base tail a) (cdx_api base tail b) -> str_ge a b.
Proof.
  intros Ha%is_crawl_id_length Hb%is_crawl_id_length.
  unfold str_ge, String.leb, cdx_api.
  by rewrite !compare_append_l, compare_append_r by congruence.
Qed.

Lemma str_ge_total : Total str_ge.
Proof. intros a b. unfold str_ge. destruct (String.leb_total a b); auto. Qed.

Lemma Sorted_fmap_reflect {A B} (f : A -> B) (Q : A -> Prop) (R1 : relation A)
    (R2 : relation B) (l : list A) :
  (forall x y, Q x -> Q y -> R2 (f x) (f y) -> R1 x y) ->
  Forall Q l -> Sorted R2 (f <$> l) -> Sorted R1 l.
Proof.
  intros Hreflect. induction 1 as [|x l Hx Hl IH]; [constructor|].
  rewrite fmap_cons. intros [Hsorted Hhd]%Sorted_inv.
  constructor; [by apply IH|].
  destruct Hl as [|y l Hy _]; constructor.
  rewrite fmap_cons in Hhd. apply HdRel_inv in Hhd. by apply Hreflect.
Qed.

Lemma map_list_fmap {A B} (f : A -> B) (l : list A) : map f l = f <$> l.
Proof. induction l as [|x l IH]; [reflexivity|]. cbn. by f_equal. Qed.

(** Sorting a listing of the usual form sorts the crawls. *)
Lemma sorted_listing (base tail : string) (ids : list string) :
  Forall (fun id => is_crawl_id id = true) ids ->
  exists sorted_ids,
    sorted_ids ≡ₚ ids /\ Sorted str_ge sorted_ids /\
    merge_sort str_ge (cdx_api base tail <$> ids) =
      cdx_api base tail <$> sorted_ids.
Proof.
  intros Hids.
  pose proof (merge_sort_Permutation str_ge (cdx_api base tail <$> ids)) as Hperm.
  rewrite <- map_list_fmap in Hperm at 2.
  apply Permutation_map_inv in Hperm as (sorted_ids & Heq & Hperm).
  rewrite (map_list_fmap (cdx_api base tail) sorted_ids) in Heq.
  exists sorted_ids. split; [done|]. split; [|done].
  apply (Sorted_fmap_reflect (cdx_api base tail)
           (fun id => is_crawl_id id = true) _ str_ge).
  - intros a b. apply str_ge_cdx_api.
  - by rewrite <- Hperm.
  - rewrite <- Heq. apply Sorted_merge_sort, str_ge_total.
Qed.

Lemma mapM_as_str (ss : list string) : mapM as_str (JStr <$> ss) = Some ss.
Proof. by apply mapM_fmap_Some. Qed.

Lemma listed_endpoints_Ok `{Library} (resp : response) (xs : list json)
    (urls : list string) :
  json_loads (text resp) = Some (JList xs) ->
  Forall2 (fun x url =>
             exists d, x = JDict d /\
                       dict_lookup d (JStr "cdx-api") = Some (JStr url)) xs urls ->
  listed_endpoints resp = Ok (JStr <$> urls).
Proof.
  intros Hjson Hxs. unfold listed_endpoints, loads. rewrite Hjson.
  cbn [mbind result_bind py_iter]. clear Hjson.
  induction Hxs as [|x url xs urls (d & -> & Hd) _ IH]; [reflexivity|].
  rewrite mapM_result_cons, IH. cbn [getitem]. by rewrite Hd.
Qed.

Lemma select_recent_filter `{Runtime} (date : string -> string) startdate ids :
  Forall (fun id => thisdate_of (id +:+ "-0") = Ok (date id)) ids ->
  select_recent startdate ids =
    Ok (List.filter (fun id => String.ltb startdate (date id)) ids).
Proof.
  induction 1 as [|id ids Hid _ IH]; [reflexivity|].
  cbn [select_recent List.filter]. rewrite Hid, IH. reflexivity.
Qed.

(** X15: the list that [get_cc_endpoints] returns.  When the listing
    has status 200 and at least 30 entries whose [cdx-api] addresses
    are a base, [CC-MAIN-], a crawl identifier and a tail (base and tail
    without a capital C), and the duration is digits followed by [d],
    the result holds the index address on index.commoncrawl.org of
    every listed crawl whose date is after the start date, and of no
    other; the crawls come in decreasing order of identifier for the
    sort ['mixed'], in increasing order for any other sort; and one
    fetch is all that it costs. *)
Theorem get_cc_endpoints_recent `{Library} `{Runtime} fuel cc_duration cc_sort w
    resp w1 (base tail : string) xs ids digits days startdate
    (date : string -> string) :
  myrequests_get fuel collinfo None w = Some (Ok resp, w1) ->
  status_code resp = 200 ->
  json_loads (text resp) = Some (JList xs) ->
  Forall2 (fun x id =>
             exists d, x = JDict d /\
                       dict_lookup d (JStr "cdx-api") =
                         Some (JStr (cdx_api base tail id))) xs ids ->
  free_of_C base = true -> free_of_C tail = true ->
  Forall (fun id => is_crawl_id id = true) ids ->
  (30 <= length ids)%nat ->
  duration_digits cc_duration = Some digits ->
  int_of_str digits = Some days ->
  startdate_of (clock w1) days = Ok startdate ->
  Forall (fun id => thisdate_of (id +:+ "-0") = Ok (date id)) ids ->
  exists sorted_ids,
    sorted_ids ≡ₚ ids /\ Sorted str_ge sorted_ids /\
    let recent :=
      cc_index <$> List.filter (fun id => String.ltb startdate (date id))
                     sorted_ids in
    get_cc_endpoints fuel cc_duration cc_sort w =
      Some (Ok (if String.eqb cc_sort "mixed" then recent else reverse recent),
            w1).
Proof.
  intros Hget Hstatus Hjson Hxs Hbase Htail Hids Hlen Hduration Hdays Hstart Hdates.
  destruct (sorted_listing base tail ids Hids) as (sorted_ids & Hperm & Hsorted & Hsort).
  exists sorted_ids. split; [done|]. split; [done|]. cbv zeta.
  rewrite get_cc_endpoints_unfold, Hget. unfold endpoints_of_listing.
  rewrite Hstatus. cbn [Z.eqb Pos.eqb negb].
  assert (Hlisted : listed_endpoints resp = Ok (JStr <$> (cdx_api base tail <$> ids))).
  { apply (listed_endpoints_Ok resp xs); [done|].
    by apply Forall2_fmap_r. }
  rewrite Hlisted. cbn [mbind result_bind].
  rewrite !length_fmap, (proj2 (Nat.ltb_ge _ _) Hlen).
  unfold sorted_reverse. rewrite mapM_as_str, Hsort. cbn [mbind result_bind].
  rewrite Hduration. unfold recent_indices. cbn [py_int]. rewrite Hdays.
  cbn [mbind result_bind]. rewrite Hstart. cbn [mbind result_bind].
  unfold join_empty. rewrite mapM_as_str. cbn [mbind result_bind].
  rewrite findall_listing; [|done|done|by rewrite Hperm].
  rewrite (select_recent_filter date); [reflexivity|by rewrite Hperm].
Qed.

Lemma get_cc_endpoints_recent_witness :
  exists sorted_ids,
    sorted_ids ≡ₚ crawl_ids /\ Sorted str_ge sorted_ids /\
    @get_cc_endpoints (example_library (collinfo_net crawl_ids)) example_runtime
       5 "365d" "mixed" world0 =
      Some (Ok (cc_index <$>
                  List.filter (fun id => String.ltb "20170615" (example_date id))
                    sorted_ids),
            tick world0).
Proof.
  eapply (@get_cc_endpoints_recent (example_library (collinfo_net crawl_ids))
            example_runtime 5 "365d" "mixed" world0
            (Response 200 (collinfo_body crawl_ids)) (tick world0)
            "http://index.commoncrawl.org/" "-index" _ crawl_ids "365" 365
            "20170615" example_date).
  - vm_compute. reflexivity.
  - reflexivity.
  - vm_compute. reflexivity.
  - repeat (constructor; [eexists; split; [reflexivity|vm_compute; reflexivity]|]).
    constructor.
  - vm_compute. reflexivity.
  - vm_compute. reflexivity.
  - repeat (constructor; [vm_compute; reflexivity|]). constructor.
  - vm_compute. lia.
  - vm_compute. reflexivity.
  - vm_compute. reflexivity.
  - vm_compute. reflexivity.
  - repeat (constructor; [vm_compute; reflexivity|]). constructor.
Defined.
